(** * paper-mentat: resolution pipeline, shallow embedding

    The Python package [paper_mentat] (modules [models], [apis] and
    [framework]) is embedded function by function.  Python [str] values are
    Rocq strings whose characters are read as the code points 0..255;
    [Optional[...]] is [option]; the provider payloads ([Dict[str, Any]]) are
    records holding the keys the code reads, a missing key being [None];
    floats ([time.time()], the success rate) are exact rationals; the
    network, the clock, the log and the output directory are an explicit
    world threaded through a state-and-exception monad. *)

From Stdlib Require Import ZArith QArith Qround Ascii String DecimalString Sorted.
From stdpp Require Import gmap strings list.

Local Open Scope Z_scope.

(** ** Python string primitives *)

Module Py.

Definition code (c : ascii) : N := N_of_ascii c.

(** [Py_UNICODE_ISSPACE] below code point 256: what [\s] and [str.strip()]
    take for white space. *)
Definition is_space (c : ascii) : bool :=
  let n := code c in
  ((9 <=? n) && (n <=? 13) || (28 <=? n) && (n <=? 32)
   || (n =? 133) || (n =? 160))%N.

(** [\d]: the decimal digits (below 256 only 0-9). *)
Definition is_digit (c : ascii) : bool :=
  let n := code c in ((48 <=? n) && (n <=? 57))%N.

(** [str.isalpha] below code point 256. *)
Definition is_alpha (c : ascii) : bool :=
  let n := code c in
  ((65 <=? n) && (n <=? 90) || (97 <=? n) && (n <=? 122)
   || (n =? 170) || (n =? 181) || (n =? 186)
   || (192 <=? n) && (n <=? 214) || (216 <=? n) && (n <=? 246)
   || (248 <=? n) && (n <=? 255))%N.

(** The other characters [str.isalnum] accepts below 256: superscript
    digits and vulgar fractions. *)
Definition is_numeric_extra (c : ascii) : bool :=
  let n := code c in
  ((n =? 178) || (n =? 179) || (n =? 185)
   || (188 <=? n) && (n <=? 190))%N.

(** [\w]: alphanumeric or underscore. *)
Definition is_word (c : ascii) : bool :=
  is_alpha c || is_digit c || is_numeric_extra c || (code c =? 95)%N.

Definition in_chars (chars : string) (c : ascii) : bool :=
  bool_decide (c ∈ list_ascii_of_string chars).

(** Longest prefix whose characters satisfy [p], and the rest. *)
Fixpoint span (p : ascii → bool) (s : string) : string * string :=
  match s with
  | EmptyString => (EmptyString, EmptyString)
  | String c s' =>
      if p c then let '(a, b) := span p s' in (String c a, b)
      else (EmptyString, s)
  end.

Fixpoint drop_while (p : ascii → bool) (s : string) : string :=
  match s with
  | EmptyString => EmptyString
  | String c s' => if p c then drop_while p s' else s
  end.

(** [s.rstrip(chars)] for the predicate of [chars]. *)
Fixpoint rstrip_by (p : ascii → bool) (s : string) : string :=
  match s with
  | EmptyString => EmptyString
  | String c s' =>
      match rstrip_by p s' with
      | EmptyString => if p c then EmptyString else String c EmptyString
      | r => String c r
      end
  end.

Definition rstrip (chars s : string) : string := rstrip_by (in_chars chars) s.

(** [s.strip()] *)
Definition strip (s : string) : string :=
  rstrip_by is_space (drop_while is_space s).

Definition startswith (s pre : string) : bool := String.prefix pre s.

Fixpoint drop (n : nat) (s : string) : string :=
  match n, s with
  | S k, String _ s' => drop k s'
  | _, _ => s
  end.

(** [s[:n]] for a non-negative literal [n]. *)
Fixpoint take (n : nat) (s : string) : string :=
  match n, s with
  | S k, String c s' => String c (take k s')
  | _, _ => EmptyString
  end.

Definition endswith (s suf : string) : bool :=
  (String.length suf <=? String.length s)%nat
  && String.eqb (drop (String.length s - String.length suf) s) suf.

(** [needle in hay] *)
Fixpoint contains (needle hay : string) : bool :=
  String.prefix needle hay
  || match hay with
     | EmptyString => false
     | String _ hay' => contains needle hay'
     end.

(** [s.replace(old, new)] for a non-empty [old]: occurrences are replaced
    from the left and do not overlap; [skip] counts the characters of the
    occurrence just replaced that are still to be passed over. *)
Fixpoint replace_go (old new : string) (skip : nat) (s : string) : string :=
  match s with
  | EmptyString => EmptyString
  | String c s' =>
      match skip with
      | S k => replace_go old new k s'
      | O =>
          if String.prefix old s
          then new +:+ replace_go old new (String.length old - 1) s'
          else String c (replace_go old new 0 s')
      end
  end.

Definition replace (s old new : string) : string := replace_go old new 0 s.

Fixpoint filter (p : ascii → bool) (s : string) : string :=
  match s with
  | EmptyString => EmptyString
  | String c s' => if p c then String c (filter p s') else filter p s'
  end.

(** Truthiness of a [str] and of an [Optional[str]]. *)
Definition truthy (s : string) : bool := negb (String.eqb s EmptyString).

Definition truthy_opt (o : option string) : bool :=
  match o with Some s => truthy s | None => false end.

(** [a or b] on optional strings keeps [a] when it is truthy and is [b]
    otherwise, whatever [b] is. *)
Definition or_opt (a b : option string) : option string :=
  if truthy_opt a then a else b.

(** [a or b] with a [str] on the right. *)
Definition or_str (a : option string) (b : string) : string :=
  match a with
  | Some s => if truthy s then s else b
  | None => b
  end.

(** [str(n)] of an [int]. *)
Definition str_of_Z (n : Z) : string := NilZero.string_of_int (Z.to_int n).

(** [sep.join(l)] *)
Fixpoint join (sep : string) (l : list string) : string :=
  match l with
  | [] => EmptyString
  | [x] => x
  | x :: l' => x +:+ sep +:+ join sep l'
  end.

(** [l[:n]] on a list: a negative [n] counts from the end. *)
Definition slice_to {A} (l : list A) (n : Z) : list A :=
  if 0 <=? n then firstn (Z.to_nat n) l
  else firstn (Z.to_nat (Z.of_nat (length l) + n)) l.

End Py.

(** ** Regular expressions of the sources

    Each pattern is matched by a function anchored at the start of its
    argument that returns the matched text; none of the patterns can match
    the empty string, and in each the greedy choice is the only one that can
    succeed, so no backtracking is modelled. *)

Module Re.

(** [re.findall] without groups: matches from left to right, without
    overlap.  [skip] counts the characters of the last match that are still
    to be passed over. *)
Fixpoint findall_go (m : string → option string) (skip : nat) (s : string)
  : list string :=
  match s with
  | EmptyString => []
  | String c s' =>
      match skip with
      | S k => findall_go m k s'
      | O =>
          match m s with
          | Some x => x :: findall_go m (String.length x - 1) s'
          | None => findall_go m 0 s'
          end
      end
  end.

Definition findall (m : string → option string) (s : string) : list string :=
  findall_go m 0 s.

(** [re.search]: the leftmost match. *)
Fixpoint search (m : string → option string) (s : string) : option string :=
  match m s with
  | Some x => Some x
  | None =>
      match s with
      | EmptyString => None
      | String _ s' => search m s'
      end
  end.

(** [re.sub(pattern, "", s)]: every match removed. *)
Fixpoint remove_go (m : string → option string) (skip : nat) (s : string)
  : string :=
  match s with
  | EmptyString => EmptyString
  | String c s' =>
      match skip with
      | S k => remove_go m k s'
      | O =>
          match m s with
          | Some x => remove_go m (String.length x - 1) s'
          | None => String c (remove_go m 0 s')
          end
      end
  end.

Definition remove_all (m : string → option string) (s : string) : string :=
  remove_go m 0 s.

(** A literal prefix followed by the rest. *)
Definition lit (l s : string) : option string :=
  if String.prefix l s then Some (Py.drop (String.length l) s) else None.

(** [10\.\d{4,9}/[^\s]+] *)
Definition doi_pattern (s : string) : option string :=
  match lit "10." s with
  | None => None
  | Some rest =>
      let '(digits, rest') := Py.span Py.is_digit rest in
      if (4 <=? String.length digits)%nat && (String.length digits <=? 9)%nat
      then
        match rest' with
        | String "/"%char tail =>
            let '(body, _) := Py.span (λ c, negb (Py.is_space c)) tail in
            match body with
            | EmptyString => None
            | _ => Some ("10." +:+ digits +:+ "/" +:+ body)
            end
        | _ => None
        end
      else None
  end.

Definition is_url_char (c : ascii) : bool :=
  negb (Py.is_space c || Py.in_chars "<>" c || (Py.code c =? 34)%N).

(** [https?://[^\s<>QUOTE]+] where QUOTE is the double quote, code 34. *)
Definition url_pattern (s : string) : option string :=
  match lit "http" s with
  | None => None
  | Some rest =>
      let '(scheme, rest1) :=
        match rest with
        | String "s"%char r => ("https", r)
        | _ => ("http", rest)
        end in
      match lit "://" rest1 with
      | None => None
      | Some tail =>
          let '(body, _) := Py.span is_url_char tail in
          match body with
          | EmptyString => None
          | _ => Some (scheme +:+ "://" +:+ body)
          end
      end
  end.

(** [prefix(CLASS+)] with the group returned: used for
    [arxiv\.org/abs/(\S+)] and [arxiv\.org/abs/(.+)]. *)
Definition group_after (l : string) (p : ascii → bool) (s : string)
  : option string :=
  match lit l s with
  | None => None
  | Some tail =>
      let '(body, _) := Py.span p tail in
      match body with
      | EmptyString => None
      | _ => Some body
      end
  end.

(** [/fig-\d+|/table-\d+|/supp-\d+], as a test. *)
Definition component_pattern (s : string) : option string :=
  match group_after "/fig-" Py.is_digit s with
  | Some d => Some ("/fig-" +:+ d)
  | None =>
      match group_after "/table-" Py.is_digit s with
      | Some d => Some ("/table-" +:+ d)
      | None =>
          match group_after "/supp-" Py.is_digit s with
          | Some d => Some ("/supp-" +:+ d)
          | None => None
          end
      end
  end.

(** [<[^>]+>] *)
Definition tag_pattern (s : string) : option string :=
  match s with
  | String "<"%char tail =>
      let '(body, rest) := Py.span (λ c, negb (Py.code c =? 62)%N) tail in
      match body, rest with
      | String _ _, String ">"%char _ => Some ("<" +:+ body +:+ ">")
      | _, _ => None
      end
  | _ => None
  end.

End Re.

(** ** models.py *)

Inductive ProcessingState :=
  NEW | TRIAGED | METADATA_EXTRACTED | OA_VERIFIED | COMPLETED | FAILED.

Inductive OAColor := GOLD | GREEN | HYBRID | BRONZE | CLOSED | UNKNOWN.

Global Instance ProcessingState_eq_dec : EqDecision ProcessingState.
Proof. solve_decision. Defined.

Global Instance OAColor_eq_dec : EqDecision OAColor.
Proof. solve_decision. Defined.

(** The [.value] of the enumeration members. *)
Definition OAColor_value (c : OAColor) : string :=
  match c with
  | GOLD => "gold" | GREEN => "green" | HYBRID => "hybrid"
  | BRONZE => "bronze" | CLOSED => "closed" | UNKNOWN => "unknown"
  end.

Definition ProcessingState_value (s : ProcessingState) : string :=
  match s with
  | NEW => "new" | TRIAGED => "triaged"
  | METADATA_EXTRACTED => "metadata_extracted"
  | OA_VERIFIED => "oa_verified" | COMPLETED => "completed"
  | FAILED => "failed"
  end.

Record PaperMetadata := {
  title : string;
  authors : list string;
  doi : option string;
  arxiv_id : option string;
  publication_year : option Z;
  journal : option string;
  abstract : option string;
  keywords : list string;
  oa_status : option OAColor;
  oa_url : option string;
  license : option string;
}.

(** [PaperMetadata(title=t)]: every other field at its default. *)
Definition PaperMetadata_default (t : string) : PaperMetadata :=
  {| title := t; authors := []; doi := None; arxiv_id := None;
     publication_year := None; journal := None; abstract := None;
     keywords := []; oa_status := None; oa_url := None; license := None |}.

Record ProcessingResult := {
  url : string;
  state : ProcessingState;
  metadata : option PaperMetadata;
  error_message : option string;
  processing_time : Q;
}.

(** ** Provider payloads, by the keys the adapters read *)

Record CrossrefAuthor := {
  given : option string;
  family : option string;
}.

(** A date field holds [date-parts], a list of lists of numbers or nulls. *)
Record CrossrefDate := {
  date_parts : option (list (list (option Z)));
}.

Record CrossrefItem := {
  cr_title : option (list string);
  cr_DOI : option string;
  cr_author : option (list CrossrefAuthor);
  cr_published_print : option CrossrefDate;
  cr_published_online : option CrossrefDate;
  cr_created : option CrossrefDate;
  cr_container_title : option (list string);
  cr_abstract : option string;
}.

Record UnpaywallLocation := {
  url_for_pdf : option string;
  loc_url : option string;
  loc_license : option string;
}.

Record UnpaywallData := {
  up_is_oa : option bool;
  up_oa_status : option string;
  up_best_oa_location : option UnpaywallLocation;
}.

Record OpenAccess := {
  is_oa : option bool;
  open_access_oa_url : option string;
}.

Record OpenAlexWork := {
  ox_title : option string;
  (** the [display_name] of the [author] of each authorship *)
  ox_authorships : list (option string);
  ox_publication_year : option Z;
  (** [primary_location.source.display_name], [None] when any step is
      missing or null *)
  ox_source_display_name : option string;
  ox_doi : option string;
  ox_open_access : option OpenAccess;
}.

(** One [atom:entry] of the arXiv feed: the text of each element the code
    looks for, [None] when the element is missing. *)
Record ArxivEntry := {
  ax_title : option string;
  ax_author_names : list (option string);
  ax_summary : option string;
  ax_id : option string;
  ax_published : option string;
}.

(** One result of the CORE search: [co_author_names] is [a.get("name", "")]
    of each author that is an object. *)
Record CoreItem := {
  co_title : option string;
  co_author_names : list string;
  co_doi : option string;
  co_yearPublished : option Z;
  co_publisher : option string;
  co_abstract : option string;
  co_downloadUrl : option string;
  co_sourceFulltextUrls : option (list string);
}.

(** ** apis.py: the static adapters *)

Record OAInfo := {
  info_status : OAColor;
  info_url : option string;
  info_license : option string;
}.

Definition truthy_bool (b : option bool) : bool :=
  match b with Some true => true | _ => false end.

Definition status_map (s : string) : option OAColor :=
  if String.eqb s "gold" then Some GOLD
  else if String.eqb s "green" then Some GREEN
  else if String.eqb s "hybrid" then Some HYBRID
  else if String.eqb s "bronze" then Some BRONZE
  else None.

Definition unpaywall_oa_info (data : UnpaywallData) : OAInfo :=
  let is_oa := truthy_bool (up_is_oa data) in
  if negb is_oa then
    {| info_status := CLOSED; info_url := None; info_license := None |}
  else
    let oa_color :=
      default UNKNOWN (status_map (default EmptyString (up_oa_status data))) in
    let best :=
      default {| url_for_pdf := None; loc_url := None; loc_license := None |}
              (up_best_oa_location data) in
    {| info_status := oa_color;
       info_url := Py.or_opt (url_for_pdf best) (loc_url best);
       info_license := loc_license best |}.

(** [f"{a.get('given', '')} {a.get('family', '')}".strip()] *)
Definition crossref_author_name (a : CrossrefAuthor) : string :=
  Py.strip (default EmptyString (given a) +:+ " "
            +:+ default EmptyString (family a)).

(** [parts and parts[0] and parts[0][0]] selects the year of a date field;
    [item.get(date_field, {}).get("date-parts", [[]])] is [[[]]] when either
    key is missing. *)
Definition crossref_date_year (d : option CrossrefDate) : option Z :=
  match d ≫= date_parts with
  | Some ((Some y :: _) :: _) => if y =? 0 then None else Some y
  | _ => None
  end.

Definition crossref_year (item : CrossrefItem) : option Z :=
  match crossref_date_year (cr_published_print item) with
  | Some y => Some y
  | None =>
      match crossref_date_year (cr_published_online item) with
      | Some y => Some y
      | None => crossref_date_year (cr_created item)
      end
  end.

Definition none_if_falsy (s : string) : option string :=
  if Py.truthy s then Some s else None.

(** Returns [None] for figures, tables and supplements. *)
Definition crossref_to_metadata (item : CrossrefItem) : option PaperMetadata :=
  let title_list := default [] (cr_title item) in
  let title := match title_list with t :: _ => t | [] => "Unknown" end in
  let doi := default EmptyString (cr_DOI item) in
  if bool_decide (is_Some (Re.search Re.component_pattern doi)) then None
  else
    let authors :=
      List.filter Py.truthy
        (map crossref_author_name (default [] (cr_author item))) in
    let year := crossref_year item in
    let journal_list := default [] (cr_container_title item) in
    let abstract := default EmptyString (cr_abstract item) in
    let abstract :=
      if Py.truthy abstract
      then Py.strip (Re.remove_all Re.tag_pattern abstract)
      else abstract in
    Some {| title := title;
            authors := authors;
            doi := cr_DOI item;
            arxiv_id := None;
            publication_year := year;
            journal := head journal_list;
            abstract := none_if_falsy abstract;
            keywords := [];
            oa_status := None;
            oa_url := None;
            license := None |}.

Definition openalex_to_metadata (item : OpenAlexWork) : PaperMetadata :=
  let title := Py.or_str (ox_title item) "Unknown" in
  let authors :=
    omap (λ n, match n with
               | Some s => if Py.truthy s then Some s else None
               | None => None
               end) (ox_authorships item) in
  let doi :=
    match ox_doi item with
    | Some d =>
        if Py.truthy d && Py.startswith d "https://doi.org/"
        then Some (Py.drop (String.length "https://doi.org/") d)
        else Some d
    | None => None
    end in
  let oa := default {| is_oa := None; open_access_oa_url := None |}
                    (ox_open_access item) in
  let oa_status := if truthy_bool (is_oa oa) then Some GREEN else None in
  {| title := title;
     authors := authors;
     doi := doi;
     arxiv_id := None;
     publication_year := ox_publication_year item;
     journal := ox_source_display_name item;
     abstract := None;
     keywords := [];
     oa_status := oa_status;
     oa_url := open_access_oa_url oa;
     license := None |}.

(** [int(text)]: white space around the text is dropped, one sign is
    allowed, and single underscores may separate digits; any other text makes
    [int] raise [ValueError]. *)
Fixpoint int_digits (acc : Z) (after_digit : bool) (s : string) : option Z :=
  match s with
  | EmptyString => if after_digit then Some acc else None
  | String c s' =>
      if Py.is_digit c
      then int_digits (10 * acc + Z.of_N (Py.code c - 48)) true s'
      else if (Py.code c =? 95)%N && after_digit
      then match s' with
           | String c' _ => if Py.is_digit c' then int_digits acc false s' else None
           | EmptyString => None
           end
      else None
  end.

Definition py_int (text : string) : option Z :=
  match Py.strip text with
  | String "+"%char s => int_digits 0 false s
  | String "-"%char s => Z.opp <$> int_digits 0 false s
  | s => int_digits 0 false s
  end.

(** The body of the loop over the entries of [arxiv_search]. *)
Definition arxiv_entry_to_metadata (entry : ArxivEntry) : PaperMetadata :=
  let title :=
    match ax_title entry with
    | Some t => Py.replace (Py.strip t) (String "010"%char EmptyString) " "
    | None => "Unknown"
    end in
  let authors := omap (fmap Py.strip) (ax_author_names entry) in
  let abstract := Py.strip <$> ax_summary entry in
  let arxiv_url := from_option Py.strip EmptyString (ax_id entry) in
  let arxiv_id :=
    Re.search
      (Re.group_after "arxiv.org/abs/" (λ c, negb (Py.code c =? 10)%N))
      arxiv_url in
  let year := ax_published entry ≫= (λ t, py_int (Py.take 4 t)) in
  let pdf_url :=
    if Py.truthy arxiv_url
    then Some (Py.replace arxiv_url "/abs/" "/pdf/") else None in
  {| title := title;
     authors := authors;
     doi := None;
     arxiv_id := arxiv_id;
     publication_year := year;
     journal := None;
     abstract := abstract;
     keywords := [];
     oa_status := Some GREEN;
     oa_url := pdf_url;
     license := None |}.

(** ** The world: network, clock, log and output directory *)

Inductive exn :=
| AttributeError (text : string)
| ValueError (text : string)
| ZeroDivisionError (text : string)
| RequestException (text : string).

(** [str(e)] *)
Definition exn_text (e : exn) : string :=
  match e with
  | AttributeError t | ValueError t | ZeroDivisionError t
  | RequestException t => t
  end.

Inductive Outcome (A : Type) :=
| Ok (a : A)
| Raise (e : exn).
Arguments Ok {A} a.
Arguments Raise {A} e.

Inductive LogLevel := INFO | WARNING | ERROR.

(** [session.get(url, params=params)] *)
Record Request := {
  req_url : string;
  req_params : list (string * string);
}.

(** What a provider answers: [Refused] when [session.get] or
    [raise_for_status] raises [requests.RequestException], [Malformed] when
    the body of the response does not parse, [Body] with the parsed payload
    otherwise. *)
Inductive Reply (T : Type) :=
| Refused (text : string)
| Malformed (text : string)
| Body (v : T).
Arguments Refused {T} text.
Arguments Malformed {T} text.
Arguments Body {T} v.

(** A response [_get] hands back: its body parses or does not. *)
Inductive Response (T : Type) :=
| Unparsable (text : string)
| Parsed (v : T).
Arguments Unparsable {T} text.
Arguments Parsed {T} v.

(** The response to the [stream=True] fetch of a PDF: [chunks] is what
    [iter_content] yields, [stream_error] the exception it raises after the
    last of them, if any. *)
Record PdfResponse := {
  status_code : Z;
  content_type : option string;
  chunks : list string;
  stream_error : option exn;
}.

Inductive FetchReply :=
| FetchRaised (e : exn)
| Fetched (resp : PdfResponse).

(** The environment of one run.  Every answer may depend on the requests
    made so far.  For the single-record endpoints the payload is [None] when
    the JSON value the code tests is falsy. *)
Record Env := {
  clock : nat → Q;
  arxiv_api : list Request → Request → Reply (list ArxivEntry);
  crossref_works_api : list Request → Request → Reply (list CrossrefItem);
  crossref_work_api : list Request → Request → Reply (option CrossrefItem);
  unpaywall_api : list Request → Request → Reply (option UnpaywallData);
  openalex_works_api : list Request → Request → Reply (list OpenAlexWork);
  openalex_work_api : list Request → Request → Reply (option OpenAlexWork);
  core_api : list Request → Request → Reply (list CoreItem);
  pdf_host : list Request → Request → FetchReply;
  (** the text of a paper-list file, [None] when the path does not exist *)
  read_text : string → option string;
}.

(** The configuration keys the modelled code reads. *)
Record Config := {
  contact_email : string;
  rate_limit_per_second : Q;
  core_api_key : option string;
  output_dir : string;
}.

Record World := {
  requests : list Request;
  logs : list (LogLevel * string);
  ticks : nat;
  slept : list Q;
  last_request_time : Q;
  files : gmap string string;
}.

(** A fresh client in an empty output directory. *)
Definition initial_world : World :=
  {| requests := []; logs := []; ticks := 0; slept := [];
     last_request_time := 0%Q; files := ∅ |}.

(** State and exceptions: a computation runs from a world to an outcome and
    the world it leaves, also when it raises. *)
Definition M (A : Type) : Type := World → Outcome A * World.

Global Instance M_ret : MRet M := λ A a w, (Ok a, w).

Global Instance M_bind : MBind M := λ A B f m w,
  match m w with
  | (Ok a, w') => f a w'
  | (Raise e, w') => (Raise e, w')
  end.

Definition raise {A} (e : exn) : M A := λ w, (Raise e, w).

(** [try: body except Exception as e: handler(e)] *)
Definition try_except {A} (body : M A) (handler : exn → M A) : M A := λ w,
  match body w with
  | (Ok a, w') => (Ok a, w')
  | (Raise e, w') => handler e w'
  end.

(** [for x in l: s = body(x, s)], [s] being the variables the loop updates. *)
Fixpoint for_each {A S} (body : A → S → M S) (l : list A) (s : S) : M S :=
  match l with
  | [] => mret s
  | x :: l' => s' ← body x s; for_each body l' s'
  end.

Definition log (level : LogLevel) (msg : string) : M unit := λ w,
  (Ok (),
   {| requests := requests w; logs := logs w ++ [(level, msg)];
      ticks := ticks w; slept := slept w;
      last_request_time := last_request_time w; files := files w |}).

Definition record_request (r : Request) : M unit := λ w,
  (Ok (),
   {| requests := requests w ++ [r]; logs := logs w;
      ticks := ticks w; slept := slept w;
      last_request_time := last_request_time w; files := files w |}).

Definition sleep (d : Q) : M unit := λ w,
  (Ok (),
   {| requests := requests w; logs := logs w;
      ticks := ticks w; slept := slept w ++ [d];
      last_request_time := last_request_time w; files := files w |}).

Definition set_last_request_time (t : Q) : M unit := λ w,
  (Ok (),
   {| requests := requests w; logs := logs w;
      ticks := ticks w; slept := slept w;
      last_request_time := t; files := files w |}).

Definition set_files (fs : gmap string string) : M unit := λ w,
  (Ok (),
   {| requests := requests w; logs := logs w;
      ticks := ticks w; slept := slept w;
      last_request_time := last_request_time w; files := fs |}).

Definition get_world : M World := λ w, (Ok w, w).

Section Client.

Variable env : Env.
Variable config : Config.

(** [time.time()]: the next reading of the clock. *)
Definition time_time : M Q := λ w,
  (Ok (clock env (ticks w)),
   {| requests := requests w; logs := logs w;
      ticks := S (ticks w); slept := slept w;
      last_request_time := last_request_time w; files := files w |}).

Definition email : string := contact_email config.

(** [1.0 / max(rate_limit_per_second, 0.1)] *)
Definition rate_delay : Q :=
  let r := rate_limit_per_second config in
  (1 / (if Qle_bool (1 # 10) r then r else 1 # 10))%Q.

Definition _throttle : M unit :=
  now ← time_time;
  w ← get_world;
  let elapsed := (now - last_request_time w)%Q in
  (if negb (Qle_bool rate_delay elapsed)
   then sleep (rate_delay - elapsed)%Q else mret ());;
  now' ← time_time;
  set_last_request_time now'.

Definition _get {T} (api : list Request → Request → Reply T)
    (u : string) (params : list (string * string))
  : M (option (Response T)) :=
  _throttle;;
  w ← get_world;
  let req := {| req_url := u; req_params := params |} in
  record_request req;;
  match api (requests w) req with
  | Refused text =>
      log WARNING ("Request failed for " +:+ u +:+ ": " +:+ text);;
      mret None
  | Malformed text => mret (Some (Unparsable text))
  | Body v => mret (Some (Parsed v))
  end.

(** [resp.json()] *)
Definition json {T} (resp : Response T) : M T :=
  match resp with
  | Unparsable text => raise (ValueError text)
  | Parsed v => mret v
  end.

Definition mailto : list (string * string) :=
  if Py.truthy email then [("mailto", email)] else [].

Definition crossref_search (query : string) (max_results : Z)
  : M (list CrossrefItem) :=
  let params :=
    [("query", query); ("rows", Py.str_of_Z max_results);
     ("sort", "relevance")] ++ mailto in
  resp ← _get (crossref_works_api env) "https://api.crossref.org/works" params;
  match resp with
  | None => mret []
  | Some resp => json resp
  end.

Definition crossref_lookup_doi (doi : string) : M (option CrossrefItem) :=
  resp ← _get (crossref_work_api env)
              ("https://api.crossref.org/works/" +:+ doi) mailto;
  match resp with
  | None => mret None
  | Some resp => json resp
  end.

Definition unpaywall_check (doi : string) : M (option UnpaywallData) :=
  if negb (Py.truthy email) then
    log WARNING "Unpaywall requires contact_email in config";;
    mret None
  else
    resp ← _get (unpaywall_api env)
                ("https://api.unpaywall.org/v2/" +:+ doi) [("email", email)];
    match resp with
    | None => mret None
    | Some resp => json resp
    end.

Definition openalex_search (query : string) (max_results : Z)
  : M (list OpenAlexWork) :=
  let params :=
    [("search", query); ("per_page", Py.str_of_Z (Z.min max_results 200))]
    ++ mailto in
  resp ← _get (openalex_works_api env) "https://api.openalex.org/works" params;
  match resp with
  | None => mret []
  | Some resp => json resp
  end.

Definition openalex_lookup_doi (doi : string) : M (option OpenAlexWork) :=
  resp ← _get (openalex_work_api env)
              ("https://api.openalex.org/works/doi:" +:+ doi) mailto;
  match resp with
  | None => mret None
  | Some resp => json resp
  end.

Definition arxiv_search (query : string) (max_results : Z)
  : M (list PaperMetadata) :=
  let params :=
    [("search_query", "all:" +:+ query); ("start", "0");
     ("max_results", Py.str_of_Z max_results); ("sortBy", "relevance");
     ("sortOrder", "descending")] in
  resp ← _get (arxiv_api env) "http://export.arxiv.org/api/query" params;
  match resp with
  | None => mret []
  | Some (Unparsable _) =>
      log WARNING "Failed to parse arXiv XML response";;
      mret []
  | Some (Parsed entries) => mret (map arxiv_entry_to_metadata entries)
  end.

(** The record [core_search] builds from one result. *)
Definition core_item_to_metadata (item : CoreItem) : PaperMetadata :=
  let dl_url :=
    if Py.truthy_opt (co_downloadUrl item) then co_downloadUrl item
    else co_sourceFulltextUrls item ≫= head in
  {| title := default "Unknown" (co_title item);
     authors := co_author_names item;
     doi := co_doi item;
     arxiv_id := None;
     publication_year := co_yearPublished item;
     journal := co_publisher item;
     abstract := co_abstract item;
     keywords := [];
     oa_status := if Py.truthy_opt dl_url then Some GREEN else None;
     oa_url := dl_url;
     license := None |}.

Definition quote : string := String (ascii_of_N 34) EmptyString.

Definition core_search (query : string) (max_results : Z)
  : M (list PaperMetadata) :=
  if negb (Py.truthy_opt (core_api_key config)) then
    log WARNING "core_api_key not set in config, skipping CORE search";;
    mret []
  else
    let query :=
      if Py.contains " " query
         && negb (Py.startswith query quote || Py.contains ":" query)
      then quote +:+ query +:+ quote +:+ "~10" else query in
    let req :=
      {| req_url := "https://api.core.ac.uk/v3/search/works";
         req_params := [("q", query);
                        ("limit", Py.str_of_Z (Z.min max_results 100));
                        ("sort", "relevance")] |} in
    _throttle;;
    w ← get_world;
    record_request req;;
    match core_api env (requests w) req with
    | Refused text =>
        log WARNING ("CORE search failed: " +:+ text);;
        mret []
    | Malformed text => raise (ValueError text)
    | Body items => mret (map core_item_to_metadata items)
    end.

End Client.

(** ** framework.py *)

(** Reading an attribute of a value that may be [None]. *)
Definition attribute (meta : option PaperMetadata) (name : string)
  : M PaperMetadata :=
  match meta with
  | Some m => mret m
  | None =>
      raise (AttributeError
               ("'NoneType' object has no attribute '" +:+ name +:+ "'"))
  end.

(** The assignments [_enrich_oa] makes to a record. *)
Definition with_oa (m : PaperMetadata) (s : option OAColor)
    (u : option string) (l : option string) : PaperMetadata :=
  {| title := title m; authors := authors m; doi := doi m;
     arxiv_id := arxiv_id m; publication_year := publication_year m;
     journal := journal m; abstract := abstract m; keywords := keywords m;
     oa_status := s; oa_url := u; license := l |}.

Definition state_of (m : PaperMetadata) : ProcessingState :=
  if Py.truthy_opt (oa_url m) then COMPLETED else METADATA_EXTRACTED.

Definition doi_url (m : PaperMetadata) : string :=
  if Py.truthy_opt (doi m)
  then "https://doi.org/" +:+ default EmptyString (doi m)
  else EmptyString.

(** The variables the loops of [search_ad_hoc] update: [results] and
    [seen_keys]. *)
Abbreviation SearchState := (list ProcessingResult * gset string)%type.

Section Framework.

Variable env : Env.
Variable config : Config.

Definition _enrich_oa (meta : option PaperMetadata) : M PaperMetadata :=
  m ← attribute meta "doi";
  if negb (Py.truthy_opt (doi m)) then mret m
  else
    let d := default EmptyString (doi m) in
    let fallback : M PaperMetadata :=
      oalex ← openalex_lookup_doi env config d;
      match oalex with
      | Some work =>
          let oa_info :=
            default {| is_oa := None; open_access_oa_url := None |}
                    (ox_open_access work) in
          if truthy_bool (is_oa oa_info)
          then mret (with_oa m (Some GREEN) (open_access_oa_url oa_info)
                             (license m))
          else mret m
      | None => mret m
      end in
    if Py.truthy (contact_email config) then
      data ← unpaywall_check env config d;
      match data with
      | Some data =>
          let oa := unpaywall_oa_info data in
          mret (with_oa m (Some (info_status oa)) (info_url oa)
                        (info_license oa))
      | None => fallback
      end
    else fallback.

Definition arxiv_step (meta : PaperMetadata) (s : SearchState)
  : M SearchState :=
  let '(results, seen_keys) := s in
  let key := Py.or_str (arxiv_id meta) (title meta) in
  if bool_decide (key ∈ seen_keys) then mret s
  else
    mret (results ++
            [{| url := if Py.truthy_opt (arxiv_id meta)
                       then "https://arxiv.org/abs/"
                            +:+ default EmptyString (arxiv_id meta)
                       else EmptyString;
                state := COMPLETED;
                metadata := Some meta;
                error_message := None;
                processing_time := 0 |}],
          {[key]} ∪ seen_keys).

Definition crossref_step (item : CrossrefItem) (s : SearchState)
  : M SearchState :=
  let '(results, seen_keys) := s in
  let meta := crossref_to_metadata item in
  m ← attribute meta "doi";
  let d := default EmptyString (doi m) in
  if Py.truthy_opt (doi m) && bool_decide (d ∈ seen_keys) then mret s
  else
    let seen_keys :=
      if Py.truthy_opt (doi m) then {[d]} ∪ seen_keys else seen_keys in
    m ← _enrich_oa (Some m);
    mret (results ++
            [{| url := doi_url m;
                state := state_of m;
                metadata := Some m;
                error_message := None;
                processing_time := 0 |}],
          seen_keys).

Definition openalex_step (item : OpenAlexWork) (s : SearchState)
  : M SearchState :=
  let '(results, seen_keys) := s in
  let meta := openalex_to_metadata item in
  let key := Py.or_str (doi meta) (title meta) in
  if bool_decide (key ∈ seen_keys) then mret s
  else
    let seen_keys := {[key]} ∪ seen_keys in
    m ← (if Py.truthy_opt (doi meta) && negb (Py.truthy_opt (oa_url meta))
         then _enrich_oa (Some meta) else mret meta);
    mret (results ++
            [{| url := doi_url m;
                state := state_of m;
                metadata := Some m;
                error_message := None;
                processing_time := 0 |}],
          seen_keys).

(** The merged list before [results[:max_results]]. *)
Definition search_merge (query : string) (max_results : Z)
  : M (list ProcessingResult) :=
  log INFO ("Ad-hoc search: " +:+ query);;
  let per_source := Z.max (max_results `div` 3) 5 in
  metas ← arxiv_search env config query per_source;
  s ← for_each arxiv_step metas ([], ∅);
  items ← crossref_search env config query per_source;
  s ← for_each crossref_step items s;
  works ← openalex_search env config query per_source;
  s ← for_each openalex_step works s;
  mret s.1.

Definition search_ad_hoc (query : string) (max_results : Z)
  : M (list ProcessingResult) :=
  results ← search_merge query max_results;
  mret (Py.slice_to results max_results).

Definition search_by_topics (topics : list string)
    (max_results_per_topic : Z) : M (list ProcessingResult) :=
  for_each (λ topic all_results,
              log INFO ("Topic search: " +:+ topic);;
              rs ← search_ad_hoc topic max_results_per_topic;
              mret (all_results ++ rs))
           topics [].

(** [list(dict.fromkeys(entries))]: the keys in the order of their first
    insertion. *)
Definition fromkeys (entries : list string) : list string :=
  fold_left (λ d k, if bool_decide (k ∈ d) then d else d ++ [k]) entries [].

(** The list [entries] of [_parse_paper_list] before it is deduplicated:
    the DOIs of the text, then its URLs that are not [doi.org] links. *)
Definition extract_entries (text : string) : list string :=
  let dois := map (Py.rstrip ".,;)") (Re.findall Re.doi_pattern text) in
  let urls :=
    List.filter (λ u, negb (Py.contains "doi.org" u))
      (map (Py.rstrip ".,;)") (Re.findall Re.url_pattern text)) in
  dois ++ urls.

(** The entries [_parse_paper_list] returns for the text of the file. *)
Definition parse_text (text : string) : list string :=
  fromkeys (extract_entries text).

Definition _parse_paper_list (file_path : string) : M (list string) :=
  match read_text env file_path with
  | None =>
      log ERROR ("File not found: " +:+ file_path);;
      mret []
  | Some text => mret (parse_text text)
  end.

Definition _process_doi (doi : string) (start : Q) : M ProcessingResult :=
  item ← crossref_lookup_doi env config doi;
  match item with
  | None =>
      now ← time_time env;
      mret {| url := "https://doi.org/" +:+ doi; state := FAILED;
              metadata := None;
              error_message := Some "DOI not found in Crossref";
              processing_time := (now - start)%Q |}
  | Some item =>
      let meta := crossref_to_metadata item in
      meta ← _enrich_oa meta;
      now ← time_time env;
      mret {| url := "https://doi.org/" +:+ doi; state := state_of meta;
              metadata := Some meta; error_message := None;
              processing_time := (now - start)%Q |}
  end.

Definition _process_url (u : string) (start : Q) : M ProcessingResult :=
  match Re.search (Re.group_after "arxiv.org/abs/"
                                  (λ c, negb (Py.is_space c))) u with
  | Some arxiv_id =>
      let pdf_url := Py.replace u "/abs/" "/pdf/" in
      let meta :=
        {| title := "arXiv:" +:+ arxiv_id; authors := []; doi := None;
           arxiv_id := Some arxiv_id; publication_year := None;
           journal := None; abstract := None; keywords := [];
           oa_status := Some GREEN; oa_url := Some pdf_url;
           license := None |} in
      now ← time_time env;
      mret {| url := u; state := COMPLETED; metadata := Some meta;
              error_message := None; processing_time := (now - start)%Q |}
  | None =>
      match Re.search Re.doi_pattern u with
      | Some d => _process_doi (Py.rstrip ".,;)" d) start
      | None =>
          now ← time_time env;
          mret {| url := u; state := METADATA_EXTRACTED;
                  metadata := Some (PaperMetadata_default u);
                  error_message := None;
                  processing_time := (now - start)%Q |}
      end
  end.

(** The [try] block of [_process_entry]. *)
Definition process_entry_body (entry : string) (start : Q)
  : M ProcessingResult :=
  if Py.startswith entry "http" then _process_url entry start
  else _process_doi entry start.

Definition _process_entry (entry : string) : M ProcessingResult :=
  start ← time_time env;
  try_except (process_entry_body entry start)
    (λ e,
       log ERROR ("Error processing " +:+ entry +:+ ": " +:+ exn_text e);;
       now ← time_time env;
       mret {| url := entry; state := FAILED; metadata := None;
               error_message := Some (exn_text e);
               processing_time := (now - start)%Q |}).

Definition process_paper_list (file_path : string)
  : M (list ProcessingResult) :=
  log INFO ("Processing paper list: " +:+ file_path);;
  entries ← _parse_paper_list file_path;
  for_each (λ entry results,
              result ← _process_entry entry;
              mret (results ++ [result]))
           entries [].

(** *** PDF download *)

(** [re.sub(r"[^\w\s-]", "", title or "paper")[:80].strip()] and the
    extension. *)
Definition safe_filename (m : PaperMetadata) : string :=
  let t := if Py.truthy (title m) then title m else "paper" in
  let kept :=
    Py.filter (λ c, Py.is_word c || Py.is_space c || (Py.code c =? 45)%N) t in
  Py.strip (Py.take 80 kept) +:+ ".pdf".

(** [self.api.session.get(url, ...)]: no throttle, may raise. *)
Definition session_get (u : string) : M PdfResponse :=
  w ← get_world;
  let req := {| req_url := u; req_params := [] |} in
  record_request req;;
  match pdf_host env (requests w) req with
  | FetchRaised e => raise e
  | Fetched resp => mret resp
  end.

(** [with open(filepath, "wb") as f: for chunk in ...: f.write(chunk)]:
    the file is created empty, the chunks are appended, and the stream may
    fail after the last of them. *)
Definition write_chunks (filename : string) (resp : PdfResponse) : M unit :=
  w ← get_world;
  set_files (<[filename := EmptyString]> (files w));;
  for_each (λ chunk (_ : unit),
              w ← get_world;
              set_files (<[filename :=
                             default EmptyString (files w !! filename)
                             +:+ chunk]> (files w)))
           (chunks resp) ();;
  match stream_error resp with
  | Some e => raise e
  | None => mret ()
  end.

Definition download_step (r : ProcessingResult) (count : Z) : M Z :=
  match metadata r with
  | None => mret count
  | Some m =>
      if negb (Py.truthy_opt (oa_url m)) then mret count
      else
        let u := default EmptyString (oa_url m) in
        let filename := safe_filename m in
        let filepath := output_dir config +:+ "/" +:+ filename in
        w ← get_world;
        if bool_decide (is_Some (files w !! filename)) then mret (count + 1)
        else
          try_except
            (resp ← session_get u;
             let ctype := default EmptyString (content_type resp) in
             if (status_code resp =? 200)
                && (Py.contains "pdf" ctype || Py.endswith u ".pdf"
                    || Py.contains "arxiv.org/pdf" u)
             then
               write_chunks filename resp;;
               log INFO ("Downloaded: " +:+ filepath);;
               mret (count + 1)
             else
               log WARNING ("Not a PDF response for " +:+ u
                            +:+ " (content-type: " +:+ ctype +:+ ")");;
               mret count)
            (λ e,
               log WARNING ("PDF download failed for " +:+ u +:+ ": "
                            +:+ exn_text e);;
               mret count)
  end.

(** The files of the world are those of the output directory, keyed by
    file name. *)
Definition download_pdfs (results : list ProcessingResult) : M Z :=
  for_each download_step results 0.

End Framework.

(** *** Report *)

(** [a / b] on [int]s: true division, raising on a zero divisor. *)
Definition truediv (a b : Z) : Outcome Q :=
  if b =? 0 then Raise (ZeroDivisionError "division by zero")
  else Ok (inject_Z a / inject_Z b)%Q.

(** [f"{x:.0f}"] for [x >= 0]: the nearest integer, ties to even.  Python
    rounds the binary float; here the rational is rounded exactly. *)
Definition format_0f (x : Q) : string :=
  let n := Qfloor x in
  let nearest :=
    match Qcompare (x - inject_Z n) (1 # 2) with
    | Lt => n
    | Gt => n + 1
    | Eq => if Z.even n then n else n + 1
    end in
  Py.str_of_Z nearest.

(** [d[k] = d.get(k, 0) + 1] on a dictionary kept in insertion order. *)
Fixpoint bump (k : string) (d : list (string * Z)) : list (string * Z) :=
  match d with
  | [] => [(k, 1)]
  | (k', v) :: d' =>
      if String.eqb k k' then (k', v + 1) :: d' else (k', v) :: bump k d'
  end.

(** [sorted(d.items())]: by key, the keys being distinct. *)
Fixpoint insert_by_key (x : string * Z) (l : list (string * Z))
  : list (string * Z) :=
  match l with
  | [] => [x]
  | y :: l' =>
      if String.ltb x.1 y.1 then x :: y :: l' else y :: insert_by_key x l'
  end.

Definition sorted_items (d : list (string * Z)) : list (string * Z) :=
  fold_left (λ acc x, insert_by_key x acc) d [].

(** [sorted(d.items(), key=lambda x: x[1], reverse=True)]: by count, largest
    first, equal counts in the order of the dictionary. *)
Fixpoint insert_by_count (x : string * Z) (l : list (string * Z))
  : list (string * Z) :=
  match l with
  | [] => [x]
  | y :: l' =>
      if y.2 <? x.2 then x :: y :: l' else y :: insert_by_count x l'
  end.

Definition sorted_by_count (d : list (string * Z)) : list (string * Z) :=
  fold_left (λ acc x, insert_by_count x acc) d [].

Definition count_state (s : ProcessingState) (results : list ProcessingResult)
  : Z :=
  Z.of_nat (length (List.filter (λ r, bool_decide (state r = s)) results)).

Definition oa_counts (results : list ProcessingResult) : list (string * Z) :=
  fold_left
    (λ d r,
       match metadata r ≫= oa_status with
       | Some c => bump (OAColor_value c) d
       | None => d
       end)
    results [].

Definition journal_counts (results : list ProcessingResult)
  : list (string * Z) :=
  fold_left
    (λ d r,
       match metadata r ≫= journal with
       | Some j => if Py.truthy j then bump j d else d
       | None => d
       end)
    results [].

(** [completed / total * 100] *)
Definition success_rate (results : list ProcessingResult) : Outcome Q :=
  match truediv (count_state COMPLETED results)
                (Z.of_nat (length results)) with
  | Ok q => Ok (q * 100)%Q
  | Raise e => Raise e
  end.

Definition newline : string := String "010"%char EmptyString.

Definition generate_report (results : list ProcessingResult) : Outcome string :=
  let total := Z.of_nat (length results) in
  if total =? 0 then Ok "No results to report."
  else
    let completed := count_state COMPLETED results in
    let failed := count_state FAILED results in
    match success_rate results with
    | Raise e => Raise e
    | Ok rate =>
        let lines :=
          ["Academic Paper Search Report";
           "========================================";
           "Total processed: " +:+ Py.str_of_Z total;
           "Completed:       " +:+ Py.str_of_Z completed;
           "Failed:          " +:+ Py.str_of_Z failed;
           "Success rate:    " +:+ format_0f rate +:+ "%";
           EmptyString;
           "Open Access Breakdown:"]
          ++ map (λ kv, "  " +:+ kv.1 +:+ ": " +:+ Py.str_of_Z kv.2)
                 (sorted_items (oa_counts results))
          ++ match journal_counts results with
             | [] => []
             | jc =>
                 [EmptyString; "Top Journals:"]
                 ++ map (λ kv, "  " +:+ kv.1 +:+ ": " +:+ Py.str_of_Z kv.2)
                        (firstn 10 (sorted_by_count jc))
             end in
        Ok (Py.join newline lines)
    end.

(** ** Properties and sample inputs the theorems are stated with *)

(** The six values an OA status may take. *)
Definition oa_status_values : list string :=
  ["gold"; "green"; "hybrid"; "bronze"; "closed"; "unknown"].

(** The invariant of a record: a status, when present, is one of the six,
    and a closed record has no OA location. *)
Definition oa_invariant (m : PaperMetadata) : Prop :=
  (∀ c, oa_status m = Some c → OAColor_value c ∈ oa_status_values)
  ∧ (oa_status m = Some CLOSED → oa_url m = None).

Definition results_invariant (rs : list ProcessingResult) : Prop :=
  ∀ r m, r ∈ rs → metadata r = Some m → oa_invariant m.

(** One successful run of [search_merge], by what the three providers
    returned in it: [A] from arXiv, [C] from Crossref, [O] from OpenAlex, each
    loop running from the variables the one before left. *)
Definition search_run (env : Env) (config : Config) (query : string)
    (max_results : Z) (w : World) (A : list PaperMetadata)
    (C : list CrossrefItem) (O : list OpenAlexWork)
    (merged : list ProcessingResult) (w' : World) : Prop :=
  let per_source := Z.max (max_results `div` 3) 5 in
  ∃ w0 w1 s1 w2 w3 s2 w4 w5 s3,
    log INFO ("Ad-hoc search: " +:+ query) w = (Ok (), w0)
    ∧ arxiv_search env config query per_source w0 = (Ok A, w1)
    ∧ for_each arxiv_step A ([], ∅) w1 = (Ok s1, w2)
    ∧ crossref_search env config query per_source w2 = (Ok C, w3)
    ∧ for_each (crossref_step env config) C s1 w3 = (Ok s2, w4)
    ∧ openalex_search env config query per_source w4 = (Ok O, w5)
    ∧ for_each (openalex_step env config) O s2 w5 = (Ok s3, w')
    ∧ merged = s3.1.

(** Every value a computation returns satisfies [P]. *)
Definition yields {A} (m : M A) (P : A → Prop) : Prop :=
  ∀ w a w', m w = (Ok a, w') → P a.

(** A result returned by [m] carries the time from [start] to the last
    reading of the clock, which [m] itself takes. *)
Definition timed (env : Env) (start : Q) (m : M ProcessingResult) : Prop :=
  ∀ w r w', m w = (Ok r, w') →
    (ticks w < ticks w')%nat
    ∧ processing_time r = (clock env (Nat.pred (ticks w')) - start)%Q.

(** The result [_process_entry] builds in its [except] branch. *)
Definition failed_result (entry : string) (e : exn) (elapsed : Q)
  : ProcessingResult :=
  {| url := entry; state := FAILED; metadata := None;
     error_message := Some (exn_text e); processing_time := elapsed |}.

(** The request [openalex_lookup_doi] makes without a contact email. *)
Definition openalex_doi_request (d : string) : Request :=
  {| req_url := "https://api.openalex.org/works/doi:" +:+ d;
     req_params := [] |}.

Definition sample_crossref_item (t d : string) : CrossrefItem :=
  {| cr_title := Some [t]; cr_DOI := Some d;
     cr_author := Some [{| given := Some "Ada"; family := Some "Lovelace" |}];
     cr_published_print := Some {| date_parts := Some [[Some 2019; Some 3]] |};
     cr_published_online := None; cr_created := None;
     cr_container_title := Some ["Ore Geology Reviews"];
     cr_abstract := Some "<jats:p>Prospectivity mapping.</jats:p>" |}.

Definition sample_openalex_work (t d : string) : OpenAlexWork :=
  {| ox_title := Some t; ox_authorships := [Some "Ada Lovelace"];
     ox_publication_year := Some 2019;
     ox_source_display_name := Some "Ore Geology Reviews";
     ox_doi := Some ("https://doi.org/" +:+ d);
     ox_open_access :=
       Some {| is_oa := Some true;
               open_access_oa_url := Some "https://repo.example.org/a.pdf" |} |}.

Definition sample_arxiv_entry (n : string) : ArxivEntry :=
  {| ax_title := Some ("Preprint " +:+ n); ax_author_names := [Some "A. B."];
     ax_summary := None; ax_id := Some ("http://arxiv.org/abs/" +:+ n);
     ax_published := Some "2023-01-30T00:00:00Z" |}.

(** A run in which every provider answers: arXiv with [entries], Crossref
    and OpenAlex with [items] and [works], every single-record lookup with
    nothing, every fetch with [fetch]. *)
Definition sample_env (entries : list ArxivEntry) (items : list CrossrefItem)
    (works : list OpenAlexWork) (fetch : FetchReply) : Env :=
  {| clock := λ n, inject_Z (Z.of_nat n);
     arxiv_api := λ _ _, Body entries;
     crossref_works_api := λ _ _, Body items;
     crossref_work_api := λ _ _, Body (head items);
     unpaywall_api := λ _ _, Body None;
     openalex_works_api := λ _ _, Body works;
     openalex_work_api := λ _ _, Body None;
     core_api := λ _ _, Body [];
     pdf_host := λ _ _, fetch;
     read_text := λ _, None |}.

(** The default configuration: no contact email. *)
Definition sample_config : Config :=
  {| contact_email := EmptyString; rate_limit_per_second := 1;
     core_api_key := None; output_dir := "results" |}.

Definition sample_metadata (t : string) (d u : option string) : PaperMetadata :=
  {| title := t; authors := []; doi := d; arxiv_id := None;
     publication_year := None; journal := None; abstract := None;
     keywords := []; oa_status := None; oa_url := u; license := None |}.

Definition sample_result (m : PaperMetadata) : ProcessingResult :=
  {| url := doi_url m; state := state_of m; metadata := Some m;
     error_message := None; processing_time := 0 |}.

(** Every character of [s] satisfies [p]. *)
Fixpoint all_chars (p : ascii → bool) (s : string) : bool :=
  match s with
  | EmptyString => true
  | String c s' => p c && all_chars p s'
  end.

(** The first lines of a report on a non-empty result set. *)
Definition report_head (results : list ProcessingResult) (rate : Q)
  : list string :=
  ["Academic Paper Search Report";
   "========================================";
   "Total processed: " +:+ Py.str_of_Z (Z.of_nat (length results));
   "Completed:       " +:+ Py.str_of_Z (count_state COMPLETED results);
   "Failed:          " +:+ Py.str_of_Z (count_state FAILED results);
   "Success rate:    " +:+ format_0f rate +:+ "%"].

(** A Crossref record of a figure, and a run in which Crossref returns it
    after an article. *)
Definition figure_item : CrossrefItem :=
  sample_crossref_item "Figure 3" "10.7717/peerj.1234/fig-3".

Definition figure_env : Env :=
  sample_env [] [sample_crossref_item "Ore deposits" "10.1016/j.x.1";
                 figure_item] []
             (FetchRaised (RequestException "unreachable")).

(** The fetch [download_step] makes for a record. *)
Definition fetch_request (m : PaperMetadata) : Request :=
  {| req_url := default EmptyString (oa_url m); req_params := [] |}.

Definition not_found : PdfResponse :=
  {| status_code := 404; content_type := Some "text/html";
     chunks := ["<html>Not Found</html>"]; stream_error := None |}.

(** *** Shapes of the text [parse_text] reads *)

Definition nonspace (c : ascii) : bool := negb (Py.is_space c).

Fixpoint last_char (s : string) : option ascii :=
  match s with
  | EmptyString => None
  | String c s' =>
      match last_char s' with
      | None => Some c
      | Some c' => Some c'
      end
  end.

(** [s] is empty or ends with a character outside [q]. *)
Definition bounded_before (q : ascii → bool) (s : string) : Prop :=
  match last_char s with
  | None => True
  | Some c => q c = false
  end.

(** [s] is empty or starts with a character outside [q]. *)
Definition bounded_after (q : ascii → bool) (s : string) : Prop :=
  match s with
  | EmptyString => True
  | String c _ => q c = false
  end.

(** A DOI-shaped string: [10.], four to nine digits, a slash, and a
    non-empty run without white space. *)
Definition doi_shaped (d : string) : Prop :=
  ∃ digits body,
    d = "10." +:+ digits +:+ "/" +:+ body
    ∧ all_chars Py.is_digit digits = true
    ∧ (4 ≤ String.length digits ≤ 9)%nat
    ∧ body ≠ EmptyString
    ∧ all_chars nonspace body = true.

(** An http(s) URL: the scheme, [://], and a non-empty run without white
    space, angle brackets or double quotes. *)
Definition url_shaped (u : string) : Prop :=
  ∃ scheme body,
    scheme ∈ ["http"; "https"]
    ∧ u = scheme +:+ "://" +:+ body
    ∧ body ≠ EmptyString
    ∧ all_chars Re.is_url_char body = true.

(** Deduplication that keeps first-seen order, as the specification words
    it: each entry stays where it first occurs and its later occurrences are
    dropped. *)
Fixpoint first_seen (l : list string) : list string :=
  match l with
  | [] => []
  | x :: l' => x :: filter (λ y, y ≠ x) (first_seen l')
  end.

(** The text of the specification's example, and the resolver URL of its DOI. *)
Definition sample_text : string :=
  "10.1016/j.oregeorev.2018.12.018" +:+ newline
  +:+ "https://arxiv.org/abs/1901.01234" +:+ newline
  +:+ "again: 10.1016/j.oregeorev.2018.12.018, and https://doi.org/10.1016/j.oregeorev.2018.12.018".

Definition sample_resolver_url : string :=
  "https://doi.org/10.1016/j.oregeorev.2018.12.018".

(** *** Deduplication across providers *)

Inductive Provider := Arxiv | Crossref | OpenAlex.

Global Instance Provider_eq_dec : EqDecision Provider.
Proof. solve_decision. Defined.

(** The key each loop of [search_ad_hoc] looks up in [seen_keys] for a
    record, [None] when the loop neither looks one up nor adds one. *)
Definition dedup_key (c : Provider * PaperMetadata) : option string :=
  match c.1 with
  | Arxiv => Some (Py.or_str (arxiv_id c.2) (title c.2))
  | Crossref => if Py.truthy_opt (doi c.2) then doi c.2 else None
  | OpenAlex => Some (Py.or_str (doi c.2) (title c.2))
  end.

(** The dedup key as the specification derives it, the same for every
    provider: the DOI if present, else the arXiv ID if present, else the
    title. *)
Definition claimed_dedup_key (m : PaperMetadata) : string :=
  Py.or_str (doi m) (Py.or_str (arxiv_id m) (title m)).

(** The records of one run as normalised, in the order the loops meet them. *)
Definition candidates (A : list PaperMetadata) (C : list CrossrefItem)
    (O : list OpenAlexWork) : list (Provider * PaperMetadata) :=
  map (pair Arxiv) A
  ++ map (pair Crossref) (omap crossref_to_metadata C)
  ++ map (pair OpenAlex) (map openalex_to_metadata O).

(** Merging as the specification words it: two records sharing a key are
    the same work and only the first encountered is kept; a record without a
    key is always kept.  [earlier] holds the keys met so far. *)
Fixpoint keep_first (earlier : list string)
    (l : list (Provider * PaperMetadata)) : list (Provider * PaperMetadata) :=
  match l with
  | [] => []
  | x :: l' =>
      match dedup_key x with
      | None => x :: keep_first earlier l'
      | Some k =>
          if bool_decide (k ∈ earlier) then keep_first earlier l'
          else x :: keep_first (k :: earlier) l'
      end
  end.

(** The keys met once [l] has been gone through. *)
Fixpoint keys_after (earlier : list string)
    (l : list (Provider * PaperMetadata)) : list string :=
  match l with
  | [] => earlier
  | x :: l' =>
      match dedup_key x with
      | None => keys_after earlier l'
      | Some k =>
          if bool_decide (k ∈ earlier) then keys_after earlier l'
          else keys_after (k :: earlier) l'
      end
  end.

(** The result [search_ad_hoc] appends for a Crossref or OpenAlex record. *)
Definition search_result (m : PaperMetadata) : ProcessingResult :=
  {| url := doi_url m; state := state_of m; metadata := Some m;
     error_message := None; processing_time := 0 |}.

(** The result [search_ad_hoc] appends for an arXiv record. *)
Definition arxiv_result (m : PaperMetadata) : ProcessingResult :=
  {| url := if Py.truthy_opt (arxiv_id m)
            then "https://arxiv.org/abs/" +:+ default EmptyString (arxiv_id m)
            else EmptyString;
     state := COMPLETED; metadata := Some m;
     error_message := None; processing_time := 0 |}.

(** [m'] is [m] after OA resolution in some world. *)
Definition enriched (env : Env) (config : Config) (m m' : PaperMetadata)
  : Prop :=
  ∃ w w', _enrich_oa env config (Some m) w = (Ok m', w').

(** [r] is the result the loop of provider [c.1] builds from the record
    [c.2]. *)
Definition derived (env : Env) (config : Config)
    (c : Provider * PaperMetadata) (r : ProcessingResult) : Prop :=
  match c.1 with
  | Arxiv => r = arxiv_result c.2
  | Crossref => ∃ m, enriched env config c.2 m ∧ r = search_result m
  | OpenAlex =>
      ∃ m, (if Py.truthy_opt (doi c.2) && negb (Py.truthy_opt (oa_url c.2))
            then enriched env config c.2 m else m = c.2)
           ∧ r = search_result m
  end.

(** The result holds a record with the DOI [d]. *)
Definition has_doi (d : string) (r : ProcessingResult) : Prop :=
  metadata r ≫= doi = Some d.

Global Instance has_doi_dec d r : Decision (has_doi d r).
Proof. unfold has_doi. apply _. Defined.

(** The set [seen_keys] holds the keys met so far. *)
Definition same_keys (seen : gset string) (earlier : list string) : Prop :=
  ∀ k, k ∈ seen ↔ k ∈ earlier.

(** An earlier candidate has the key of [x]. *)
Definition same_key_earlier (l1 : list (Provider * PaperMetadata))
    (x : Provider * PaperMetadata) : Prop :=
  ∃ y k, y ∈ l1 ∧ dedup_key y = Some k ∧ dedup_key x = Some k.

(** A run in which arXiv returns five preprints and Crossref and OpenAlex
    both return the work with the DOI [10.1016/j.x.1]. *)
Definition five_entries : list ArxivEntry :=
  map sample_arxiv_entry ["2301.00001"; "2301.00002"; "2301.00003";
                          "2301.00004"; "2301.00005"].

Definition shared_doi : string := "10.1016/j.x.1".

Definition shared_doi_env : Env :=
  sample_env five_entries
    [sample_crossref_item "Ore deposits" shared_doi]
    [sample_openalex_work "Ore deposits" shared_doi]
    (FetchRaised (RequestException "unreachable")).

(** Two Crossref records without a DOI that carry the same title. *)
Definition untitled_item : CrossrefItem :=
  {| cr_title := Some ["Supplementary data"]; cr_DOI := None;
     cr_author := None; cr_published_print := None;
     cr_published_online := None; cr_created := None;
     cr_container_title := None; cr_abstract := None |}.

Definition untitled_env : Env :=
  sample_env [] [untitled_item; untitled_item] []
    (FetchRaised (RequestException "unreachable")).

(** *** The requests of the client *)

Definition arxiv_request (q : string) (n : Z) : Request :=
  {| req_url := "http://export.arxiv.org/api/query";
     req_params := [("search_query", "all:" +:+ q); ("start", "0");
                    ("max_results", Py.str_of_Z n); ("sortBy", "relevance");
                    ("sortOrder", "descending")] |}.

Definition crossref_works_request (config : Config) (q : string) (n : Z)
  : Request :=
  {| req_url := "https://api.crossref.org/works";
     req_params := [("query", q); ("rows", Py.str_of_Z n);
                    ("sort", "relevance")] ++ mailto config |}.

Definition crossref_work_request (config : Config) (d : string) : Request :=
  {| req_url := "https://api.crossref.org/works/" +:+ d;
     req_params := mailto config |}.

Definition unpaywall_request (config : Config) (d : string) : Request :=
  {| req_url := "https://api.unpaywall.org/v2/" +:+ d;
     req_params := [("email", contact_email config)] |}.

Definition openalex_works_request (config : Config) (q : string) (n : Z)
  : Request :=
  {| req_url := "https://api.openalex.org/works";
     req_params := [("search", q); ("per_page", Py.str_of_Z (Z.min n 200))]
                   ++ mailto config |}.

Definition openalex_work_request (config : Config) (d : string) : Request :=
  {| req_url := "https://api.openalex.org/works/doi:" +:+ d;
     req_params := mailto config |}.

(** The warning [_get] logs for a refused request. *)
Definition request_failed (r : Request) (text : string) : LogLevel * string :=
  (WARNING, "Request failed for " +:+ req_url r +:+ ": " +:+ text).

(** A computation that leaves the files of the output directory alone,
    whatever its outcome. *)
Definition keeps_files {A} (m : M A) : Prop :=
  ∀ w, files (m w).2 = files w.

(** The characters a tag may hold between its brackets: [[^>]]. *)
Definition not_gt (c : ascii) : bool := negb (Py.code c =? 62)%N.

(** A configuration with a contact email. *)
Definition mail_config : Config :=
  {| contact_email := "ada@example.org"; rate_limit_per_second := 1;
     core_api_key := None; output_dir := "results" |}.

(** A run in which the searches find nothing and every lookup answers, the
    Crossref lookup with [item], Unpaywall with [data], the OpenAlex lookup
    with [work]; the paper list reads as [text] and every fetch is answered
    with [fetch]. *)
Definition lookup_env (item : option CrossrefItem)
    (data : option UnpaywallData) (work : option OpenAlexWork)
    (text : option string) (fetch : FetchReply) : Env :=
  {| clock := λ n, inject_Z (Z.of_nat n);
     arxiv_api := λ _ _, Body [];
     crossref_works_api := λ _ _, Body [];
     crossref_work_api := λ _ _, Body item;
     unpaywall_api := λ _ _, Body data;
     openalex_works_api := λ _ _, Body [];
     openalex_work_api := λ _ _, Body work;
     core_api := λ _ _, Body [];
     pdf_host := λ _ _, fetch;
     read_text := λ _, text |}.

Definition gold_answer : UnpaywallData :=
  {| up_is_oa := Some true; up_oa_status := Some "gold";
     up_best_oa_location :=
       Some {| url_for_pdf := Some "https://publisher.example.org/a.pdf";
               loc_url := Some "https://publisher.example.org/a";
               loc_license := Some "cc-by" |} |}.

(** What the OpenAlex fallback of [_enrich_oa] makes of a work. *)
Definition openalex_verdict (m : PaperMetadata) (work : OpenAlexWork)
  : PaperMetadata :=
  if truthy_bool (ox_open_access work ≫= is_oa)
  then with_oa m (Some GREEN) (ox_open_access work ≫= open_access_oa_url)
               (license m)
  else m.

(** The shape of a result of a search: it carries a record and no error, no
    time is taken, it is never failed, it is completed unless the record has
    no OA location, and its address is empty or names the arXiv identifier
    or the DOI of the record. *)
Definition search_shaped (r : ProcessingResult) : Prop :=
  ∃ m, metadata r = Some m ∧ error_message r = None
    ∧ processing_time r = 0%Q
    ∧ (state r = COMPLETED
       ∨ state r = METADATA_EXTRACTED ∧ Py.truthy_opt (oa_url m) = false)
    ∧ (url r = EmptyString
       ∨ (∃ i, arxiv_id m = Some i ∧ url r = "https://arxiv.org/abs/" +:+ i)
       ∨ (∃ d, doi m = Some d ∧ url r = "https://doi.org/" +:+ d)).

(** A run in which no service can be reached. *)
Definition down_env (text : string) : Env :=
  {| clock := λ n, inject_Z (Z.of_nat n);
     arxiv_api := λ _ _, Refused text;
     crossref_works_api := λ _ _, Refused text;
     crossref_work_api := λ _ _, Refused text;
     unpaywall_api := λ _ _, Refused text;
     openalex_works_api := λ _ _, Refused text;
     openalex_work_api := λ _ _, Refused text;
     core_api := λ _ _, Refused text;
     pdf_host := λ _ _, FetchRaised (RequestException text);
     read_text := λ _, None |}.

(** What [search_ad_hoc] asks of each provider for [max_results]. *)
Definition per_source (max_results : Z) : Z := Z.max (max_results `div` 3) 5.

(** The shape of the result of processing the entry [entry] of a paper
    list: its address is the entry or a [doi.org] address; a failed result
    carries an error and no record; any other result is completed or has its
    metadata extracted, and carries a record and no error, the record having
    an OA location exactly when the result is completed. *)
Definition entry_shaped (entry : string) (r : ProcessingResult) : Prop :=
  (url r = entry ∨ ∃ d, url r = "https://doi.org/" +:+ d)
  ∧ match state r with
    | FAILED => metadata r = None ∧ is_Some (error_message r)
    | COMPLETED =>
        ∃ m, metadata r = Some m ∧ error_message r = None
             ∧ Py.truthy_opt (oa_url m) = true
    | METADATA_EXTRACTED =>
        ∃ m, metadata r = Some m ∧ error_message r = None
             ∧ Py.truthy_opt (oa_url m) = false
    | _ => False
    end.

(** The message of the [AttributeError] raised on reading [meta.doi] of a
    record that is [None]. *)
Definition no_doi_attribute : string :=
  "'NoneType' object has no attribute 'doi'".

(** The bytes of a streamed body: its chunks end to end. *)
Definition concat_chunks (l : list string) : string :=
  foldr String.append EmptyString l.

(** The checks [download_pdfs] makes on a response before it writes it. *)
Definition accepted (u : string) (resp : PdfResponse) : bool :=
  (status_code resp =? 200)
  && (Py.contains "pdf" (default EmptyString (content_type resp))
      || Py.endswith u ".pdf" || Py.contains "arxiv.org/pdf" u).

(** The result has an OA location and the file named after its record is in
    the directory [fs]. *)
Definition downloaded (fs : gmap string string) (r : ProcessingResult)
  : bool :=
  match metadata r with
  | Some m =>
      Py.truthy_opt (oa_url m) && bool_decide (is_Some (fs !! safe_filename m))
  | None => false
  end.

(** The characters [safe_filename] keeps of a title. *)
Definition is_safe_char (c : ascii) : bool :=
  Py.is_word c || Py.is_space c || (Py.code c =? 45)%N.

(** A response that streams a PDF in two chunks. *)
Definition pdf_response : PdfResponse :=
  {| status_code := 200; content_type := Some "application/pdf";
     chunks := ["%PDF-1.4 "; "%%EOF"]; stream_error := None |}.

(** A response whose stream breaks after the first chunk. *)
Definition broken_response : PdfResponse :=
  {| status_code := 200; content_type := Some "application/pdf";
     chunks := ["%PDF-1.4 "];
     stream_error := Some (RequestException "connection reset") |}.

(** [d.get(k, 0)] on a dictionary kept in insertion order. *)
Fixpoint get_count (k : string) (d : list (string * Z)) : Z :=
  match d with
  | [] => 0
  | (k', v) :: d' => if String.eqb k k' then v else get_count k d'
  end.

(** The number of results whose key, as [key] reads it, is [k]. *)
Definition tally (key : ProcessingResult → option string) (k : string)
    (results : list ProcessingResult) : Z :=
  Z.of_nat (length (List.filter (λ r, bool_decide (key r = Some k)) results)).

(** The key under which the report counts a result in the OA breakdown. *)
Definition oa_key (r : ProcessingResult) : option string :=
  OAColor_value <$> (metadata r ≫= oa_status).

(** The key under which the report counts a result among the journals. *)
Definition journal_key (r : ProcessingResult) : option string :=
  match metadata r ≫= journal with
  | Some j => if Py.truthy j then Some j else None
  | None => None
  end.

(** Three results in two journals, for the report. *)
Definition journal_results : list ProcessingResult :=
  map (λ j, sample_result
              {| title := "Paper"; authors := []; doi := None;
                 arxiv_id := None; publication_year := None;
                 journal := Some j; abstract := None; keywords := [];
                 oa_status := Some GREEN; oa_url := Some "https://x.org/a.pdf";
                 license := None |})
      ["Ore Geology Reviews"; "Economic Geology"; "Ore Geology Reviews"].

(** The rows of the two tables of the report. *)
Definition oa_rows (results : list ProcessingResult) : list (string * Z) :=
  sorted_items (oa_counts results).

Definition journal_rows (results : list ProcessingResult)
  : list (string * Z) :=
  firstn 10 (sorted_by_count (journal_counts results)).

(** [f"{x:.0f}"] as a number. *)
Definition round_0f (x : Q) : Z :=
  let n := Qfloor x in
  match Qcompare (x - inject_Z n) (1 # 2) with
  | Lt => n
  | Gt => n + 1
  | Eq => if Z.even n then n else n + 1
  end.

(** The query [core_search] sends: a query of several words that neither
    starts with a double quote nor holds a colon is sent as a phrase with a
    proximity of ten. *)
Definition core_query (query : string) : string :=
  if Py.contains " " query
     && negb (Py.startswith query quote || Py.contains ":" query)
  then quote +:+ query +:+ quote +:+ "~10" else query.

Definition core_request (query : string) (n : Z) : Request :=
  {| req_url := "https://api.core.ac.uk/v3/search/works";
     req_params := [("q", core_query query);
                    ("limit", Py.str_of_Z (Z.min n 100));
                    ("sort", "relevance")] |}.

Definition core_config (key : string) : Config :=
  {| contact_email := EmptyString; rate_limit_per_second := 1;
     core_api_key := Some key; output_dir := "results" |}.

(** ** llm.py: cleaning the answer of a language model *)

(** The text before and the text after the first occurrence of [sep]. *)
Fixpoint split1 (sep s : string) : option (string * string) :=
  if String.prefix sep s
  then Some (EmptyString, Py.drop (String.length sep) s)
  else
    match s with
    | EmptyString => None
    | String c s' =>
        match split1 sep s' with
        | Some (a, b) => Some (String c a, b)
        | None => None
        end
    end.

(** [s.split(sep, 1)] for a non-empty [sep]. *)
Definition split_once (sep s : string) : list string :=
  match split1 sep s with
  | Some (a, b) => [a; b]
  | None => [s]
  end.

Definition fence : string := "```".
Definition json_fence : string := "```json".

(** [_clean_json_response]; indexing a list out of range gives [None]. *)
Definition _clean_json_response (text : string) : option string :=
  let text := Py.strip text in
  text ←
    (if Py.contains json_fence text then
       rest ← split_once json_fence text !! 1%nat;
       split_once fence rest !! 0%nat
     else if Py.contains fence text then
       rest ← split_once fence text !! 1%nat;
       split_once fence rest !! 0%nat
     else Some text);
  Some (Py.strip text).

Definition not_backtick (c : ascii) : bool := negb (Ascii.eqb c "`").

(** A run in which every service answers with a body that does not parse. *)
Definition garbled_env (text : string) : Env :=
  {| clock := λ n, inject_Z (Z.of_nat n);
     arxiv_api := λ _ _, Malformed text;
     crossref_works_api := λ _ _, Malformed text;
     crossref_work_api := λ _ _, Malformed text;
     unpaywall_api := λ _ _, Malformed text;
     openalex_works_api := λ _ _, Malformed text;
     openalex_work_api := λ _ _, Malformed text;
     core_api := λ _ _, Malformed text;
     pdf_host := λ _ _, FetchRaised (RequestException text);
     read_text := λ _, None |}.

(** ** The model on sample inputs *)

Example findall_doi_ex :
  Re.findall Re.doi_pattern "see 10.1016/j.oregeorev.2018.12.018, and 10.1/x"
  = ["10.1016/j.oregeorev.2018.12.018,"].
Proof. reflexivity. Qed.

Example rstrip_ex : Py.rstrip ".,;)" "10.1016/j.x.018.)," = "10.1016/j.x.018".
Proof. reflexivity. Qed.

Example search_component_ex :
  Re.search Re.component_pattern "10.7717/peerj.1234/fig-3" = Some "/fig-3".
Proof. reflexivity. Qed.

Example replace_ex :
  Py.replace "http://arxiv.org/abs/1901.01234" "/abs/" "/pdf/"
  = "http://arxiv.org/pdf/1901.01234".
Proof. reflexivity. Qed.

Example crossref_figure_ex :
  crossref_to_metadata
    {| cr_title := Some ["Figure 3"]; cr_DOI := Some "10.7717/peerj.1234/fig-3";
       cr_author := None; cr_published_print := None;
       cr_published_online := None; cr_created := None;
       cr_container_title := None; cr_abstract := None |} = None.
Proof. reflexivity. Qed.

Example arxiv_entry_ex :
  let m := arxiv_entry_to_metadata
    {| ax_title := Some "Diffusion models"; ax_author_names := [Some "A. B."];
       ax_summary := None; ax_id := Some "http://arxiv.org/abs/2301.12345v1";
       ax_published := Some "2023-01-30T00:00:00Z" |} in
  arxiv_id m = Some "2301.12345v1"
  ∧ oa_url m = Some "http://arxiv.org/pdf/2301.12345v1"
  ∧ publication_year m = Some 2023.
Proof. repeat split; reflexivity. Qed.

(** ** Running computations *)

Lemma bind_run {A B} (m : M A) (f : A → M B) (w : World) :
  (m ≫= f) w
  = match m w with
    | (Ok a, w') => f a w'
    | (Raise e, w') => (Raise e, w')
    end.
Proof. reflexivity. Qed.

Lemma for_each_app {A S} (body : A → S → M S) (l1 l2 : list A) (s : S) w :
  for_each body (l1 ++ l2) s w
  = match for_each body l1 s w with
    | (Ok s', w') => for_each body l2 s' w'
    | (Raise e, w') => (Raise e, w')
    end.
Proof.
  revert s w. induction l1 as [|x l1 IH]; intros s w; simpl; [done|].
  rewrite !bind_run. destruct (body x s w) as [[s'|e] w']; [apply IH|done].
Qed.

(** The clock is only ever read forwards: no computation lowers the number
    of readings taken. *)
Definition forwards {A} (m : M A) : Prop :=
  ∀ w, (ticks w ≤ ticks (m w).2)%nat.

Lemma forwards_ret {A} (a : A) : forwards (mret a).
Proof. intros w. simpl. lia. Qed.

Lemma forwards_raise {A} (e : exn) : forwards (raise (A := A) e).
Proof. intros w. simpl. lia. Qed.

Lemma forwards_bind {A B} (m : M A) (f : A → M B) :
  forwards m → (∀ a, forwards (f a)) → forwards (m ≫= f).
Proof.
  intros Hm Hf w. rewrite bind_run. specialize (Hm w).
  destruct (m w) as [[a|e] w']; simpl in *; [|done].
  specialize (Hf a w'). lia.
Qed.

Lemma forwards_try {A} (m : M A) (h : exn → M A) :
  forwards m → (∀ e, forwards (h e)) → forwards (try_except m h).
Proof.
  intros Hm Hh w. unfold try_except. specialize (Hm w).
  destruct (m w) as [[a|e] w']; simpl in *; [done|].
  specialize (Hh e w'). lia.
Qed.

Lemma forwards_for_each {A S} (body : A → S → M S) (l : list A) (s : S) :
  (∀ x s, forwards (body x s)) → forwards (for_each body l s).
Proof.
  intros Hb. revert s. induction l as [|x l IH]; intros s; simpl.
  - apply forwards_ret.
  - apply forwards_bind; [apply Hb|apply IH].
Qed.

Lemma forwards_log lvl msg : forwards (log lvl msg).
Proof. intros w. simpl. lia. Qed.

Lemma forwards_record_request r : forwards (record_request r).
Proof. intros w. simpl. lia. Qed.

Lemma forwards_sleep d : forwards (sleep d).
Proof. intros w. simpl. lia. Qed.

Lemma forwards_set_last t : forwards (set_last_request_time t).
Proof. intros w. simpl. lia. Qed.

Lemma forwards_set_files fs : forwards (set_files fs).
Proof. intros w. simpl. lia. Qed.

Lemma forwards_get_world : forwards get_world.
Proof. intros w. simpl. lia. Qed.

Lemma forwards_time env : forwards (time_time env).
Proof. intros w. simpl. lia. Qed.

Create HintDb forwards.
#[export] Hint Resolve forwards_ret forwards_raise forwards_log
  forwards_record_request forwards_sleep forwards_set_last forwards_set_files
  forwards_get_world forwards_time : forwards.

(** Peels binds, branches and matches, and closes the leaves with the hint
    base. *)
Ltac forwards_tac :=
  repeat first
    [ progress (auto with forwards)
    | apply forwards_bind; [|intros ?]
    | apply forwards_try; [|intros ?]
    | apply forwards_for_each; intros ? ?
    | match goal with
      | |- forwards (if ?b then _ else _) => destruct b
      | |- forwards (match ?x with _ => _ end) => destruct x
      | |- forwards (let '(_, _) := ?x in _) => destruct x
      end ].

Section Effects.

Variable env : Env.
Variable config : Config.

Lemma throttle_spec w :
  ∃ w', _throttle env config w = (Ok (), w')
    ∧ requests w' = requests w ∧ logs w' = logs w
    ∧ files w' = files w ∧ ticks w' = S (S (ticks w)).
Proof.
  unfold _throttle, mbind, M_bind, time_time, get_world. simpl.
  destruct (negb _); simpl; eauto 10.
Qed.

(** One call of [_get]: one request is recorded, the clock is read twice,
    no file is touched, and only a refusal is logged. *)
Lemma get_spec {T} (api : list Request → Request → Reply T) u params w :
  ∃ w' r, _get env config api u params w = (Ok r, w')
    ∧ requests w' = requests w ++ [{| req_url := u; req_params := params |}]
    ∧ files w' = files w ∧ ticks w' = S (S (ticks w))
    ∧ match api (requests w) {| req_url := u; req_params := params |} with
      | Refused text =>
          r = None
          ∧ logs w' = logs w ++ [(WARNING, "Request failed for " +:+ u
                                           +:+ ": " +:+ text)]
      | Malformed text => r = Some (Unparsable text) ∧ logs w' = logs w
      | Body v => r = Some (Parsed v) ∧ logs w' = logs w
      end.
Proof.
  unfold _get. unfold mbind at 1. unfold M_bind at 1.
  destruct (throttle_spec w) as (w1 & -> & Hr & Hl & Hf & Ht).
  unfold mbind, M_bind, get_world, record_request. simpl.
  rewrite Hr.
  destruct (api _ _); simpl; eauto 10.
  all: do 2 eexists; split; [reflexivity|]; simpl; rewrite ?Hr, ?Hl; auto.
Qed.

Lemma forwards_throttle : forwards (_throttle env config).
Proof. unfold _throttle. forwards_tac. Qed.

Lemma forwards_get {T} (api : list Request → Request → Reply T) u params :
  forwards (_get env config api u params).
Proof. unfold _get. pose proof forwards_throttle. forwards_tac. Qed.

Lemma forwards_json {T} (resp : Response T) : forwards (json resp).
Proof. unfold json. forwards_tac. Qed.

Hint Resolve forwards_throttle forwards_get forwards_json : forwards.

Lemma forwards_crossref_lookup_doi d :
  forwards (crossref_lookup_doi env config d).
Proof. unfold crossref_lookup_doi. forwards_tac. Qed.

Lemma forwards_unpaywall_check d : forwards (unpaywall_check env config d).
Proof. unfold unpaywall_check. forwards_tac. Qed.

Lemma forwards_openalex_lookup_doi d :
  forwards (openalex_lookup_doi env config d).
Proof. unfold openalex_lookup_doi. forwards_tac. Qed.

Lemma forwards_attribute meta name : forwards (attribute meta name).
Proof. unfold attribute. forwards_tac. Qed.

Hint Resolve forwards_crossref_lookup_doi forwards_unpaywall_check
  forwards_openalex_lookup_doi forwards_attribute : forwards.

Lemma forwards_enrich_oa meta : forwards (_enrich_oa env config meta).
Proof. unfold _enrich_oa. forwards_tac. Qed.

End Effects.

#[export] Hint Resolve forwards_throttle forwards_get forwards_json
  forwards_crossref_lookup_doi forwards_unpaywall_check
  forwards_openalex_lookup_doi forwards_attribute forwards_enrich_oa : forwards.

(** ** Inversion of successful runs *)

Lemma bind_ok_inv {A B} (m : M A) (f : A → M B) w b w' :
  (m ≫= f) w = (Ok b, w') →
  ∃ a w1, m w = (Ok a, w1) ∧ f a w1 = (Ok b, w').
Proof.
  rewrite bind_run. destruct (m w) as [[a|e] w1]; [eauto|discriminate].
Qed.

Lemma ret_ok_inv {A} (a b : A) w w' :
  (mret a : M A) w = (Ok b, w') → a = b ∧ w = w'.
Proof. by intros [= -> ->]. Qed.

(** A property of the loop variables that every iteration keeps holds when
    the loop ends. *)
Lemma for_each_invariant {A S} (I : S → Prop) (body : A → S → M S) l :
  (∀ x s w s' w', x ∈ l → I s → body x s w = (Ok s', w') → I s') →
  ∀ s w s' w', I s → for_each body l s w = (Ok s', w') → I s'.
Proof.
  induction l as [|x l IH]; intros Hb s w s' w' Hs Hrun; simpl in Hrun.
  - apply ret_ok_inv in Hrun as [-> _]. done.
  - apply bind_ok_inv in Hrun as (s1 & w1 & Hx & Hrest).
    eapply IH; [|eapply (Hb x); [left|done..]|exact Hrest].
    intros ??????; eapply Hb; by right.
Qed.

(** Splits a successful run at its binds. *)
Ltac ok_inv H :=
  repeat match type of H with
    | (_ ≫= _) _ = (Ok _, _) =>
        let a := fresh "a" in let w := fresh "w" in let H1 := fresh "Hrun" in
        apply bind_ok_inv in H as (a & w & H1 & H)
    end.

(** A successful merge is a run, and a run is a successful merge. *)
Lemma search_merge_run env config q n w rs w' :
  search_merge env config q n w = (Ok rs, w')
  ↔ ∃ A C O, search_run env config q n w A C O rs w'.
Proof.
  unfold search_merge, search_run. split.
  - intros H. ok_inv H. apply ret_ok_inv in H as [<- <-]. destruct a.
    do 12 eexists. split_and!; first [eassumption|reflexivity].
  - intros (A & C & O & w0 & w1 & s1 & w2 & w3 & s2 & w4 & w5 & s3
            & H0 & H1 & H2 & H3 & H4 & H5 & H6 & ->).
    unfold mbind, M_bind. rewrite H0, H1, H2, H3, H4, H5, H6. done.
Qed.

Lemma arxiv_search_records env config q n w A w' :
  arxiv_search env config q n w = (Ok A, w') →
  ∀ m, m ∈ A → ∃ entry, m = arxiv_entry_to_metadata entry.
Proof.
  unfold arxiv_search. intros H. ok_inv H.
  destruct a as [[t|entries]|]; ok_inv H; inversion H; subst;
    intros m Hin; try by apply elem_of_nil in Hin.
  apply list_elem_of_fmap in Hin as (entry & -> & _). eauto.
Qed.

(** ** OA resolution *)

Section EnrichOA.

Variable env : Env.
Variable config : Config.

Lemma enrich_oa_no_doi m w :
  Py.truthy_opt (doi m) = false → _enrich_oa env config (Some m) w = (Ok m, w).
Proof. intros H. unfold _enrich_oa. simpl. rewrite bind_run. simpl. by rewrite H. Qed.

(** Without a contact email the chain is the OpenAlex lookup alone. *)
Lemma enrich_oa_fallback_only m d w :
  contact_email config = EmptyString → doi m = Some d → Py.truthy d = true →
  ∃ w', (_enrich_oa env config (Some m) w).2 = w'
    ∧ requests w' = requests w ++ [openalex_doi_request d]
    ∧ files w' = files w
    ∧ (logs w' = logs w
       ∨ ∃ text, logs w' = logs w ++
           [(WARNING, "Request failed for " +:+ req_url (openalex_doi_request d)
                      +:+ ": " +:+ text)]).
Proof.
  intros He Hd Ht. unfold _enrich_oa. simpl. rewrite bind_run. simpl.
  rewrite Hd. simpl. rewrite Ht, He. simpl.
  unfold openalex_lookup_doi, mailto, email. rewrite He. simpl.
  rewrite !bind_run.
  destruct (get_spec env config (openalex_work_api env)
              ("https://api.openalex.org/works/doi:" +:+ d) [] w)
    as (w' & r & -> & Hreq & Hf & _ & Hreply).
  destruct (openalex_work_api env _ _) as [text|text|v];
    destruct Hreply as [-> Hl]; simpl.
  - eexists; split; [done|]. repeat split; eauto.
  - eexists; split; [done|]. repeat split; eauto.
  - destruct v as [work|]; simpl.
    + destruct (truthy_bool _); simpl; eexists; (split; [done|]);
        repeat split; eauto.
    + eexists; split; [done|]. repeat split; eauto.
Qed.

(** C2: a record without a DOI comes back unchanged and nothing is asked of
    any provider; for a record with a DOI and no contact email configured,
    [_enrich_oa] sends exactly one request, the OpenAlex lookup of that DOI:
    no request goes to Unpaywall, and [unpaywall_check] is not entered (its
    warning about the missing email is never logged). *)
Theorem enrich_oa_without_contact_email (m : PaperMetadata) (w : World) :
  (Py.truthy_opt (doi m) = false →
   _enrich_oa env config (Some m) w = (Ok m, w))
  ∧ (contact_email config = EmptyString →
     ∀ d, doi m = Some d → Py.truthy d = true →
     let w' := (_enrich_oa env config (Some m) w).2 in
     requests w' = requests w ++ [openalex_doi_request d]
     ∧ (∀ l, logs w' = logs w ++ l →
        (WARNING, "Unpaywall requires contact_email in config") ∉ l)).
Proof.
  split; [apply enrich_oa_no_doi|].
  intros He d Hd Ht.
  destruct (enrich_oa_fallback_only m d w He Hd Ht) as (w' & -> & Hr & _ & Hl).
  split; [done|]. intros l Hlog.
  destruct Hl as [Hl|[text Hl]]; rewrite Hl in Hlog.
  - rewrite <- (app_nil_r (logs w)) in Hlog at 1.
    apply app_inv_head in Hlog. subst l. apply not_elem_of_nil.
  - apply app_inv_head in Hlog. subst l.
    rewrite list_elem_of_singleton. intros [=].
Qed.

End EnrichOA.

Lemma enrich_oa_without_contact_email_witness :
  let m := sample_metadata "Ore deposits" (Some "10.1016/j.x.1") None in
  let w' := (_enrich_oa (sample_env [] [] [] (FetchRaised (RequestException "down")))
                        sample_config (Some m) initial_world).2 in
  requests w' = [openalex_doi_request "10.1016/j.x.1"]
  ∧ (∀ l, logs w' = logs initial_world ++ l →
     (WARNING, "Unpaywall requires contact_email in config") ∉ l).
Proof.
  exact (proj2 (enrich_oa_without_contact_email
                  (sample_env [] [] [] (FetchRaised (RequestException "down")))
                  sample_config
                  (sample_metadata "Ore deposits" (Some "10.1016/j.x.1") None)
                  initial_world)
               eq_refl "10.1016/j.x.1" eq_refl eq_refl).
Defined.

(** ** The OA invariant of the records *)

Lemma oa_value_listed c : OAColor_value c ∈ oa_status_values.
Proof. destruct c; unfold oa_status_values; simpl; set_solver. Qed.

Lemma oa_invariant_intro m :
  (oa_status m = Some CLOSED → oa_url m = None) → oa_invariant m.
Proof. intros H. split; [intros c _; apply oa_value_listed|done]. Qed.

Lemma status_map_not_closed s : status_map s ≠ Some CLOSED.
Proof. unfold status_map. repeat case_match; discriminate. Qed.

Lemma unpaywall_oa_info_closed data :
  info_status (unpaywall_oa_info data) = CLOSED →
  info_url (unpaywall_oa_info data) = None.
Proof.
  unfold unpaywall_oa_info. destruct (negb _); simpl; [done|].
  pose proof (status_map_not_closed (default EmptyString (up_oa_status data))).
  destruct (status_map _) as [[]|]; simpl; congruence.
Qed.

Lemma crossref_to_metadata_invariant item m :
  crossref_to_metadata item = Some m → oa_invariant m.
Proof.
  unfold crossref_to_metadata. case_bool_decide; [discriminate|].
  intros [= <-]. apply oa_invariant_intro. discriminate.
Qed.

Lemma openalex_to_metadata_invariant work :
  oa_invariant (openalex_to_metadata work).
Proof.
  apply oa_invariant_intro. unfold openalex_to_metadata. simpl.
  destruct (truthy_bool _); discriminate.
Qed.

Lemma arxiv_entry_to_metadata_invariant entry :
  oa_invariant (arxiv_entry_to_metadata entry).
Proof. apply oa_invariant_intro. discriminate. Qed.

Lemma core_item_to_metadata_invariant item :
  oa_invariant (core_item_to_metadata item).
Proof.
  apply oa_invariant_intro. unfold core_item_to_metadata. simpl.
  case_match; discriminate.
Qed.

Section Invariant.

Variable env : Env.
Variable config : Config.

(** What [_enrich_oa] can return: the record itself, the record with the
    Unpaywall answer, or the record marked green with the OpenAlex
    location. *)
Lemma enrich_oa_cases m w m' w' :
  _enrich_oa env config (Some m) w = (Ok m', w') →
  m' = m
  ∨ (∃ data, let oa := unpaywall_oa_info data in
       m' = with_oa m (Some (info_status oa)) (info_url oa) (info_license oa))
  ∨ (∃ u, m' = with_oa m (Some GREEN) u (license m)).
Proof.
  unfold _enrich_oa. simpl. rewrite bind_run. simpl.
  assert (Hfall : ∀ w,
    (openalex_lookup_doi env config (default EmptyString (doi m))
     ≫= λ oalex : option OpenAlexWork,
          match oalex with
          | Some work =>
              if truthy_bool
                   (is_oa (default {| is_oa := None; open_access_oa_url := None |}
                                   (ox_open_access work)))
              then mret (with_oa m (Some GREEN)
                           (open_access_oa_url
                              (default {| is_oa := None; open_access_oa_url := None |}
                                       (ox_open_access work)))
                           (license m))
              else mret m
          | None => mret m
          end) w = (Ok m', w') →
    m' = m ∨ ∃ u, m' = with_oa m (Some GREEN) u (license m)).
  { clear w. intros w H. ok_inv H. destruct a as [work|]; [|left; by inversion H].
    destruct (truthy_bool _); inversion H; eauto. }
  destruct (negb _); [intros [= <- _]; by left|].
  destruct (Py.truthy _).
  - intros H. ok_inv H. destruct a as [data|].
    + inversion H. right; left. by exists data.
    + apply Hfall in H as [->|?]; auto.
  - intros H. apply Hfall in H as [->|?]; auto.
Qed.

Lemma enrich_oa_doi m w m' w' :
  _enrich_oa env config (Some m) w = (Ok m', w') → doi m' = doi m.
Proof.
  intros H. apply enrich_oa_cases in H as [->|[[data ->]|[u ->]]]; done.
Qed.

Lemma enrich_oa_invariant m w m' w' :
  oa_invariant m → _enrich_oa env config (Some m) w = (Ok m', w') →
  oa_invariant m'.
Proof.
  intros Hm H. apply enrich_oa_cases in H as [->|[[data ->]|[u ->]]]; [done|..];
    apply oa_invariant_intro; simpl; [|discriminate].
  intros [= H]. by apply unpaywall_oa_info_closed.
Qed.

Lemma results_invariant_snoc rs r :
  results_invariant rs →
  (∀ m, metadata r = Some m → oa_invariant m) →
  results_invariant (rs ++ [r]).
Proof.
  intros Hrs Hr r' m [Hin|Hin%list_elem_of_singleton]%elem_of_app; [by eapply Hrs|].
  subst r'. apply Hr.
Qed.

Lemma search_merge_invariant q n w rs w' :
  search_merge env config q n w = (Ok rs, w') → results_invariant rs.
Proof.
  intros (A & C & O & w0 & w1 & s1 & w2 & w3 & s2 & w4 & w5 & s3
          & H0 & HA & H1 & HC & H2 & HO & H3 & ->)%search_merge_run.
  set (I := λ s : SearchState, results_invariant s.1).
  assert (I0 : I ([], ∅)) by (intros r m Hr; by apply elem_of_nil in Hr).
  assert (I1 : I s1).
  { revert I0 H1. apply for_each_invariant.
    intros meta [rs0 seen] wa s wb Hin Hs. unfold arxiv_step.
    case_bool_decide; intros [= <- _]; [done|].
    apply results_invariant_snoc; [done|]. simpl. intros m [= <-].
    destruct (arxiv_search_records _ _ _ _ _ _ _ HA _ Hin) as [entry ->].
    apply arxiv_entry_to_metadata_invariant. }
  assert (I2 : I s2).
  { revert I1 H2. apply for_each_invariant.
    intros item [rs0 seen] wa s wb _ Hs. unfold crossref_step.
    intros Hstep. ok_inv Hstep.
    destruct (crossref_to_metadata item) as [m0|] eqn:Hm0; [|discriminate].
    inversion Hrun; subst. destruct (_ && _); [by inversion Hstep; subst|].
    ok_inv Hstep. inversion Hstep; subst.
    apply results_invariant_snoc; [done|]. simpl. intros m [= <-].
    eapply enrich_oa_invariant; [|done].
    by eapply crossref_to_metadata_invariant. }
  change (I s3). revert I2 H3. apply for_each_invariant.
  intros work [rs0 seen] wa s wb _ Hs. unfold openalex_step.
  case_bool_decide; [by intros [= <- _]|]. intros Hstep. ok_inv Hstep.
  inversion Hstep; subst. apply results_invariant_snoc; [done|]. simpl.
  intros m [= <-]. destruct (_ && _).
  - eapply enrich_oa_invariant; [|done]. apply openalex_to_metadata_invariant.
  - inversion Hrun; subst. apply openalex_to_metadata_invariant.
Qed.

Lemma slice_to_prefix {A} (l : list A) n : Py.slice_to l n `prefix_of` l.
Proof. unfold Py.slice_to. destruct (0 <=? n); apply prefix_take. Qed.

Lemma slice_to_subset {A} (l : list A) n x : x ∈ Py.slice_to l n → x ∈ l.
Proof.
  intros H. destruct (slice_to_prefix l n) as [k Hk]. rewrite Hk.
  apply elem_of_app. by left.
Qed.

Lemma search_ad_hoc_invariant q n w rs w' :
  search_ad_hoc env config q n w = (Ok rs, w') → results_invariant rs.
Proof.
  unfold search_ad_hoc. intros H. ok_inv H. apply ret_ok_inv in H as [<- _].
  intros r m Hr. apply slice_to_subset in Hr.
  eapply search_merge_invariant; eauto.
Qed.

End Invariant.

(** ** Entry processing *)

Lemma yields_ret {A} (a : A) (P : A → Prop) : P a → yields (mret a : M A) P.
Proof. intros H w b w' [= <- _]. done. Qed.

Lemma yields_bind {A B} (m : M A) (f : A → M B) (Q : A → Prop) (P : B → Prop) :
  yields m Q → (∀ a, Q a → yields (f a) P) → yields (m ≫= f) P.
Proof.
  intros Hm Hf w b w' (a & w1 & H1 & H2)%bind_ok_inv.
  eapply Hf; [eapply Hm|]; eauto.
Qed.

Lemma yields_any {A} (m : M A) : yields m (λ _, True).
Proof. by intros w a w' _. Qed.

Lemma timed_bind {A} env start (m : M A) (f : A → M ProcessingResult) :
  forwards m → (∀ a, timed env start (f a)) → timed env start (m ≫= f).
Proof.
  intros Hm Hf w r w' (a & w1 & H1 & H2)%bind_ok_inv.
  pose proof (Hm w) as Hle. rewrite H1 in Hle. simpl in Hle.
  destruct (Hf a w1 r w' H2) as [Hlt Ht]. split; [lia|done].
Qed.

(** The last clock reading goes into the result. *)
Lemma timed_stamp env start (k : Q → ProcessingResult) :
  (∀ now, processing_time (k now) = (now - start)%Q) →
  timed env start (now ← time_time env; mret (k now)).
Proof.
  intros Hk w r w' H. rewrite bind_run in H. simpl in H.
  inversion H; subst; simpl. split; [lia|apply Hk].
Qed.

Section Entry.

Variable env : Env.
Variable config : Config.

Lemma timed_process_doi d start : timed env start (_process_doi env config d start).
Proof.
  unfold _process_doi. apply timed_bind; [auto with forwards|].
  intros [item|].
  - apply timed_bind; [auto with forwards|]. intros meta.
    by apply (timed_stamp env start
                (λ now, {| url := _; state := _; metadata := _;
                           error_message := _; processing_time := _ |})).
  - by apply (timed_stamp env start
                (λ now, {| url := _; state := _; metadata := _;
                           error_message := _; processing_time := _ |})).
Qed.

Lemma timed_process_url u start : timed env start (_process_url env config u start).
Proof.
  unfold _process_url. destruct (Re.search _ u).
  - by apply (timed_stamp env start
                (λ now, {| url := _; state := _; metadata := _;
                           error_message := _; processing_time := _ |})).
  - destruct (Re.search _ u); [apply timed_process_doi|].
    by apply (timed_stamp env start
                (λ now, {| url := _; state := _; metadata := _;
                           error_message := _; processing_time := _ |})).
Qed.

Lemma timed_process_entry_body entry start :
  timed env start (process_entry_body env config entry start).
Proof.
  unfold process_entry_body.
  destruct (Py.startswith _ _); [apply timed_process_url|apply timed_process_doi].
Qed.

Lemma forwards_process_doi d start : forwards (_process_doi env config d start).
Proof. unfold _process_doi. forwards_tac. Qed.

Lemma forwards_process_entry_body entry start :
  forwards (process_entry_body env config entry start).
Proof.
  unfold process_entry_body, _process_url.
  pose proof forwards_process_doi. forwards_tac.
Qed.

(** C3: [_process_entry] returns a result on every identifier and from every
    world, it never raises.  The result is the one the [try] block returned,
    or, when the block raised [e], the failed result whose error message is
    the text of [e]; either way its processing time is the last clock
    reading taken by the call minus the first. *)
Theorem process_entry_never_raises (entry : string) (w : World) :
  ∃ r w', _process_entry env config entry w = (Ok r, w')
    ∧ (ticks w < Nat.pred (ticks w'))%nat
    ∧ processing_time r
      = (clock env (Nat.pred (ticks w')) - clock env (ticks w))%Q
    ∧ match process_entry_body env config entry (clock env (ticks w))
                               (time_time env w).2 with
      | (Ok r0, _) => r = r0
      | (Raise e, _) =>
          r = failed_result entry e (processing_time r)
          ∧ state r = FAILED ∧ error_message r = Some (exn_text e)
      end.
Proof.
  unfold _process_entry. rewrite bind_run. simpl.
  set (w0 := {| requests := requests w; logs := logs w; ticks := S (ticks w);
                slept := slept w; last_request_time := last_request_time w;
                files := files w |}).
  unfold try_except.
  pose proof (timed_process_entry_body entry (clock env (ticks w)) w0) as Ht.
  pose proof (forwards_process_entry_body entry (clock env (ticks w)) w0) as Hf.
  destruct (process_entry_body env config entry (clock env (ticks w)) w0)
    as [[r|e] w1].
  - destruct (Ht r w1 eq_refl) as [Hlt Hp]. simpl in Hlt.
    exists r, w1. split_and!; [done|lia|done|done].
  - simpl in Hf. rewrite !bind_run. simpl.
    eexists _, _. split_and!; [done|simpl; lia|done|done..].
Qed.

(** A batch gives one result for each entry, whatever happens to any of them. *)
Lemma process_entries_total entries results w :
  ∃ rs w', for_each (λ entry results,
                       result ← _process_entry env config entry;
                       mret (results ++ [result])) entries results w
           = (Ok rs, w')
    ∧ length rs = (length results + length entries)%nat.
Proof.
  revert results w. induction entries as [|entry entries IH]; intros results w.
  - exists results, w. simpl. split; [done|lia].
  - simpl. rewrite !bind_run.
    destruct (process_entry_never_raises entry w) as (r & w1 & -> & _).
    simpl. destruct (IH (results ++ [r]) w1) as (rs & w' & -> & Hlen).
    exists rs, w'. split; [done|]. rewrite Hlen, length_app. simpl. lia.
Qed.

End Entry.

(** ** The OA invariant along the pipeline *)

Section InvariantEntry.

Variable env : Env.
Variable config : Config.

Lemma process_doi_invariant d start :
  yields (_process_doi env config d start)
         (λ r, ∀ m, metadata r = Some m → oa_invariant m).
Proof.
  intros w r w' H. unfold _process_doi in H. ok_inv H.
  destruct a as [item|]; ok_inv H; inversion H; subst; simpl; [|discriminate].
  intros m [= <-].
  destruct (crossref_to_metadata item) as [m0|] eqn:Hm0; [|discriminate].
  eapply enrich_oa_invariant; [|done]. by eapply crossref_to_metadata_invariant.
Qed.

Lemma process_entry_body_invariant entry start :
  yields (process_entry_body env config entry start)
         (λ r, ∀ m, metadata r = Some m → oa_invariant m).
Proof.
  unfold process_entry_body, _process_url.
  destruct (Py.startswith _ _); [|apply process_doi_invariant].
  destruct (Re.search _ entry).
  - intros w r w' H. ok_inv H. inversion H; subst; simpl.
    intros m [= <-]. apply oa_invariant_intro. discriminate.
  - destruct (Re.search _ entry); [apply process_doi_invariant|].
    intros w r w' H. ok_inv H. inversion H; subst; simpl.
    intros m [= <-]. apply oa_invariant_intro. discriminate.
Qed.

Lemma process_entry_invariant entry :
  yields (_process_entry env config entry)
         (λ r, ∀ m, metadata r = Some m → oa_invariant m).
Proof.
  intros w r w' H.
  destruct (process_entry_never_raises env config entry w)
    as (r' & w'' & Hrun & _ & _ & Hcase).
  rewrite H in Hrun. inversion Hrun; subst r' w''. clear Hrun.
  destruct (process_entry_body _ _ _ _ _) as [[r0|e] w1] eqn:Hb.
  - subst r0. eapply process_entry_body_invariant, Hb.
  - destruct Hcase as [-> _]. discriminate.
Qed.

End InvariantEntry.

(** C8: every record the adapters build and every record [_enrich_oa]
    returns for one of them has, when it has an OA status, one of the six
    status values, and has no OA location when the status is closed; so has
    every record in the results of [search_ad_hoc] and of [_process_entry]. *)
Theorem oa_invariant_of_records :
  (∀ item m, crossref_to_metadata item = Some m → oa_invariant m)
  ∧ (∀ work, oa_invariant (openalex_to_metadata work))
  ∧ (∀ entry, oa_invariant (arxiv_entry_to_metadata entry))
  ∧ (∀ item, oa_invariant (core_item_to_metadata item))
  ∧ (∀ data, info_status (unpaywall_oa_info data) = CLOSED →
             info_url (unpaywall_oa_info data) = None)
  ∧ (∀ env config m w m' w',
       oa_invariant m → _enrich_oa env config (Some m) w = (Ok m', w') →
       oa_invariant m')
  ∧ (∀ env config q n w rs w',
       search_ad_hoc env config q n w = (Ok rs, w') → results_invariant rs)
  ∧ (∀ env config entry w r w',
       _process_entry env config entry w = (Ok r, w') →
       ∀ m, metadata r = Some m → oa_invariant m).
Proof.
  split_and!.
  - apply crossref_to_metadata_invariant.
  - apply openalex_to_metadata_invariant.
  - apply arxiv_entry_to_metadata_invariant.
  - apply core_item_to_metadata_invariant.
  - apply unpaywall_oa_info_closed.
  - apply enrich_oa_invariant.
  - apply search_ad_hoc_invariant.
  - intros env config entry w r w' H. eapply process_entry_invariant, H.
Qed.

(** ** Report *)

Lemma success_rate_nonempty R :
  R ≠ [] →
  success_rate R
  = Ok (inject_Z (count_state COMPLETED R) / inject_Z (Z.of_nat (length R))
        * 100)%Q.
Proof.
  intros HR. unfold success_rate, truediv.
  destruct R as [|r R]; [done|]. simpl length.
  destruct (Z.eqb_spec (Z.of_nat (S (length R))) 0) as [H|_]; [lia|done].
Qed.


(** ** Figures, tables and supplements *)

Lemma search_suffix (m : string → option string) (p s : string) :
  is_Some (m s) → is_Some (Re.search m (p +:+ s)).
Proof.
  intros Hs. induction p as [|c p IH]; simpl.
  - destruct s; simpl; destruct (m _); done.
  - destruct (m (String c (p +:+ s))); [done|]. exact IH.
Qed.

Lemma span_all_chars p s :
  all_chars p s = true → Py.span p s = (s, EmptyString).
Proof.
  induction s as [|c s IH]; simpl; [done|].
  intros [Hc Hs]%andb_true_iff. rewrite Hc, (IH Hs). done.
Qed.

(** The three component markers of the pattern. *)
Lemma component_pattern_marker kind digits :
  kind ∈ ["/fig-"; "/table-"; "/supp-"] →
  digits ≠ EmptyString → all_chars Py.is_digit digits = true →
  is_Some (Re.component_pattern (kind +:+ digits)).
Proof.
  intros Hk Hne Hd. pose proof (span_all_chars _ _ Hd) as Hspan.
  destruct digits as [|c ds]; [done|].
  unfold Re.component_pattern, Re.group_after, Re.lit.
  repeat (apply elem_of_cons in Hk as [->|Hk]); [..|by apply elem_of_nil in Hk];
    simpl; simpl in Hspan; rewrite Hspan; done.
Qed.

(** A Crossref DOI that ends in a component marker and digits normalises
    to nothing. *)
Lemma crossref_to_metadata_component item p kind digits :
  kind ∈ ["/fig-"; "/table-"; "/supp-"] →
  digits ≠ EmptyString → all_chars Py.is_digit digits = true →
  cr_DOI item = Some (p +:+ kind +:+ digits) →
  crossref_to_metadata item = None.
Proof.
  intros Hk Hne Hd Hdoi. unfold crossref_to_metadata. rewrite Hdoi. simpl.
  rewrite bool_decide_eq_true_2; [done|].
  apply search_suffix, component_pattern_marker; done.
Qed.

Section Component.

Variable env : Env.
Variable config : Config.

(** The Crossref loop ends normally only if every item normalised. *)
Lemma crossref_loop_all_normalised C s w s' w' :
  for_each (crossref_step env config) C s w = (Ok s', w') →
  ∀ item, item ∈ C → is_Some (crossref_to_metadata item).
Proof.
  revert s w. induction C as [|c C IH]; intros s w H item Hin.
  - by apply elem_of_nil in Hin.
  - simpl in H. apply bind_ok_inv in H as (s1 & w1 & Hstep & Hrest).
    apply elem_of_cons in Hin as [->|Hin]; [|by eapply IH].
    unfold crossref_step in Hstep. destruct s as [rs seen].
    destruct (crossref_to_metadata c); [done|].
    rewrite bind_run in Hstep. discriminate.
Qed.

(** A component among the records Crossref returns makes the whole search
    raise: no run returns a list. *)
Lemma search_ad_hoc_component_raises q n w A C O merged w' item :
  search_run env config q n w A C O merged w' → item ∈ C →
  crossref_to_metadata item ≠ None.
Proof.
  intros (w0 & w1 & s1 & w2 & w3 & s2 & w4 & w5 & s3
          & _ & _ & _ & _ & H2 & _) Hin Hnone.
  destruct (crossref_loop_all_normalised _ _ _ _ _ H2 item Hin) as [m Hm].
  congruence.
Qed.

End Component.

(** C5, at the record of a figure: normalisation yields nothing for it, as
    it does for every DOI that ends in a component marker, and the search
    that receives it from Crossref raises [AttributeError] where the item
    was to be left out of the results. *)
Theorem search_ad_hoc_figure_item :
  crossref_to_metadata figure_item = None
  ∧ (search_ad_hoc figure_env sample_config "peerj" 10 initial_world).1
    = Raise (AttributeError "'NoneType' object has no attribute 'doi'").
Proof.
  split.
  - apply (crossref_to_metadata_component figure_item "10.7717/peerj.1234"
             "/fig-" "3"); [set_solver|done..].
  - vm_compute. reflexivity.
Qed.

(** Under [_process_entry] the same record becomes a failed result. *)
Example process_entry_figure_item :
  let r := (_process_entry
              (sample_env [] [figure_item] []
                          (FetchRaised (RequestException "unreachable")))
              sample_config "10.7717/peerj.1234/fig-3" initial_world).1 in
  r = Ok (failed_result "10.7717/peerj.1234/fig-3"
            (AttributeError "'NoneType' object has no attribute 'doi'") 3).
Proof. vm_compute. reflexivity. Qed.

(** ** PDF download *)

Section Download.

Variable env : Env.
Variable config : Config.

(** One iteration returns the count it was given or one more, and never
    raises. *)
Lemma download_step_total r count w :
  ∃ c w', download_step env config r count w = (Ok c, w')
    ∧ (c = count ∨ c = count + 1).
Proof.
  unfold download_step. destruct (metadata r) as [m|]; [|by eauto].
  destruct (negb _); [by eauto|].
  rewrite bind_run. simpl. case_bool_decide; [by eauto|].
  unfold try_except.
  match goal with |- context [match ?b w with _ => _ end] =>
    destruct (b w) as [[c|e] w1] eqn:Hbody end.
  - exists c, w1. split; [done|].
    ok_inv Hbody. destruct (_ && _); ok_inv Hbody; inversion Hbody; auto.
  - rewrite bind_run. simpl. eauto.
Qed.

Lemma download_loop_total results count w :
  ∃ c w', for_each (download_step env config) results count w = (Ok c, w').
Proof.
  revert count w. induction results as [|r results IH]; intros count w; simpl.
  - by eauto.
  - rewrite bind_run.
    destruct (download_step_total r count w) as (c & w1 & -> & _). apply IH.
Qed.

(** C9: a fetch answered with a status other than 200, so with every status
    that is not a success, such as 404, writes no file and leaves the count as
    it was, and the loop goes on with the results that remain; the loop as a
    whole never raises. *)
Theorem download_rejects_failed_fetch (r : ProcessingResult)
    (m : PaperMetadata) (resp : PdfResponse) (count : Z) (w : World) :
  metadata r = Some m → Py.truthy_opt (oa_url m) = true →
  files w !! safe_filename m = None →
  pdf_host env (requests w) (fetch_request m) = Fetched resp →
  status_code resp ≠ 200 →
  ∃ w', download_step env config r count w = (Ok count, w')
    ∧ files w' = files w
    ∧ requests w' = requests w ++ [fetch_request m]
    ∧ (∀ rest, for_each (download_step env config) (r :: rest) count w
               = for_each (download_step env config) rest count w')
    ∧ (∀ rest, ∃ c w'', for_each (download_step env config) (r :: rest) count w
                        = (Ok c, w'')).
Proof.
  intros Hm Hu Hfile Hreply Hstatus.
  assert (Hstep : ∃ w', download_step env config r count w = (Ok count, w')
                    ∧ files w' = files w
                    ∧ requests w' = requests w ++ [fetch_request m]).
  { unfold download_step. rewrite Hm, Hu. simpl. rewrite bind_run. simpl.
    rewrite bool_decide_eq_false_2 by (rewrite Hfile; by intros [? ?]).
    unfold try_except, session_get. rewrite !bind_run. simpl.
    unfold fetch_request in Hreply. rewrite Hreply. simpl.
    destruct (Z.eqb_spec (status_code resp) 200) as [?|_]; [done|]. simpl.
    eexists. split; [reflexivity|]. simpl. done. }
  destruct Hstep as (w' & Hstep & Hf & Hr). exists w'.
  split_and!; [done|done|done| |].
  - intros rest. simpl. by rewrite bind_run, Hstep.
  - intros rest. simpl. rewrite bind_run, Hstep. apply download_loop_total.
Qed.

(** C10: when the file named after the record is already in the output
    directory, the iteration asks for nothing and writes nothing, the world
    is left as it was, and the count goes up by one. *)
Theorem download_counts_existing_file (r : ProcessingResult)
    (m : PaperMetadata) (count : Z) (w : World) :
  metadata r = Some m → Py.truthy_opt (oa_url m) = true →
  is_Some (files w !! safe_filename m) →
  download_step env config r count w = (Ok (count + 1), w)
  ∧ download_pdfs env config [r] w = (Ok 1, w).
Proof.
  intros Hm Hu Hfile.
  assert (Hstep : ∀ c, download_step env config r c w = (Ok (c + 1), w)).
  { intros c. unfold download_step. rewrite Hm, Hu. simpl. rewrite bind_run.
    simpl. by rewrite bool_decide_eq_true_2. }
  split; [apply Hstep|].
  unfold download_pdfs. simpl. rewrite bind_run, Hstep. done.
Qed.

End Download.

Lemma download_rejects_failed_fetch_witness :
  let m := sample_metadata "Ore deposits" None (Some "https://x.org/a.pdf") in
  let env := sample_env [] [] [] (Fetched not_found) in
  ∃ w', download_step env sample_config (sample_result m) 0 initial_world
        = (Ok 0, w')
    ∧ files w' = files initial_world
    ∧ requests w' = requests initial_world ++ [fetch_request m]
    ∧ (∀ rest, for_each (download_step env sample_config)
                 (sample_result m :: rest) 0 initial_world
               = for_each (download_step env sample_config) rest 0 w')
    ∧ (∀ rest, ∃ c w'', for_each (download_step env sample_config)
                          (sample_result m :: rest) 0 initial_world
                        = (Ok c, w'')).
Proof.
  apply (download_rejects_failed_fetch
           (sample_env [] [] [] (Fetched not_found)) sample_config
           (sample_result (sample_metadata "Ore deposits" None
                             (Some "https://x.org/a.pdf")))
           (sample_metadata "Ore deposits" None (Some "https://x.org/a.pdf"))
           not_found 0 initial_world);
    [reflexivity|reflexivity|reflexivity|reflexivity|discriminate].
Defined.

Lemma download_counts_existing_file_witness :
  let m := sample_metadata "Ore deposits" None (Some "https://x.org/a.pdf") in
  let env := sample_env [] [] [] (FetchRaised (RequestException "unreachable")) in
  let w := {| requests := []; logs := []; ticks := 0; slept := [];
              last_request_time := 0;
              files := {[ "Ore deposits.pdf" := "%PDF-1.4" ]} |} in
  download_step env sample_config (sample_result m) 0 w = (Ok (0 + 1), w)
  ∧ download_pdfs env sample_config [sample_result m] w = (Ok 1, w).
Proof.
  apply (download_counts_existing_file
           (sample_env [] [] [] (FetchRaised (RequestException "unreachable")))
           sample_config
           (sample_result (sample_metadata "Ore deposits" None
                             (Some "https://x.org/a.pdf")))
           (sample_metadata "Ore deposits" None (Some "https://x.org/a.pdf")));
    [reflexivity|reflexivity|].
  vm_compute. eauto.
Defined.

(** ** Strings *)

Section Strings.

(** Concatenation computes under [simpl] when its first argument is known. *)
#[local] Arguments String.append : simpl nomatch.

Lemma string_app_assoc (a b c : string) : (a +:+ b) +:+ c = a +:+ b +:+ c.
Proof. induction a as [|x a IH]; simpl; [done|by rewrite IH]. Qed.

Lemma string_app_nil_r (a : string) : a +:+ EmptyString = a.
Proof. induction a as [|x a IH]; simpl; [done|by rewrite IH]. Qed.

Lemma string_length_app (a b : string) :
  String.length (a +:+ b) = (String.length a + String.length b)%nat.
Proof. induction a as [|x a IH]; simpl; [done|by rewrite IH]. Qed.

Lemma all_chars_app p (a b : string) :
  all_chars p (a +:+ b) = all_chars p a && all_chars p b.
Proof.
  induction a as [|x a IH]; simpl; [done|]. by rewrite IH, andb_assoc.
Qed.

Lemma all_chars_impl (p q : ascii → bool) s :
  (∀ c, p c = true → q c = true) → all_chars p s = true → all_chars q s = true.
Proof.
  intros Hpq. induction s as [|c s IH]; simpl; [done|].
  intros [Hc Hs]%andb_true_iff. by rewrite (Hpq c Hc), IH.
Qed.

Lemma span_inv p s a b :
  Py.span p s = (a, b) →
  s = a +:+ b ∧ all_chars p a = true ∧ bounded_after p b.
Proof.
  revert a b. induction s as [|c s IH]; intros a b; simpl.
  - intros [= <- <-]. done.
  - destruct (p c) eqn:Hc.
    + destruct (Py.span p s) as [a' b'] eqn:Hs. intros [= <- <-].
      destruct (IH a' b' eq_refl) as (-> & Ha & Hb). simpl. by rewrite Hc.
    + intros [= <- <-]. done.
Qed.

Lemma span_app p a b :
  all_chars p a = true → bounded_after p b → Py.span p (a +:+ b) = (a, b).
Proof.
  intros Ha Hb. induction a as [|c a IH]; simpl in *.
  - destruct b as [|c b]; simpl in *; [done|by rewrite Hb].
  - apply andb_true_iff in Ha as [Hc Ha]. by rewrite Hc, (IH Ha).
Qed.

Lemma prefix_app (l s : string) : String.prefix l (l +:+ s) = true.
Proof.
  induction l as [|c l IH]; simpl; [by destruct s|].
  destruct (ascii_dec c c); [done|congruence].
Qed.

Lemma drop_app (l s : string) : Py.drop (String.length l) (l +:+ s) = s.
Proof. induction l as [|c l IH]; simpl; [by destruct s|done]. Qed.

Lemma prefix_inv (l s : string) :
  String.prefix l s = true → s = l +:+ Py.drop (String.length l) s.
Proof.
  revert s. induction l as [|c l IH]; intros s; simpl.
  - by destruct s.
  - destruct s as [|d s]; simpl; [done|].
    destruct (ascii_dec c d) as [->|]; [|done].
    intros H. by rewrite <- (IH s H).
Qed.

Lemma lit_app (l s : string) : Re.lit l (l +:+ s) = Some s.
Proof. unfold Re.lit. by rewrite prefix_app, drop_app. Qed.

Lemma lit_inv (l s r : string) : Re.lit l s = Some r → s = l +:+ r.
Proof.
  unfold Re.lit. destruct (String.prefix l s) eqn:H; [|done].
  intros [= <-]. by apply prefix_inv.
Qed.

Lemma last_char_app_cons (a : string) c (b : string) :
  last_char (a +:+ String c b) = last_char (String c b).
Proof.
  induction a as [|x a IH]; [done|]. cbn [String.append last_char].
  rewrite IH. simpl. by destruct (last_char b).
Qed.

(** *** [rstrip] *)

Lemma rstrip_by_idem p s : Py.rstrip_by p (Py.rstrip_by p s) = Py.rstrip_by p s.
Proof.
  induction s as [|c s IH]; simpl; [done|].
  destruct (Py.rstrip_by p s) as [|d r] eqn:Hr.
  - destruct (p c) eqn:Hc; simpl; [done|by rewrite Hc].
  - cbn [Py.rstrip_by]. cbn [Py.rstrip_by] in IH. by rewrite IH.
Qed.

Lemma rstrip_by_prefix p s : ∃ t, s = Py.rstrip_by p s +:+ t.
Proof.
  induction s as [|c s [t IH]]; simpl; [by exists EmptyString|].
  destruct (Py.rstrip_by p s) as [|d r].
  - destruct (p c); [by eexists|]. exists s. done.
  - exists t. simpl. by rewrite IH at 1.
Qed.

Lemma rstrip_idem chars s :
  Py.rstrip chars (Py.rstrip chars s) = Py.rstrip chars s.
Proof. apply rstrip_by_idem. Qed.

(** *** Character classes *)

Lemma digit_nonspace c : Py.is_digit c = true → nonspace c = true.
Proof. destruct c as [[] [] [] [] [] [] [] []]; done. Qed.

Lemma url_char_nonspace c : Re.is_url_char c = true → nonspace c = true.
Proof.
  unfold Re.is_url_char, nonspace. destruct (Py.is_space c); [done|done].
Qed.

End Strings.

(** ** [findall] finds every delimited token *)

Section Findall.

#[local] Arguments String.append : simpl nomatch.

(** [m] is a pattern whose matches are non-empty prefixes made of the
    characters of the class [q]. *)
Variable m : string → option string.
Variable q : ascii → bool.
Hypothesis m_token : ∀ s x,
  m s = Some x →
  x ≠ EmptyString ∧ all_chars q x = true ∧ ∃ rest, s = x +:+ rest.

Lemma span_length_app a b :
  all_chars q a = true → (String.length a ≤ String.length (Py.span q (a +:+ b)).1)%nat.
Proof.
  induction a as [|c a IH]; simpl; [lia|].
  intros [Hc Ha]%andb_true_iff. rewrite Hc.
  specialize (IH Ha). destruct (Py.span q (a +:+ b)); simpl in *. lia.
Qed.

(** While [skip] characters of a match remain to be passed over, they are
    characters of the class, so the scan is back at a position of its own at
    the latest on the first character outside the class. *)
Lemma findall_go_finds pre x post skip :
  m (x +:+ post) = Some x →
  bounded_before q pre →
  (pre = EmptyString → skip = 0%nat) →
  (skip ≤ String.length (Py.span q (pre +:+ x +:+ post)).1)%nat →
  x ∈ Re.findall_go m skip (pre +:+ x +:+ post).
Proof.
  intros Hm. revert skip.
  induction pre as [|c pre IH]; intros skip Hb H0 Hskip.
  - rewrite (H0 eq_refl). simpl.
    destruct (m_token _ _ Hm) as (Hne & _ & _).
    destruct x as [|c x]; [done|]. simpl in *. rewrite Hm. left.
  - assert (Hpre : q c = true → bounded_before q pre ∧ pre ≠ EmptyString).
    { intros Hc. unfold bounded_before in *. simpl in Hb.
      destruct pre as [|d pre]; [simpl in Hb; congruence|].
      split; [|done]. by destruct (last_char (String d pre)). }
    assert (Hpre' : bounded_before q pre).
    { unfold bounded_before in *. simpl in Hb.
      by destruct (last_char pre). }
    simpl in Hskip |- *. destruct skip as [|k].
    + destruct (m (String c (pre +:+ x +:+ post))) as [y|] eqn:Hy.
      * right. destruct (m_token _ _ Hy) as (Hne & Hq & rest & Hrest).
        destruct y as [|c' y]; [done|]. simpl in Hrest, Hq.
        injection Hrest as <- Hrest.
        apply andb_true_iff in Hq as [Hc Hq].
        destruct (Hpre Hc) as [_ Hne'].
        apply IH; [done|done|].
        simpl. rewrite Hrest. replace (String.length y - 0)%nat
          with (String.length y) by lia. by apply span_length_app.
      * apply IH; [done|done|lia].
    + destruct (q c) eqn:Hc.
      * destruct (Hpre eq_refl) as [_ Hne'].
        destruct (Py.span q (pre +:+ x +:+ post)) eqn:Hs. simpl in Hskip.
        apply IH; [done|done|]. simpl. lia.
      * simpl in Hskip. lia.
Qed.

Lemma findall_finds pre x post :
  m (x +:+ post) = Some x → bounded_before q pre →
  x ∈ Re.findall m (pre +:+ x +:+ post).
Proof.
  intros Hm Hb. apply findall_go_finds; [done|done|done|lia].
Qed.

(** Every match [findall] returns is a match of the pattern. *)
Lemma findall_go_matches skip s x :
  x ∈ Re.findall_go m skip s → ∃ s', m s' = Some x.
Proof.
  revert skip. induction s as [|c s IH]; intros skip; simpl.
  - by intros ?%elem_of_nil.
  - destruct skip as [|k]; [|apply IH].
    destruct (m (String c s)) as [y|] eqn:Hy; [|apply IH].
    intros [->|Hin]%elem_of_cons; [eauto|by eapply IH].
Qed.

End Findall.

Section Patterns.

#[local] Arguments String.append : simpl nomatch.

Lemma doi_pattern_token s x :
  Re.doi_pattern s = Some x →
  x ≠ EmptyString ∧ all_chars nonspace x = true ∧ ∃ rest, s = x +:+ rest.
Proof.
  unfold Re.doi_pattern.
  destruct (Re.lit "10." s) as [rest|] eqn:Hlit; [|done].
  apply lit_inv in Hlit as ->.
  destruct (Py.span Py.is_digit rest) as [digits rest'] eqn:Hd.
  apply span_inv in Hd as (-> & Hdigits & _).
  destruct (_ && _); [|done].
  destruct rest' as [|c tail]; [done|].
  destruct (ascii_dec c "/") as [->|Hc];
    [|by destruct c as [[] [] [] [] [] [] [] []]].
  destruct (Py.span _ tail) as [body r] eqn:Hb.
  apply span_inv in Hb as (-> & Hbody & _).
  destruct body as [|b body]; [done|]. intros [= <-].
  split; [done|]. split.
  - simpl. rewrite all_chars_app.
    rewrite (all_chars_impl _ _ _ digit_nonspace Hdigits). exact Hbody.
  - exists r. simpl. rewrite !string_app_assoc. simpl. done.
Qed.

Lemma url_pattern_token s x :
  Re.url_pattern s = Some x →
  x ≠ EmptyString ∧ all_chars Re.is_url_char x = true ∧ ∃ rest, s = x +:+ rest.
Proof.
  unfold Re.url_pattern.
  destruct (Re.lit "http" s) as [rest|] eqn:Hlit; [|done].
  apply lit_inv in Hlit as ->.
  assert (Hgo : ∀ scheme rest1,
    scheme ≠ EmptyString → all_chars Re.is_url_char scheme = true →
    match Re.lit "://" rest1 with
    | Some tail =>
        let '(body, _) := Py.span Re.is_url_char tail in
        match body with
        | EmptyString => None
        | String _ _ => Some (scheme +:+ "://" +:+ body)
        end
    | None => None
    end = Some x →
    x ≠ EmptyString ∧ all_chars Re.is_url_char x = true
    ∧ ∃ r, scheme +:+ rest1 = x +:+ r).
  { intros scheme rest1 Hne Hs.
    destruct (Re.lit "://" rest1) as [tail|] eqn:Hl; [|done].
    apply lit_inv in Hl as ->.
    destruct (Py.span _ tail) as [body r] eqn:Hb.
    apply span_inv in Hb as (-> & Hbody & _).
    destruct body as [|b body]; [done|]. intros [= <-]. split.
    { destruct scheme; done. }
    split.
    - rewrite all_chars_app, Hs. simpl. exact Hbody.
    - exists r. rewrite !string_app_assoc. simpl. done. }
  destruct rest as [|c rest1].
  - intros H. by apply (Hgo "http" EmptyString) in H.
  - destruct (ascii_dec c "s") as [->|Hc].
    + intros H. by apply (Hgo "https" rest1) in H.
    + intros H.
      assert (H' : match Re.lit "://" (String c rest1) with
                   | Some tail =>
                       let '(body, _) := Py.span Re.is_url_char tail in
                       match body with
                       | EmptyString => None
                       | String _ _ => Some ("http" +:+ "://" +:+ body)
                       end
                   | None => None
                   end = Some x)
        by (by destruct c as [[] [] [] [] [] [] [] []]).
      by apply (Hgo "http" (String c rest1)) in H'.
Qed.

Lemma prefix_nil s : String.prefix EmptyString s = true.
Proof. by destruct s. Qed.

(** A DOI-shaped string followed by white space, or by nothing, is matched
    whole. *)
Lemma doi_pattern_shaped d post :
  doi_shaped d → bounded_after nonspace post →
  Re.doi_pattern (d +:+ post) = Some d.
Proof.
  intros (digits & body & -> & Hd & Hlen & Hne & Hb) Hpost.
  unfold Re.doi_pattern. rewrite !string_app_assoc, lit_app.
  rewrite (span_app Py.is_digit digits); [|done|done].
  destruct (Nat.leb_spec 4 (String.length digits)); [|lia].
  destruct (Nat.leb_spec (String.length digits) 9); [|lia]. simpl.
  rewrite (span_app (λ c, negb (Py.is_space c)) body post Hb Hpost).
  destruct body; done.
Qed.

Lemma url_pattern_shaped u post :
  url_shaped u → bounded_after Re.is_url_char post →
  Re.url_pattern (u +:+ post) = Some u.
Proof.
  intros (scheme & body & Hs & -> & Hne & Hb) Hpost.
  unfold Re.url_pattern.
  repeat (apply elem_of_cons in Hs as [->|Hs]); [..|by apply elem_of_nil in Hs];
    simpl; rewrite ?string_app_assoc; simpl; unfold Re.lit; simpl;
    rewrite prefix_nil, (span_app Re.is_url_char body post Hb Hpost);
    by destruct body.
Qed.

End Patterns.

(** ** Paper-list parsing *)

Lemma elem_of_first_seen l x : x ∈ first_seen l ↔ x ∈ l.
Proof.
  induction l as [|y l IH]; simpl; [done|].
  rewrite !elem_of_cons, list_elem_of_filter, IH.
  destruct (decide (x = y)); intuition congruence.
Qed.

Lemma NoDup_first_seen l : NoDup (first_seen l).
Proof.
  induction l as [|y l IH]; simpl; [constructor|].
  constructor; [|by apply NoDup_filter].
  rewrite list_elem_of_filter. intros [? _]. congruence.
Qed.

(** The dictionary built key by key is the list of first occurrences. *)
Lemma fromkeys_from d l :
  fold_left (λ d k, if bool_decide (k ∈ d) then d else d ++ [k]) l d
  = d ++ filter (λ y, y ∉ d) (first_seen l).
Proof.
  revert d. induction l as [|x l IH]; intros d; simpl.
  - by rewrite filter_nil, app_nil_r.
  - rewrite IH. case_bool_decide as Hx.
    + rewrite filter_cons_False by (intros H; by apply H).
      rewrite list_filter_filter. f_equal. apply list_filter_iff.
      intros y. split; [|tauto]. intros Hy. split; [done|congruence].
    + rewrite filter_cons_True by done.
      rewrite <- app_assoc. simpl. do 2 f_equal.
      rewrite list_filter_filter. apply list_filter_iff.
      intros y. rewrite elem_of_app, list_elem_of_singleton. tauto.
Qed.

Lemma fromkeys_first_seen l : fromkeys l = first_seen l.
Proof.
  unfold fromkeys. rewrite fromkeys_from. simpl.
  induction (first_seen l) as [|x k IH]; [done|].
  rewrite filter_cons_True by apply not_elem_of_nil. by rewrite IH.
Qed.

(** Every entry is a trimmed match: a DOI match, or a URL match that does
    not contain [doi.org]. *)
Lemma extract_entries_inv text e :
  e ∈ extract_entries text →
  (∃ s x, Re.doi_pattern s = Some x ∧ e = Py.rstrip ".,;)" x)
  ∨ (∃ s x, Re.url_pattern s = Some x ∧ e = Py.rstrip ".,;)" x
            ∧ Py.contains "doi.org" e = false).
Proof.
  unfold extract_entries. rewrite elem_of_app.
  intros [(x & -> & Hx)%list_elem_of_fmap|Hin].
  - left. apply findall_go_matches in Hx as [s Hs]. eauto.
  - right. apply list_elem_of_In, filter_In in Hin as [Hin Hdoi].
    apply list_elem_of_In, list_elem_of_fmap in Hin as (x & -> & Hx).
    apply findall_go_matches in Hx as [s Hs].
    exists s, x. split_and!; [done|done|]. by apply negb_true_iff.
Qed.

Lemma doi_entry_not_http s x :
  Re.doi_pattern s = Some x →
  Py.startswith (Py.rstrip ".,;)" x) "http" = false.
Proof.
  intros Hx.
  assert (∃ t, x = String "1" t) as [t ->].
  { unfold Re.doi_pattern in Hx.
    destruct (Re.lit "10." s) as [rest|]; [|done].
    destruct (Py.span Py.is_digit rest) as [digits rest'].
    destruct (_ && _); [|done]. destruct rest' as [|c tail]; [done|].
    destruct (ascii_dec c "/") as [->|Hc];
      [|by destruct c as [[] [] [] [] [] [] [] []]].
    destruct (Py.span _ tail) as [[|b body] r]; [done|].
    injection Hx as <-. by eexists. }
  destruct (rstrip_by_prefix (Py.in_chars ".,;)") (String "1" t)) as [r Hr].
  unfold Py.rstrip, Py.startswith.
  destruct (Py.rstrip_by _ (String "1" t)) as [|c u]; [done|].
  injection Hr as <- _. done.
Qed.

(** C6, as amended: the entries are the trimmed DOI matches of the text, as
    bare DOIs, followed by its trimmed URL matches that do not contain
    [doi.org], deduplicated in first-seen order.  A DOI-shaped token and an
    http(s) URL token of the text are both returned, trimmed; no entry occurs
    twice; no entry ends in one of the characters [.,;)]; and no entry that
    starts with [http] contains [doi.org]. *)
Theorem parse_text_entries (text : string) :
  parse_text text = first_seen (extract_entries text)
  ∧ NoDup (parse_text text)
  ∧ (∀ pre d post,
       text = pre +:+ d +:+ post → doi_shaped d →
       bounded_before nonspace pre → bounded_after nonspace post →
       Py.rstrip ".,;)" d ∈ parse_text text)
  ∧ (∀ pre u post,
       text = pre +:+ u +:+ post → url_shaped u →
       bounded_before Re.is_url_char pre → bounded_after Re.is_url_char post →
       Py.contains "doi.org" (Py.rstrip ".,;)" u) = false →
       Py.rstrip ".,;)" u ∈ parse_text text)
  ∧ (∀ e, e ∈ parse_text text →
       Py.rstrip ".,;)" e = e
       ∧ (Py.startswith e "http" = true → Py.contains "doi.org" e = false)).
Proof.
  unfold parse_text. rewrite fromkeys_first_seen. split_and!.
  - done.
  - apply NoDup_first_seen.
  - intros pre d post -> Hd Hpre Hpost. apply elem_of_first_seen.
    unfold extract_entries. apply elem_of_app. left.
    apply list_elem_of_fmap_2.
    apply (findall_finds Re.doi_pattern nonspace doi_pattern_token);
      [by apply doi_pattern_shaped|done].
  - intros pre u post -> Hu Hpre Hpost Hdoi. apply elem_of_first_seen.
    unfold extract_entries. apply elem_of_app. right.
    apply list_elem_of_In, filter_In. split; [|by rewrite Hdoi].
    apply list_elem_of_In, list_elem_of_fmap_2.
    apply (findall_finds Re.url_pattern Re.is_url_char url_pattern_token);
      [by apply url_pattern_shaped|done].
  - intros e He. apply (proj1 (elem_of_first_seen _ _)) in He.
    apply extract_entries_inv in He
      as [(s & x & Hx & ->)|(s & x & Hx & -> & Hdoi)].
    + split; [apply rstrip_idem|]. by rewrite (doi_entry_not_http s x Hx).
    + split; [apply rstrip_idem|done].
Qed.

Lemma parse_text_entries_witness :
  Py.rstrip ".,;)" "10.1016/j.oregeorev.2018.12.018," ∈ parse_text sample_text.
Proof.
  apply (proj1 (proj2 (proj2 (parse_text_entries sample_text)))
           ("10.1016/j.oregeorev.2018.12.018" +:+ newline
            +:+ "https://arxiv.org/abs/1901.01234" +:+ newline +:+ "again: ")
           "10.1016/j.oregeorev.2018.12.018,"
           " and https://doi.org/10.1016/j.oregeorev.2018.12.018").
  - reflexivity.
  - exists "1016", "j.oregeorev.2018.12.018,".
    split_and!;
      [reflexivity|reflexivity|simpl; lia|simpl; lia|discriminate|reflexivity].
  - reflexivity.
  - reflexivity.
Defined.

(** C6 as stated fails on the text of the specification's own example: the
    DOI comes back bare, and no entry is its resolver URL. *)
Lemma parse_text_keeps_bare_doi :
  parse_text sample_text
  = ["10.1016/j.oregeorev.2018.12.018"; "https://arxiv.org/abs/1901.01234"]
  ∧ sample_resolver_url ∉ parse_text sample_text.
Proof.
  assert (H : parse_text sample_text
              = ["10.1016/j.oregeorev.2018.12.018";
                 "https://arxiv.org/abs/1901.01234"]) by (vm_compute; reflexivity).
  split; [exact H|]. rewrite H. unfold sample_resolver_url.
  rewrite !elem_of_cons, elem_of_nil. intros [?|[?|[]]]; discriminate.
Qed.

(** ** Merging: the loops against first-kept selection *)

Lemma same_keys_add seen earlier k :
  same_keys seen earlier → same_keys ({[k]} ∪ seen) (k :: earlier).
Proof.
  intros H k'. rewrite elem_of_union, elem_of_singleton, elem_of_cons, (H k').
  done.
Qed.

Lemma truthy_opt_some (o : option string) :
  Py.truthy_opt o = true → ∃ d, o = Some d ∧ Py.truthy d = true.
Proof. destruct o as [d|]; simpl; [eauto|done]. Qed.

Section Merge.

Variable env : Env.
Variable config : Config.

Lemma arxiv_loop_refines A : ∀ rs seen earlier w rs' seen' w',
  same_keys seen earlier →
  for_each arxiv_step A (rs, seen) w = (Ok (rs', seen'), w') →
  ∃ added,
    rs' = rs ++ added
    ∧ Forall2 (derived env config)
              (keep_first earlier (map (pair Arxiv) A)) added
    ∧ same_keys seen' (keys_after earlier (map (pair Arxiv) A)).
Proof.
  induction A as [|a A IH]; intros rs seen earlier w rs' seen' w' Hk Hrun.
  - apply ret_ok_inv in Hrun as [[= <- <-] _].
    exists []. rewrite app_nil_r. split_and!; [done|constructor|done].
  - simpl in Hrun. apply bind_ok_inv in Hrun as (s1 & w1 & Hstep & Hrest).
    unfold arxiv_step in Hstep. simpl.
    set (key := Py.or_str (arxiv_id a) (title a)) in *.
    destruct (decide (key ∈ seen)) as [Hin|Hnin].
    + rewrite bool_decide_eq_true_2 in Hstep by done.
      rewrite bool_decide_eq_true_2 by (by apply Hk).
      apply ret_ok_inv in Hstep as [<- <-]. by eapply IH.
    + rewrite bool_decide_eq_false_2 in Hstep by done.
      rewrite bool_decide_eq_false_2 by (by rewrite <- (Hk key)).
      apply ret_ok_inv in Hstep as [<- <-].
      destruct (IH _ _ (key :: earlier) _ _ _ _ (same_keys_add _ _ key Hk) Hrest)
        as (added & -> & Hd & Hk').
      exists (arxiv_result a :: added). rewrite <- app_assoc.
      split_and!; [done| |done]. constructor; [done|exact Hd].
Qed.

Lemma crossref_loop_refines C : ∀ rs seen earlier w rs' seen' w',
  same_keys seen earlier →
  for_each (crossref_step env config) C (rs, seen) w = (Ok (rs', seen'), w') →
  ∃ added,
    rs' = rs ++ added
    ∧ Forall2 (derived env config)
        (keep_first earlier (map (pair Crossref) (omap crossref_to_metadata C)))
        added
    ∧ same_keys seen'
        (keys_after earlier (map (pair Crossref) (omap crossref_to_metadata C))).
Proof.
  induction C as [|c C IH]; intros rs seen earlier w rs' seen' w' Hk Hrun.
  - apply ret_ok_inv in Hrun as [[= <- <-] _].
    exists []. rewrite app_nil_r. split_and!; [done|constructor|done].
  - simpl in Hrun. apply bind_ok_inv in Hrun as (s1 & w1 & Hstep & Hrest).
    unfold crossref_step in Hstep. simpl.
    destruct (crossref_to_metadata c) as [m|]; [|by rewrite bind_run in Hstep].
    rewrite bind_run in Hstep. simpl in Hstep |- *.
   
    unfold dedup_key. simpl.
    destruct (Py.truthy_opt (doi m)) eqn:Ht; simpl in Hstep.
    + destruct (truthy_opt_some _ Ht) as (d & Hd & _). rewrite Hd in Hstep |- *.
      simpl in Hstep.
      destruct (decide (d ∈ seen)) as [Hin|Hnin].
      * rewrite bool_decide_eq_true_2 in Hstep by done.
        rewrite bool_decide_eq_true_2 by (by apply Hk).
        apply ret_ok_inv in Hstep as [<- <-]. by eapply IH.
      * rewrite bool_decide_eq_false_2 in Hstep by done.
        rewrite bool_decide_eq_false_2 by (by rewrite <- (Hk d)).
        apply bind_ok_inv in Hstep as (m' & w2 & Hen & Hstep).
        apply ret_ok_inv in Hstep as [<- <-].
        destruct (IH _ _ (d :: earlier) _ _ _ _ (same_keys_add _ _ d Hk) Hrest)
          as (added & -> & Hder & Hk').
        exists (search_result m' :: added). rewrite <- app_assoc.
        split_and!; [done| |done]. constructor; [|exact Hder].
        exists m'. split; [by exists w, w2|done].
    + apply bind_ok_inv in Hstep as (m' & w2 & Hen & Hstep).
      apply ret_ok_inv in Hstep as [<- <-].
      destruct (IH _ _ earlier _ _ _ _ Hk Hrest) as (added & -> & Hder & Hk').
      exists (search_result m' :: added). rewrite <- app_assoc.
      split_and!; [done| |done]. constructor; [|exact Hder].
      exists m'. split; [by exists w, w2|done].
Qed.

Lemma openalex_loop_refines O : ∀ rs seen earlier w rs' seen' w',
  same_keys seen earlier →
  for_each (openalex_step env config) O (rs, seen) w = (Ok (rs', seen'), w') →
  ∃ added,
    rs' = rs ++ added
    ∧ Forall2 (derived env config)
        (keep_first earlier (map (pair OpenAlex) (map openalex_to_metadata O)))
        added
    ∧ same_keys seen'
        (keys_after earlier (map (pair OpenAlex) (map openalex_to_metadata O))).
Proof.
  induction O as [|o O IH]; intros rs seen earlier w rs' seen' w' Hk Hrun.
  - apply ret_ok_inv in Hrun as [[= <- <-] _].
    exists []. rewrite app_nil_r. split_and!; [done|constructor|done].
  - simpl in Hrun. apply bind_ok_inv in Hrun as (s1 & w1 & Hstep & Hrest).
    unfold openalex_step in Hstep.
    set (meta := openalex_to_metadata o) in *.
    cbn [map keep_first keys_after]. unfold dedup_key. cbn [fst snd].
    fold meta.
    set (key := Py.or_str (doi meta) (title meta)) in *.
    destruct (decide (key ∈ seen)) as [Hin|Hnin].
    + rewrite bool_decide_eq_true_2 in Hstep by done.
      rewrite bool_decide_eq_true_2 by (by apply Hk).
      apply ret_ok_inv in Hstep as [<- <-]. by eapply IH.
    + rewrite bool_decide_eq_false_2 in Hstep by done.
      rewrite bool_decide_eq_false_2 by (by rewrite <- (Hk key)).
      apply bind_ok_inv in Hstep as (m' & w2 & Hen & Hstep).
      apply ret_ok_inv in Hstep as [<- <-].
      destruct (IH _ _ (key :: earlier) _ _ _ _ (same_keys_add _ _ key Hk) Hrest)
        as (added & -> & Hder & Hk').
      exists (search_result m' :: added). rewrite <- app_assoc.
      split_and!; [done| |done]. constructor; [|exact Hder].
      exists m'. split; [|done]. simpl.
      destruct (_ && _); [by exists w, w2|].
      by apply ret_ok_inv in Hen as [-> _].
Qed.

Lemma keep_first_app earlier l1 l2 :
  keep_first earlier (l1 ++ l2)
  = keep_first earlier l1 ++ keep_first (keys_after earlier l1) l2.
Proof.
  revert earlier. induction l1 as [|x l1 IH]; intros earlier; simpl; [done|].
  destruct (dedup_key x) as [k|]; [case_bool_decide|]; simpl; by rewrite IH.
Qed.

Lemma keys_after_app earlier l1 l2 :
  keys_after earlier (l1 ++ l2) = keys_after (keys_after earlier l1) l2.
Proof.
  revert earlier. induction l1 as [|x l1 IH]; intros earlier; simpl; [done|].
  destruct (dedup_key x) as [k|]; [case_bool_decide|]; simpl; by rewrite IH.
Qed.

(** The merged list of a run is, record for record and in order, what its
    loops build from the candidates that first-kept selection keeps. *)
Lemma search_run_refines q n w A C O merged w' :
  search_run env config q n w A C O merged w' →
  Forall2 (derived env config) (keep_first [] (candidates A C O)) merged.
Proof.
  intros (w0 & w1 & s1 & w2 & w3 & s2 & w4 & w5 & s3
          & _ & _ & H1 & _ & H2 & _ & H3 & ->).
  destruct s1 as [rs1 seen1], s2 as [rs2 seen2], s3 as [rs3 seen3].
  assert (H0 : same_keys ∅ []).
  { intros k. rewrite elem_of_nil. set_solver. }
  destruct (arxiv_loop_refines _ _ _ _ _ _ _ _ H0 H1) as (a1 & -> & D1 & K1).
  destruct (crossref_loop_refines _ _ _ _ _ _ _ _ K1 H2) as (a2 & -> & D2 & K2).
  rewrite <- keys_after_app in K2.
  destruct (openalex_loop_refines _ _ _ _ _ _ _ _ K2 H3) as (a3 & -> & D3 & _).
  unfold candidates. rewrite !keep_first_app. simpl.
  rewrite <- (app_assoc a1).
  apply Forall2_app; [done|]. apply Forall2_app; [done|].
  by rewrite <- keys_after_app.
Qed.

End Merge.

(** ** First-kept selection *)

Lemma keep_first_sublist earlier l : keep_first earlier l `sublist_of` l.
Proof.
  revert earlier. induction l as [|x l IH]; intros earlier; simpl; [done|].
  destruct (dedup_key x) as [k|]; [case_bool_decide|];
    first [by apply sublist_cons|by apply sublist_skip].
Qed.

Lemma keep_first_elem_of earlier l x : x ∈ keep_first earlier l → x ∈ l.
Proof. intros H. eapply elem_of_sublist; [done|apply keep_first_sublist]. Qed.

(** A kept candidate's key was not met earlier. *)
Lemma keep_first_fresh earlier l x k :
  x ∈ keep_first earlier l → dedup_key x = Some k → k ∉ earlier.
Proof.
  revert earlier. induction l as [|y l IH]; intros earlier; simpl.
  - by intros ?%elem_of_nil.
  - destruct (dedup_key y) as [k'|] eqn:Hy.
    + case_bool_decide as Hk'; [apply IH|].
      intros [->|Hin]%elem_of_cons Hx; [congruence|].
      intros Hk. eapply IH; [done..|]. by right.
    + intros [->|Hin]%elem_of_cons Hx; [congruence|]. by eapply IH.
Qed.

Lemma keep_first_NoDup earlier l :
  NoDup (omap dedup_key (keep_first earlier l)).
Proof.
  revert earlier. induction l as [|y l IH]; intros earlier; simpl;
    [constructor|].
  destruct (dedup_key y) as [k|] eqn:Hy.
  - case_bool_decide as Hk; [apply IH|]. simpl. rewrite Hy.
    constructor; [|apply IH].
    intros (x & Hx & Hin)%list_elem_of_omap.
    eapply keep_first_fresh; [done..|]. by left.
  - simpl. rewrite Hy. apply IH.
Qed.

Lemma keys_after_mono earlier l k : k ∈ earlier → k ∈ keys_after earlier l.
Proof.
  revert earlier. induction l as [|y l IH]; intros earlier Hk; simpl; [done|].
  destruct (dedup_key y) as [k'|]; [case_bool_decide|]; apply IH; try done.
  by right.
Qed.

(** Every key of [l] has been met once [l] has been gone through. *)
Lemma keys_after_elem_of earlier l x k :
  x ∈ l → dedup_key x = Some k → k ∈ keys_after earlier l.
Proof.
  revert earlier. induction l as [|y l IH]; intros earlier; simpl.
  - by intros ?%elem_of_nil.
  - intros [->|Hin]%elem_of_cons Hx.
    + rewrite Hx. case_bool_decide; apply keys_after_mono; [done|by left].
    + destruct (dedup_key y) as [k'|]; [case_bool_decide|]; by eapply IH.
Qed.

Lemma keys_after_inv earlier l k :
  k ∈ keys_after earlier l →
  k ∈ earlier ∨ ∃ x, x ∈ l ∧ dedup_key x = Some k.
Proof.
  revert earlier. induction l as [|y l IH]; intros earlier; simpl; [auto|].
  destruct (dedup_key y) as [k'|] eqn:Hy; [case_bool_decide|].
  - intros [?|(x & ? & ?)]%IH; [auto|]. right. exists x. split; [by right|done].
  - intros [[->|?]%elem_of_cons|(x & ? & ?)]%IH; [|auto|].
    + right. exists y. split; [by left|done].
    + right. exists x. split; [by right|done].
  - intros [?|(x & ? & ?)]%IH; [auto|]. right. exists x. split; [by right|done].
Qed.

(** A key of [l] not met earlier is the key of a kept candidate. *)
Lemma keep_first_covers earlier l x k :
  x ∈ l → dedup_key x = Some k → k ∉ earlier →
  ∃ y, y ∈ keep_first earlier l ∧ dedup_key y = Some k.
Proof.
  revert earlier. induction l as [|z l IH]; intros earlier; simpl.
  - by intros ?%elem_of_nil.
  - intros Hin Hx Hk. destruct (dedup_key z) as [k'|] eqn:Hz.
    + case_bool_decide as Hk'.
      * apply elem_of_cons in Hin as [->|Hin]; [congruence|]. by apply IH.
      * destruct (decide (k' = k)) as [->|Hne].
        { exists z. split; [by left|done]. }
        apply elem_of_cons in Hin as [->|Hin]; [congruence|].
        destruct (IH (k' :: earlier) Hin Hx) as (y & Hy & Hyk).
        { rewrite elem_of_cons. intros [?|?]; congruence. }
        exists y. split; [by right|done].
    + apply elem_of_cons in Hin as [->|Hin]; [congruence|].
      destruct (IH earlier Hin Hx Hk) as (y & Hy & Hyk).
      exists y. split; [by right|done].
Qed.

(** A candidate whose key an earlier candidate has is dropped; any other
    candidate is kept, after the candidates kept before it. *)
Lemma keep_first_position l1 x l2 :
  (same_key_earlier l1 x →
   keep_first [] (l1 ++ x :: l2) = keep_first [] (l1 ++ l2))
  ∧ (¬ same_key_earlier l1 x →
     ∃ s2, keep_first [] (l1 ++ x :: l2) = keep_first [] l1 ++ x :: s2).
Proof.
  rewrite !keep_first_app. simpl. split.
  - intros (y & k & Hy & Hyk & Hxk). rewrite Hxk.
    rewrite bool_decide_eq_true_2; [done|]. by eapply keys_after_elem_of.
  - intros Hno. destruct (dedup_key x) as [k|] eqn:Hx; [|by eexists].
    rewrite bool_decide_eq_false_2; [by eexists|].
    intros [[]%elem_of_nil|(y & Hy & Hyk)]%keys_after_inv.
    apply Hno. by exists y, k.
Qed.

(** *** Counting by a property that corresponding elements share *)

Lemma Forall2_filter_length {A B} (R : A → B → Prop) (P : A → Prop)
    (Q : B → Prop) `{∀ x, Decision (P x)} `{∀ y, Decision (Q y)} l1 l2 :
  Forall2 R l1 l2 → (∀ x y, R x y → (P x ↔ Q y)) →
  length (filter P l1) = length (filter Q l2).
Proof.
  intros HF HPQ. induction HF as [|x y l1 l2 Hxy _ IH]; [done|].
  rewrite !filter_cons. specialize (HPQ x y Hxy).
  destruct (decide (P x)), (decide (Q y)); simpl; tauto || lia.
Qed.

Lemma Forall2_elem_of_r {A B} (R : A → B → Prop) l1 l2 y :
  Forall2 R l1 l2 → y ∈ l2 → ∃ x, x ∈ l1 ∧ R x y.
Proof.
  intros HF. induction HF as [|x y' l1 l2 Hxy _ IH]; [by intros ?%elem_of_nil|].
  intros [->|Hin]%elem_of_cons.
  - exists x. split; [by left|done].
  - destruct (IH Hin) as (x' & ? & ?). exists x'. split; [by right|done].
Qed.

Lemma filter_length_le {A} (P Q : A → Prop) `{∀ x, Decision (P x)}
    `{∀ x, Decision (Q x)} (l : list A) :
  (∀ x, x ∈ l → P x → Q x) →
  (length (filter P l) ≤ length (filter Q l))%nat.
Proof.
  induction l as [|x l IH]; intros HPQ; [done|].
  rewrite !filter_cons.
  assert (IH' : (length (filter P l) ≤ length (filter Q l))%nat).
  { apply IH. intros y Hy. apply HPQ. by right. }
  destruct (decide (P x)) as [HP|], (decide (Q x)) as [|HQ]; simpl; try lia.
  destruct HQ. apply HPQ; [by left|done].
Qed.

Lemma filter_none {A} (P : A → Prop) `{∀ x, Decision (P x)} (l : list A) :
  (∀ x, x ∈ l → ¬ P x) → filter P l = [].
Proof.
  induction l as [|x l IH]; intros HP; [done|].
  rewrite filter_cons_False by (apply HP; by left).
  apply IH. intros y Hy. apply HP. by right.
Qed.

Lemma NoDup_omap_filter_length {A} (f : A → option string) (k : string)
    (l : list A) :
  NoDup (omap f l) → (length (filter (λ x, f x = Some k) l) ≤ 1)%nat.
Proof.
  induction l as [|x l IH]; simpl; [lia|].
  rewrite filter_cons. destruct (f x) as [k'|] eqn:Hx.
  - intros [Hnin Hnd]%NoDup_cons. specialize (IH Hnd).
    destruct (decide (Some k' = Some k)) as [[= ->]|]; [|done]. simpl.
    assert (filter (λ x, f x = Some k) l = []) as ->; [|simpl; lia].
    apply filter_none. intros y Hy Hyk. apply Hnin.
    apply list_elem_of_omap. eauto.
  - intros Hnd. destruct (decide (None = Some k)); [done|]. by apply IH.
Qed.

Lemma filter_prefix_length {A} (P : A → Prop) `{∀ x, Decision (P x)}
    (l1 l2 : list A) :
  l1 `prefix_of` l2 → (length (filter P l1) ≤ length (filter P l2))%nat.
Proof. intros [k ->]. rewrite filter_app, length_app. lia. Qed.

(** ** Deduplication across the providers *)

Section Dedup.

Variable env : Env.
Variable config : Config.

Lemma search_run_ad_hoc q n w A C O merged w' :
  search_run env config q n w A C O merged w' →
  search_ad_hoc env config q n w = (Ok (Py.slice_to merged n), w').
Proof.
  intros Hrun. unfold search_ad_hoc. rewrite bind_run.
  assert (Hm : search_merge env config q n w = (Ok merged, w')).
  { apply search_merge_run. eauto. }
  by rewrite Hm.
Qed.

(** OA resolution leaves the DOI of a record as it is. *)
Lemma derived_doi x r :
  derived env config x r → metadata r ≫= doi = doi x.2.
Proof.
  destruct x as [[] m]; unfold derived; simpl.
  - by intros ->.
  - intros (m' & (w & w' & Hen) & ->). simpl. by eapply enrich_oa_doi.
  - intros (m' & Hm' & ->). simpl.
    destruct (_ && _); [|by subst].
    destruct Hm' as (w & w' & Hen). by eapply enrich_oa_doi.
Qed.

Lemma search_run_arxiv_no_doi q n w A C O merged w' a :
  search_run env config q n w A C O merged w' → a ∈ A → doi a = None.
Proof.
  intros (w0 & w1 & s1 & w2 & w3 & s2 & w4 & w5 & s3 & _ & HA & _) Ha.
  destruct (arxiv_search_records _ _ _ _ _ _ _ HA a Ha) as [entry ->]. done.
Qed.

(** C7, as amended: the merged list of a run holds, in order, the results
    built from the candidates that first-kept selection keeps, the key of a
    candidate being the arXiv ID or else the title for an arXiv record, the
    DOI for a Crossref record that has one (a Crossref record without a DOI
    has no key and is always kept), and the DOI or else the title for an
    OpenAlex record.  The keys of the kept candidates are pairwise distinct;
    a candidate is dropped exactly when an earlier candidate has its key. *)
Theorem search_merge_keeps_first (q : string) (n : Z) (w : World)
    (A : list PaperMetadata) (C : list CrossrefItem) (O : list OpenAlexWork)
    (merged : list ProcessingResult) (w' : World) :
  search_run env config q n w A C O merged w' →
  search_ad_hoc env config q n w = (Ok (Py.slice_to merged n), w')
  ∧ Forall2 (derived env config) (keep_first [] (candidates A C O)) merged
  ∧ NoDup (omap dedup_key (keep_first [] (candidates A C O)))
  ∧ (∀ l1 x l2, candidates A C O = l1 ++ x :: l2 →
       (same_key_earlier l1 x →
        keep_first [] (candidates A C O) = keep_first [] (l1 ++ l2))
       ∧ (¬ same_key_earlier l1 x →
          ∃ s2, keep_first [] (candidates A C O)
                = keep_first [] l1 ++ x :: s2)).
Proof.
  intros Hrun. split_and!.
  - by eapply search_run_ad_hoc.
  - by eapply search_run_refines.
  - apply keep_first_NoDup.
  - intros l1 x l2 ->. apply keep_first_position.
Qed.


End Dedup.

(** ** Runs against providers that always answer the same *)

Section SampleRuns.

Variables (entries : list ArxivEntry) (items : list CrossrefItem)
  (works : list OpenAlexWork) (fetch : FetchReply) (config : Config).

#[local] Abbreviation env := (sample_env entries items works fetch).

Lemma sample_env_arxiv q n w A w' :
  arxiv_search env config q n w = (Ok A, w') →
  A = map arxiv_entry_to_metadata entries.
Proof.
  unfold arxiv_search. rewrite bind_run.
  destruct (get_spec env config (arxiv_api env)
              "http://export.arxiv.org/api/query"
              [("search_query", "all:" +:+ q); ("start", "0");
               ("max_results", Py.str_of_Z n); ("sortBy", "relevance");
               ("sortOrder", "descending")] w)
    as (w1 & r & -> & _ & _ & _ & Hreply).
  simpl in Hreply. destruct Hreply as [-> _]. by intros [= <- _].
Qed.

Lemma sample_env_crossref q n w C w' :
  crossref_search env config q n w = (Ok C, w') → C = items.
Proof.
  unfold crossref_search. rewrite bind_run.
  destruct (get_spec env config (crossref_works_api env)
              "https://api.crossref.org/works"
              ([("query", q); ("rows", Py.str_of_Z n); ("sort", "relevance")]
               ++ mailto config) w)
    as (w1 & r & -> & _ & _ & _ & Hreply).
  simpl in Hreply. destruct Hreply as [-> _]. by intros [= <- _].
Qed.

Lemma sample_env_openalex q n w O w' :
  openalex_search env config q n w = (Ok O, w') → O = works.
Proof.
  unfold openalex_search. rewrite bind_run.
  destruct (get_spec env config (openalex_works_api env)
              "https://api.openalex.org/works"
              ([("search", q); ("per_page", Py.str_of_Z (Z.min n 200))]
               ++ mailto config) w)
    as (w1 & r & -> & _ & _ & _ & Hreply).
  simpl in Hreply. destruct Hreply as [-> _]. by intros [= <- _].
Qed.

(** A successful merge against such providers is the run on what they
    answer. *)
Lemma sample_env_search_run q n w merged w' :
  search_merge env config q n w = (Ok merged, w') →
  search_run env config q n w (map arxiv_entry_to_metadata entries)
             items works merged w'.
Proof.
  intros (A & C & O & Hrun)%search_merge_run.
  pose proof Hrun as (w0 & w1 & s1 & w2 & w3 & s2 & w4 & w5 & s3
                      & _ & HA & _ & HC & _ & HO & _).
  apply sample_env_arxiv in HA. apply sample_env_crossref in HC.
  apply sample_env_openalex in HO. subst A C O. exact Hrun.
Qed.

End SampleRuns.

Lemma shared_doi_run :
  ∃ merged w',
    search_run shared_doi_env sample_config "ore" 10 initial_world
      (map arxiv_entry_to_metadata five_entries)
      [sample_crossref_item "Ore deposits" shared_doi]
      [sample_openalex_work "Ore deposits" shared_doi] merged w'
    ∧ length merged = 6%nat.
Proof.
  do 2 eexists. split.
  - apply sample_env_search_run. vm_compute. reflexivity.
  - reflexivity.
Qed.

Lemma search_merge_keeps_first_witness :
  ∃ merged w',
    let cands :=
      candidates (map arxiv_entry_to_metadata five_entries)
        [sample_crossref_item "Ore deposits" shared_doi]
        [sample_openalex_work "Ore deposits" shared_doi] in
    search_ad_hoc shared_doi_env sample_config "ore" 10 initial_world
    = (Ok (Py.slice_to merged 10), w')
    ∧ Forall2 (derived shared_doi_env sample_config) (keep_first [] cands)
              merged
    ∧ NoDup (omap dedup_key (keep_first [] cands))
    ∧ (∀ l1 x l2, cands = l1 ++ x :: l2 →
         (same_key_earlier l1 x →
          keep_first [] cands = keep_first [] (l1 ++ l2))
         ∧ (¬ same_key_earlier l1 x →
            ∃ s2, keep_first [] cands = keep_first [] l1 ++ x :: s2)).
Proof.
  destruct shared_doi_run as (merged & w' & Hrun & _).
  exists merged, w'.
  exact (search_merge_keeps_first shared_doi_env sample_config "ore" 10
           initial_world _ _ _ merged w' Hrun).
Defined.

(** C7 as stated fails: two Crossref records without a DOI share the key the
    specification derives, their title, and both are kept. *)
Lemma crossref_same_title_both_kept :
  ∃ r1 r2 m1 m2 w',
    search_ad_hoc untitled_env sample_config "data" 10 initial_world
    = (Ok [r1; r2], w')
    ∧ metadata r1 = Some m1 ∧ metadata r2 = Some m2
    ∧ claimed_dedup_key m1 = "Supplementary data"
    ∧ claimed_dedup_key m2 = "Supplementary data".
Proof.
  do 5 eexists. split_and!.
  - vm_compute. reflexivity.
  - reflexivity.
  - reflexivity.
  - reflexivity.
  - reflexivity.
Qed.



(** ** The gateway *)

Section Gateway.

Variable env : Env.
Variable config : Config.


(** One call of [_get], whatever the provider answers: it does not raise, it
    records its request, it hands back nothing exactly when the request was
    refused, it leaves the time of the second clock reading as the time of
    the last request, and it has slept, for the rest of the interval, exactly
    when the interval had not passed. *)
Theorem get_throttles_and_stamps {T} (api : list Request → Request → Reply T)
    (u : string) (params : list (string * string)) (w : World) :
  let req := {| req_url := u; req_params := params |} in
  let elapsed := (clock env (ticks w) - last_request_time w)%Q in
  ∃ r w', _get env config api u params w = (Ok r, w')
    ∧ requests w' = requests w ++ [req]
    ∧ (r = None ↔ ∃ text, api (requests w) req = Refused text)
    ∧ last_request_time w' = clock env (S (ticks w))
    ∧ ticks w' = S (S (ticks w))
    ∧ files w' = files w
    ∧ ((rate_delay config <= elapsed)%Q ∧ slept w' = slept w
       ∨ (elapsed < rate_delay config)%Q
         ∧ slept w' = slept w ++ [(rate_delay config - elapsed)%Q]).
Proof.
  intros req elapsed. unfold _get, _throttle.
  unfold mbind, M_bind, time_time, get_world, record_request. simpl.
  fold elapsed.
  assert (Hs : (rate_delay config <= elapsed)%Q
               ∧ negb (Qle_bool (rate_delay config) elapsed) = false
               ∨ (elapsed < rate_delay config)%Q
                 ∧ negb (Qle_bool (rate_delay config) elapsed) = true).
  { destruct (Qle_bool (rate_delay config) elapsed) eqn:H.
    - left. split; [by apply Qle_bool_iff|done].
    - right. split; [|done]. apply Qnot_le_lt. intros Hle.
      apply Qle_bool_iff in Hle. congruence. }
  destruct Hs as [[Hle ->]|[Hlt ->]]; simpl; fold req;
    destruct (api (requests w) req) as [text|text|v] eqn:Hreply; simpl;
    eexists _, _; (split; [reflexivity|]); simpl;
    split_and!;
    first [ done | by left | by right
          | split; [by eauto|done]
          | split; [done|by intros [? ?]] ].
Qed.

End Gateway.

(** ** Providers that refuse or answer with a body that does not parse *)

Section Providers.

Variable env : Env.
Variable config : Config.

Lemma get_refused {T} (api : list Request → Request → Reply T) u params w text :
  api (requests w) {| req_url := u; req_params := params |} = Refused text →
  ∃ w', _get env config api u params w = (Ok None, w')
    ∧ logs w' = logs w ++ [request_failed
                             {| req_url := u; req_params := params |} text].
Proof.
  intros Hreply.
  destruct (get_spec env config api u params w) as (w' & r & Hget & _ & _ & _ & H).
  rewrite Hreply in H. destruct H as [-> Hl]. eauto.
Qed.

Lemma get_malformed {T} (api : list Request → Request → Reply T) u params w text :
  api (requests w) {| req_url := u; req_params := params |} = Malformed text →
  ∃ w', _get env config api u params w = (Ok (Some (Unparsable text)), w')
    ∧ logs w' = logs w.
Proof.
  intros Hreply.
  destruct (get_spec env config api u params w) as (w' & r & Hget & _ & _ & _ & H).
  rewrite Hreply in H. destruct H as [-> Hl]. eauto.
Qed.

(** A provider that refuses a request contributes nothing and raises
    nothing: the searches return the empty list, the lookups return nothing,
    and the refusal is logged as a warning. *)
Theorem refused_request_gives_nothing (q d text : string) (n : Z) (w : World) :
  (arxiv_api env (requests w) (arxiv_request q n) = Refused text →
   ∃ w', arxiv_search env config q n w = (Ok [], w')
     ∧ logs w' = logs w ++ [request_failed (arxiv_request q n) text])
  ∧ (crossref_works_api env (requests w) (crossref_works_request config q n)
     = Refused text →
     ∃ w', crossref_search env config q n w = (Ok [], w')
       ∧ logs w' = logs w
                   ++ [request_failed (crossref_works_request config q n) text])
  ∧ (openalex_works_api env (requests w) (openalex_works_request config q n)
     = Refused text →
     ∃ w', openalex_search env config q n w = (Ok [], w')
       ∧ logs w' = logs w
                   ++ [request_failed (openalex_works_request config q n) text])
  ∧ (crossref_work_api env (requests w) (crossref_work_request config d)
     = Refused text →
     ∃ w', crossref_lookup_doi env config d w = (Ok None, w')
       ∧ logs w' = logs w
                   ++ [request_failed (crossref_work_request config d) text])
  ∧ (openalex_work_api env (requests w) (openalex_work_request config d)
     = Refused text →
     ∃ w', openalex_lookup_doi env config d w = (Ok None, w')
       ∧ logs w' = logs w
                   ++ [request_failed (openalex_work_request config d) text]).
Proof.
  split_and!; intros Hreply;
    (eapply get_refused in Hreply as (w' & Hget & Hl));
    exists w'; (split; [|exact Hl]).
  - unfold arxiv_search. by rewrite bind_run, Hget.
  - unfold crossref_search. by rewrite bind_run, Hget.
  - unfold openalex_search. by rewrite bind_run, Hget.
  - unfold crossref_lookup_doi. by rewrite bind_run, Hget.
  - unfold openalex_lookup_doi. by rewrite bind_run, Hget.
Qed.

(** A body that does not parse is treated differently by the providers: the
    arXiv search logs a warning and returns the empty list, while the JSON
    searches and lookups raise [ValueError] with the text of the decoder. *)
Theorem malformed_body_outcome (q d text : string) (n : Z) (w : World) :
  (arxiv_api env (requests w) (arxiv_request q n) = Malformed text →
   ∃ w', arxiv_search env config q n w = (Ok [], w')
     ∧ logs w' = logs w ++ [(WARNING, "Failed to parse arXiv XML response")])
  ∧ (crossref_works_api env (requests w) (crossref_works_request config q n)
     = Malformed text →
     (crossref_search env config q n w).1 = Raise (ValueError text))
  ∧ (openalex_works_api env (requests w) (openalex_works_request config q n)
     = Malformed text →
     (openalex_search env config q n w).1 = Raise (ValueError text))
  ∧ (crossref_work_api env (requests w) (crossref_work_request config d)
     = Malformed text →
     (crossref_lookup_doi env config d w).1 = Raise (ValueError text))
  ∧ (openalex_work_api env (requests w) (openalex_work_request config d)
     = Malformed text →
     (openalex_lookup_doi env config d w).1 = Raise (ValueError text)).
Proof.
  split_and!; intros Hreply;
    (eapply get_malformed in Hreply as (w' & Hget & Hl)).
  - eexists. split.
    + unfold arxiv_search. rewrite bind_run, Hget. reflexivity.
    + simpl. by rewrite Hl.
  - unfold crossref_search. by rewrite bind_run, Hget.
  - unfold openalex_search. by rewrite bind_run, Hget.
  - unfold crossref_lookup_doi. by rewrite bind_run, Hget.
  - unfold openalex_lookup_doi. by rewrite bind_run, Hget.
Qed.

End Providers.

Lemma refused_request_gives_nothing_witness :
  ∃ w', arxiv_search (down_env "timed out") sample_config "ore" 5
          initial_world = (Ok [], w')
    ∧ logs w' = [request_failed (arxiv_request "ore" 5) "timed out"].
Proof.
  exact (proj1 (refused_request_gives_nothing (down_env "timed out")
                  sample_config "ore" "10.1/x" "timed out" 5 initial_world)
           eq_refl).
Defined.

Lemma malformed_body_outcome_witness :
  (crossref_search (garbled_env "Expecting value") sample_config "ore" 5
     initial_world).1 = Raise (ValueError "Expecting value").
Proof.
  exact (proj1 (proj2 (malformed_body_outcome (garbled_env "Expecting value")
                         sample_config "ore" "10.1/x" "Expecting value" 5
                         initial_world))
           eq_refl).
Defined.

(** ** More on strings: [strip], [replace] and tag removal *)

Section StripReplace.

#[local] Arguments String.append : simpl nomatch.

Lemma drop_while_fixed p s :
  match s with EmptyString => True | String c _ => p c = false end →
  Py.drop_while p s = s.
Proof. destruct s as [|c s]; simpl; [done|]. by intros ->. Qed.

Lemma drop_while_head p s :
  match Py.drop_while p s with
  | EmptyString => True
  | String c _ => p c = false
  end.
Proof.
  induction s as [|c s IH]; simpl; [done|].
  destruct (p c) eqn:Hc; [exact IH|]. simpl. exact Hc.
Qed.

Lemma rstrip_by_head p s :
  match s with EmptyString => True | String c _ => p c = false end →
  match Py.rstrip_by p s with
  | EmptyString => True
  | String c _ => p c = false
  end.
Proof.
  destruct s as [|c s]; simpl; [done|]. intros Hc.
  destruct (Py.rstrip_by p s); [by rewrite Hc|done].
Qed.

(** Stripping a stripped string changes nothing. *)
Lemma strip_idem s : Py.strip (Py.strip s) = Py.strip s.
Proof.
  unfold Py.strip.
  rewrite (drop_while_fixed Py.is_space (Py.rstrip_by _ _)).
  - apply rstrip_by_idem.
  - apply rstrip_by_head, drop_while_head.
Qed.

(** Replacing a character by a text that does not hold it leaves no
    occurrence of it. *)
Lemma replace_char_gone c new s :
  all_chars (λ x, negb (Ascii.eqb x c)) new = true →
  all_chars (λ x, negb (Ascii.eqb x c))
            (Py.replace s (String c EmptyString) new) = true.
Proof.
  intros Hnew. unfold Py.replace.
  induction s as [|d s IH]; simpl; [done|].
  destruct (ascii_dec c d) as [->|Hne].
  - rewrite prefix_nil, all_chars_app, Hnew. exact IH.
  - simpl. rewrite IH, andb_true_r. apply negb_true_iff, Ascii.eqb_neq.
    congruence.
Qed.

Lemma contains_char_false c s :
  all_chars (λ x, negb (Ascii.eqb x c)) s = true →
  Py.contains (String c EmptyString) s = false.
Proof.
  induction s as [|d s IH]; simpl; [done|].
  intros [Hd Hs]%andb_true_iff. rewrite (IH Hs), orb_false_r.
  destruct (ascii_dec c d) as [->|]; [|done].
  by rewrite Ascii.eqb_refl in Hd.
Qed.

Lemma contains_app needle pre rest :
  Py.contains needle (pre +:+ needle +:+ rest) = true.
Proof.
  assert (Hp : ∀ h, String.prefix needle h = true →
                    Py.contains needle h = true).
  { intros [|d h]; simpl; by intros ->. }
  induction pre as [|c pre IH]; simpl.
  - apply Hp, prefix_app.
  - by rewrite IH, orb_true_r.
Qed.

(** The leftmost match of [search] sits somewhere in the text. *)
Lemma search_inv (m : string → option string) s x :
  Re.search m s = Some x → ∃ pre t, s = pre +:+ t ∧ m t = Some x.
Proof.
  induction s as [|c s IH]; simpl.
  - destruct (m EmptyString) eqn:H; [|done]. intros [= <-].
    by exists EmptyString, EmptyString.
  - destruct (m (String c s)) eqn:H.
    + intros [= <-]. by exists EmptyString, (String c s).
    + intros (pre & t & -> & Ht)%IH. by exists (String c pre), t.
Qed.

Lemma group_after_inv l p s b :
  Re.group_after l p s = Some b →
  b ≠ EmptyString ∧ all_chars p b = true ∧ ∃ rest, s = l +:+ b +:+ rest.
Proof.
  unfold Re.group_after.
  destruct (Re.lit l s) as [tail|] eqn:Hl; [|done].
  apply lit_inv in Hl as ->.
  destruct (Py.span p tail) as [body rest] eqn:Hs.
  apply span_inv in Hs as (-> & Hb & _).
  destruct body; [done|]. intros [= <-]. split_and!; [done|done|by eexists].
Qed.

End StripReplace.

(** ** Tag removal *)

Section Tags.

#[local] Arguments String.append : simpl nomatch.

Lemma not_gt_false d : not_gt d = false → d = ">"%char.
Proof.
  unfold not_gt, Py.code. intros H%negb_false_iff%N.eqb_eq.
  by rewrite <- (ascii_N_embedding d), H.
Qed.

Lemma tag_pattern_inv s x :
  Re.tag_pattern s = Some x →
  ∃ body rest, s = "<" +:+ body +:+ ">" +:+ rest ∧ x = "<" +:+ body +:+ ">"
               ∧ body ≠ EmptyString ∧ all_chars not_gt body = true.
Proof.
  unfold Re.tag_pattern. destruct s as [|c tail]; [done|].
  destruct (ascii_dec c "<") as [->|Hc];
    [|by destruct c as [[] [] [] [] [] [] [] []]].
  fold not_gt. destruct (Py.span _ tail) as [body rest] eqn:Hs.
  apply span_inv in Hs as (-> & Hb & _).
  destruct body as [|b body]; [done|]. destruct rest as [|d rest]; [done|].
  destruct (ascii_dec d ">") as [->|Hd];
    [|by destruct d as [[] [] [] [] [] [] [] []]].
  intros [= <-]. exists (String b body), rest.
  split_and!; done.
Qed.

Lemma tag_pattern_intro body rest :
  body ≠ EmptyString → all_chars not_gt body = true →
  Re.tag_pattern ("<" +:+ body +:+ ">" +:+ rest) = Some ("<" +:+ body +:+ ">").
Proof.
  intros Hne Hb. unfold Re.tag_pattern. simpl. fold not_gt.
  rewrite (span_app not_gt body (String ">" rest) Hb) by done.
  by destruct body.
Qed.

(** A tag found in a text is found in every extension of the text. *)
Lemma tag_pattern_extend s x b :
  Re.tag_pattern s = Some x → Re.tag_pattern (s +:+ b) = Some x.
Proof.
  intros (body & rest & -> & -> & Hne & Hb)%tag_pattern_inv.
  replace (("<" +:+ body +:+ ">" +:+ rest) +:+ b)
    with ("<" +:+ body +:+ ">" +:+ (rest +:+ b)).
  - by apply tag_pattern_intro.
  - simpl. f_equal. rewrite string_app_assoc. done.
Qed.

Lemma search_tag_prefix u b :
  Re.search Re.tag_pattern (u +:+ b) = None →
  Re.search Re.tag_pattern u = None.
Proof.
  induction u as [|c u IH].
  - intros _. done.
  - change (String c u +:+ b) with (String c (u +:+ b)).
    cbn [Re.search].
    destruct (Re.tag_pattern (String c u)) as [x|] eqn:Hx.
    + pose proof (tag_pattern_extend (String c u) x b Hx) as Hx'.
      change (String c u +:+ b) with (String c (u +:+ b)) in Hx'.
      by rewrite Hx'.
    + destruct (Re.tag_pattern (String c (u +:+ b))); [done|]. exact IH.
Qed.

Lemma search_tag_suffix a t :
  Re.search Re.tag_pattern (a +:+ t) = None →
  Re.search Re.tag_pattern t = None.
Proof.
  induction a as [|c a IH]; [done|].
  change (String c a +:+ t) with (String c (a +:+ t)). cbn [Re.search].
  destruct (Re.tag_pattern (String c (a +:+ t))); [done|]. exact IH.
Qed.

Lemma drop_while_suffix p s : ∃ a, s = a +:+ Py.drop_while p s.
Proof.
  induction s as [|c s [a IH]]; simpl; [by exists EmptyString|].
  destruct (p c); [|by exists EmptyString].
  exists (String c a). simpl. by rewrite <- IH.
Qed.

Lemma search_tag_strip s :
  Re.search Re.tag_pattern s = None →
  Re.search Re.tag_pattern (Py.strip s) = None.
Proof.
  intros H. unfold Py.strip.
  destruct (drop_while_suffix Py.is_space s) as [a Ha].
  rewrite Ha in H. apply search_tag_suffix in H.
  destruct (rstrip_by_prefix Py.is_space (Py.drop_while Py.is_space s))
    as [b Hb].
  rewrite Hb in H. by apply search_tag_prefix in H.
Qed.

Lemma remove_go_skip (m : string → option string) k s :
  Re.remove_go m k s = Re.remove_go m 0 (Py.drop k s).
Proof.
  revert k. induction s as [|c s IH]; intros [|k]; simpl; done.
Qed.

Lemma remove_go_all_chars (m : string → option string) p k s :
  all_chars p s = true → all_chars p (Re.remove_go m k s) = true.
Proof.
  revert k. induction s as [|c s IH]; intros k; simpl; [done|].
  intros [Hc Hs]%andb_true_iff.
  destruct k; [|by apply IH].
  destruct (m (String c s)); [by apply IH|]. simpl. by rewrite Hc, IH.
Qed.

Lemma tag_pattern_lt_none out :
  match out with
  | EmptyString => True
  | String d _ => d = ">"%char
  end ∨ all_chars not_gt out = true →
  Re.tag_pattern (String "<" out) = None.
Proof.
  unfold Re.tag_pattern. fold not_gt. intros [H|H].
  - destruct out as [|d out]; [done|]. by subst d.
  - pose proof (span_app not_gt out EmptyString H I) as Hspan.
    rewrite string_app_nil_r in Hspan. rewrite Hspan. by destruct out.
Qed.

(** Removing the tags of a text leaves a text without a tag. *)
Lemma remove_all_tags_gone s :
  Re.search Re.tag_pattern (Re.remove_all Re.tag_pattern s) = None.
Proof.
  unfold Re.remove_all.
  assert (H : ∀ n t, (String.length t < n)%nat →
    Re.search Re.tag_pattern (Re.remove_go Re.tag_pattern 0 t) = None);
    [|apply (H (S (String.length s))); lia].
  clear s. induction n as [|n IH]; intros s Hn; [lia|].
  assert (IH' : ∀ t, (String.length t < String.length s)%nat →
    Re.search Re.tag_pattern (Re.remove_go Re.tag_pattern 0 t) = None).
  { intros t Ht. apply IH. lia. }
  clear IH. destruct s as [|c s]; [done|]. cbn [Re.remove_go].
  destruct (Re.tag_pattern (String c s)) as [x|] eqn:Hx.
  - apply tag_pattern_inv in Hx as (body & rest & Hs & -> & Hne & Hb).
    simpl in Hs. injection Hs as -> ->.
    rewrite remove_go_skip. simpl.
    rewrite string_length_app. simpl.
    replace (String.length body + 1 - 0)%nat
      with (String.length body + 1)%nat by lia.
    replace (body +:+ String ">" rest) with ((body +:+ ">") +:+ rest)
      by (by rewrite string_app_assoc).
    replace (String.length body + 1)%nat with (String.length (body +:+ ">"))
      by (by rewrite string_length_app).
    rewrite drop_app. apply IH'. simpl.
    rewrite !string_length_app. simpl. lia.
  - assert (Hrest : Re.search Re.tag_pattern
                      (Re.remove_go Re.tag_pattern 0 s) = None)
      by (apply IH'; simpl; lia).
    cbn [Re.search].
    assert (Hhead : Re.tag_pattern
                      (String c (Re.remove_go Re.tag_pattern 0 s)) = None);
      [|by rewrite Hhead].
    destruct (ascii_dec c "<") as [->|Hc];
      [|by destruct c as [[] [] [] [] [] [] [] []]].
    apply tag_pattern_lt_none.
    unfold Re.tag_pattern in Hx. fold not_gt in Hx.
    destruct (Py.span _ s) as [body rest] eqn:Hs.
    apply span_inv in Hs as (-> & Hb & Hr).
    destruct body as [|b body].
    + left. destruct rest as [|d rest]; [done|]. simpl in Hr |- *.
      apply not_gt_false in Hr as ->. done.
    + destruct rest as [|d rest].
      * right. rewrite string_app_nil_r. by apply remove_go_all_chars.
      * simpl in Hr. apply not_gt_false in Hr as ->. done.
Qed.

End Tags.

(** ** The adapters: what a record made from a provider's payload holds *)

Section Adapters.

Lemma truthy_nonempty s : Py.truthy s = true ↔ s ≠ EmptyString.
Proof.
  unfold Py.truthy. rewrite negb_true_iff.
  destruct (String.eqb_spec s EmptyString); split; congruence.
Qed.

Lemma crossref_date_year_nonzero d : crossref_date_year d ≠ Some 0.
Proof.
  unfold crossref_date_year.
  destruct (d ≫= date_parts) as [[|[|[y|] ?] ?]|]; try done.
  destruct (Z.eqb_spec y 0); congruence.
Qed.



(** Unpaywall: the status is CLOSED exactly when the answer does not say
    the work is open; a closed answer carries neither URL nor licence; the
    four colour names map to their colours and every other name to UNKNOWN;
    the URL is the location's PDF URL whenever that one is non-empty. *)
Theorem unpaywall_oa_info_status (data : UnpaywallData) :
  let info := unpaywall_oa_info data in
  (info_status info = CLOSED ↔ up_is_oa data ≠ Some true)
  ∧ (info_status info = CLOSED →
       info_url info = None ∧ info_license info = None)
  ∧ (up_is_oa data = Some true →
       ∀ name, up_oa_status data = Some name →
         (name = "gold" → info_status info = GOLD)
         ∧ (name = "green" → info_status info = GREEN)
         ∧ (name = "hybrid" → info_status info = HYBRID)
         ∧ (name = "bronze" → info_status info = BRONZE)
         ∧ (name ∉ ["gold"; "green"; "hybrid"; "bronze"] →
              info_status info = UNKNOWN))
  ∧ (up_is_oa data = Some true →
       ∀ loc u, up_best_oa_location data = Some loc →
         url_for_pdf loc = Some u → u ≠ EmptyString →
         info_url info = Some u).
Proof.
  unfold unpaywall_oa_info.
  destruct (up_is_oa data) as [[]|] eqn:Hoa; simpl;
    [|split_and!; (done || (split; congruence))..].
  assert (Hmap : ∀ s, default UNKNOWN (status_map s) ≠ CLOSED).
  { intros s. unfold status_map. by repeat case_match. }
  split_and!.
  - split; [by intros ?%Hmap|congruence].
  - by intros ?%Hmap.
  - intros _ name ->. simpl. unfold status_map. split_and!.
    + by intros ->.
    + by intros ->.
    + by intros ->.
    + by intros ->.
    + intros Hn. rewrite !elem_of_cons in Hn.
      destruct (String.eqb_spec name "gold"); [tauto|].
      destruct (String.eqb_spec name "green"); [tauto|].
      destruct (String.eqb_spec name "hybrid"); [tauto|].
      destruct (String.eqb_spec name "bronze"); [tauto|]. done.
  - intros _ loc u -> Hu Hne. simpl. unfold Py.or_opt. rewrite Hu. simpl.
    by rewrite (proj2 (truthy_nonempty u) Hne).
Qed.

(** OpenAlex record: the title is never empty, no author name is empty, a
    DOI given as a doi.org address is stored without the address prefix and
    any other DOI as it is, and the status is GREEN exactly when the work is
    marked open, with no other status possible. *)
Theorem openalex_metadata_normalised (item : OpenAlexWork) :
  let m := openalex_to_metadata item in
  title m ≠ EmptyString
  ∧ Forall (λ a, a ≠ EmptyString) (authors m)
  ∧ (∀ d, ox_doi item = Some ("https://doi.org/" +:+ d) → doi m = Some d)
  ∧ (∀ d, ox_doi item = Some d → Py.startswith d "https://doi.org/" = false →
       doi m = Some d)
  ∧ (doi m = None ↔ ox_doi item = None)
  ∧ (oa_status m = Some GREEN ↔
       (ox_open_access item ≫= is_oa) = Some true)
  ∧ (oa_status m = Some GREEN ∨ oa_status m = None).
Proof.
  unfold openalex_to_metadata. cbn [title authors doi oa_status].
  split_and!.
  - unfold Py.or_str. destruct (ox_title item) as [t|]; [|done].
    destruct (Py.truthy t) eqn:Ht; [by apply truthy_nonempty|done].
  - apply Forall_forall. intros a (x & Hx & Ha)%list_elem_of_omap.
    destruct x as [s|]; [|done]. destruct (Py.truthy s) eqn:Ht; [|done].
    injection Ha as <-. by apply truthy_nonempty.
  - intros d ->. unfold Py.startswith.
    rewrite (prefix_app "https://doi.org/" d). simpl. done.
  - intros d -> ->. by rewrite andb_false_r.
  - destruct (ox_doi item) as [d|]; [|done].
    split; [|done]. by destruct (_ && _).
  - destruct (ox_open_access item) as [[[[]|] ?]|]; simpl;
      split; congruence.
  - destruct (truthy_bool _); auto.
Qed.

(** arXiv record: always GREEN and without DOI; the title is on one line;
    author names and abstract are stripped; an identifier, when found, is
    non-empty and follows [arxiv.org/abs/] in the entry's stripped id, and
    then the record has a PDF address. *)
Theorem arxiv_entry_record (entry : ArxivEntry) :
  let m := arxiv_entry_to_metadata entry in
  oa_status m = Some GREEN ∧ doi m = None
  ∧ Py.contains (String "010"%char EmptyString) (title m) = false
  ∧ Forall (λ a, Py.strip a = a) (authors m)
  ∧ (∀ a, abstract m = Some a → Py.strip a = a)
  ∧ (∀ i, arxiv_id m = Some i →
       i ≠ EmptyString
       ∧ Py.contains ("arxiv.org/abs/" +:+ i)
           (from_option Py.strip EmptyString (ax_id entry)) = true
       ∧ is_Some (oa_url m)).
Proof.
  unfold arxiv_entry_to_metadata.
  cbn [oa_status doi title authors abstract arxiv_id oa_url].
  split_and!; [done|done|..].
  - apply contains_char_false.
    destruct (ax_title entry) as [t|]; [|done].
    by apply replace_char_gone.
  - apply Forall_forall. intros a (x & Hx & Ha)%list_elem_of_omap.
    destruct x as [s|]; [|done]. injection Ha as <-. apply strip_idem.
  - intros a. destruct (ax_summary entry) as [s|]; [|done].
    intros [= <-]. apply strip_idem.
  - intros i (pre & t & Hs & Hg)%search_inv.
    apply group_after_inv in Hg as (Hne & _ & rest & ->).
    split_and!; [done| |].
    + rewrite Hs, <- (string_app_assoc "arxiv.org/abs/" i rest).
      apply contains_app.
    + rewrite Hs. destruct (Py.truthy _) eqn:Ht; [done|].
      apply negb_false_iff, String.eqb_eq in Ht.
      by destruct pre.
Qed.

End Adapters.

(** ** What touches the output directory *)

Lemma keeps_files_ret {A} (a : A) : keeps_files (mret a : M A).
Proof. by intros w. Qed.

Lemma keeps_files_raise {A} (e : exn) : keeps_files (raise (A := A) e).
Proof. by intros w. Qed.

Lemma keeps_files_bind {A B} (m : M A) (f : A → M B) :
  keeps_files m → (∀ a, keeps_files (f a)) → keeps_files (m ≫= f).
Proof.
  intros Hm Hf w. rewrite bind_run. specialize (Hm w).
  destruct (m w) as [[a|e] w']; simpl in *; [|done].
  by rewrite (Hf a w').
Qed.

Lemma keeps_files_try {A} (m : M A) (h : exn → M A) :
  keeps_files m → (∀ e, keeps_files (h e)) → keeps_files (try_except m h).
Proof.
  intros Hm Hh w. unfold try_except. specialize (Hm w).
  destruct (m w) as [[a|e] w']; simpl in *; [done|].
  by rewrite (Hh e w').
Qed.

Lemma keeps_files_for_each {A S} (body : A → S → M S) (l : list A) (s : S) :
  (∀ x s, keeps_files (body x s)) → keeps_files (for_each body l s).
Proof.
  intros Hb. revert s. induction l as [|x l IH]; intros s; simpl.
  - apply keeps_files_ret.
  - apply keeps_files_bind; [apply Hb|apply IH].
Qed.

Lemma keeps_files_log lvl msg : keeps_files (log lvl msg).
Proof. by intros w. Qed.

Lemma keeps_files_record_request r : keeps_files (record_request r).
Proof. by intros w. Qed.

Lemma keeps_files_sleep d : keeps_files (sleep d).
Proof. by intros w. Qed.

Lemma keeps_files_set_last t : keeps_files (set_last_request_time t).
Proof. by intros w. Qed.

Lemma keeps_files_get_world : keeps_files get_world.
Proof. by intros w. Qed.

Lemma keeps_files_time env : keeps_files (time_time env).
Proof. by intros w. Qed.

Create HintDb keeps_files.
#[export] Hint Resolve keeps_files_ret keeps_files_raise keeps_files_log
  keeps_files_record_request keeps_files_sleep keeps_files_set_last
  keeps_files_get_world keeps_files_time : keeps_files.

Ltac keeps_files_tac :=
  repeat first
    [ progress (auto with keeps_files)
    | apply keeps_files_bind; [|intros ?]
    | apply keeps_files_try; [|intros ?]
    | apply keeps_files_for_each; intros ? ?
    | match goal with
      | |- keeps_files (if ?b then _ else _) => destruct b
      | |- keeps_files (match ?x with _ => _ end) => destruct x
      | |- keeps_files (let '(_, _) := ?x in _) => destruct x
      end ].

Section Frame.

Variable env : Env.
Variable config : Config.

Lemma keeps_files_get {T} (api : list Request → Request → Reply T) u params :
  keeps_files (_get env config api u params).
Proof. unfold _get, _throttle. keeps_files_tac. Qed.

Lemma keeps_files_json {T} (resp : Response T) : keeps_files (json resp).
Proof. unfold json. keeps_files_tac. Qed.

Hint Resolve keeps_files_get keeps_files_json : keeps_files.

Lemma keeps_files_enrich_oa meta : keeps_files (_enrich_oa env config meta).
Proof.
  unfold _enrich_oa, attribute, unpaywall_check, openalex_lookup_doi.
  keeps_files_tac.
Qed.

Lemma keeps_files_search_merge q n : keeps_files (search_merge env config q n).
Proof.
  pose proof keeps_files_enrich_oa.
  unfold search_merge, arxiv_search, crossref_search, openalex_search,
    arxiv_step, crossref_step, openalex_step, attribute.
  keeps_files_tac.
Qed.

Lemma keeps_files_search_ad_hoc q n :
  keeps_files (search_ad_hoc env config q n).
Proof.
  pose proof keeps_files_search_merge. unfold search_ad_hoc. keeps_files_tac.
Qed.

Lemma keeps_files_process_entry entry :
  keeps_files (_process_entry env config entry).
Proof.
  pose proof keeps_files_enrich_oa.
  unfold _process_entry, process_entry_body, _process_url, _process_doi,
    crossref_lookup_doi.
  keeps_files_tac.
Qed.

(** Only the download writes: the searches, the processing of a paper list
    and the CORE search leave every file of the output directory as it was,
    whatever the providers answer and whether or not they raise. *)
Theorem only_download_writes_files (q path : string) (topics : list string)
    (n : Z) :
  keeps_files (search_ad_hoc env config q n)
  ∧ keeps_files (search_by_topics env config topics n)
  ∧ keeps_files (process_paper_list env config path)
  ∧ keeps_files (core_search env config q n).
Proof.
  pose proof keeps_files_search_ad_hoc.
  pose proof keeps_files_process_entry.
  split_and!.
  - done.
  - unfold search_by_topics. keeps_files_tac.
  - unfold process_paper_list, _parse_paper_list. keeps_files_tac.
  - unfold core_search, _throttle. keeps_files_tac.
Qed.

End Frame.

(** ** OA enrichment with a contact email *)

Section Enrichment.

Variable env : Env.
Variable config : Config.

Lemma get_body {T} (api : list Request → Request → Reply T) u params w v :
  api (requests w) {| req_url := u; req_params := params |} = Body v →
  ∃ w', _get env config api u params w = (Ok (Some (Parsed v)), w')
    ∧ logs w' = logs w.
Proof.
  intros Hreply.
  destruct (get_spec env config api u params w) as (w' & r & Hget & _ & _ & _ & H).
  rewrite Hreply in H. destruct H as [-> Hl]. eauto.
Qed.

Lemma get_requests {T} (api : list Request → Request → Reply T) u params w r w' :
  _get env config api u params w = (r, w') →
  requests w' = requests w ++ [{| req_url := u; req_params := params |}].
Proof.
  intros H.
  destruct (get_spec env config api u params w) as (w1 & r1 & Hget & Hr & _).
  rewrite H in Hget. by injection Hget as -> ->.
Qed.

(** The OpenAlex lookup, by what the service answers. *)
Lemma openalex_lookup_doi_spec d w :
  let req := openalex_work_request config d in
  let run := openalex_lookup_doi env config d w in
  requests run.2 = requests w ++ [req]
  ∧ match openalex_work_api env (requests w) req with
    | Body v => run.1 = Ok v
    | Refused _ => run.1 = Ok None
    | Malformed text => run.1 = Raise (ValueError text)
    end.
Proof.
  unfold openalex_lookup_doi, openalex_work_request. simpl. rewrite bind_run.
  destruct (_get _ _ _ _ _ w) as [r w'] eqn:Hget.
  pose proof (get_requests _ _ _ _ _ _ Hget) as Hr.
  destruct (openalex_work_api env (requests w) _) as [text|text|v] eqn:Hreply.
  - eapply get_refused in Hreply as (w1 & Hget1 & _).
    rewrite Hget in Hget1. injection Hget1 as -> ->. done.
  - eapply get_malformed in Hreply as (w1 & Hget1 & _).
    rewrite Hget in Hget1. injection Hget1 as -> ->. done.
  - eapply get_body in Hreply as (w1 & Hget1 & _).
    rewrite Hget in Hget1. injection Hget1 as -> ->. done.
Qed.

Lemma unpaywall_check_spec d w :
  Py.truthy (contact_email config) = true →
  let req := unpaywall_request config d in
  let run := unpaywall_check env config d w in
  requests run.2 = requests w ++ [req]
  ∧ match unpaywall_api env (requests w) req with
    | Body v => run.1 = Ok v
    | Refused _ => run.1 = Ok None
    | Malformed text => run.1 = Raise (ValueError text)
    end.
Proof.
  intros He. unfold unpaywall_check, unpaywall_request, email. rewrite He.
  simpl. rewrite bind_run.
  destruct (_get _ _ _ _ _ w) as [r w'] eqn:Hget.
  pose proof (get_requests _ _ _ _ _ _ Hget) as Hr.
  destruct (unpaywall_api env (requests w) _) as [text|text|v] eqn:Hreply.
  - eapply get_refused in Hreply as (w1 & Hget1 & _).
    rewrite Hget in Hget1. injection Hget1 as -> ->. done.
  - eapply get_malformed in Hreply as (w1 & Hget1 & _).
    rewrite Hget in Hget1. injection Hget1 as -> ->. done.
  - eapply get_body in Hreply as (w1 & Hget1 & _).
    rewrite Hget in Hget1. injection Hget1 as -> ->. done.
Qed.

Lemma openalex_verdict_default m work :
  (if truthy_bool
        (is_oa (default {| is_oa := None; open_access_oa_url := None |}
                        (ox_open_access work)))
   then with_oa m (Some GREEN)
          (open_access_oa_url
             (default {| is_oa := None; open_access_oa_url := None |}
                      (ox_open_access work)))
          (license m)
   else m) = openalex_verdict m work.
Proof. unfold openalex_verdict. by destruct (ox_open_access work). Qed.

(** With a contact email and a record that has a DOI, Unpaywall is asked
    first and its answer is final: a non-empty answer sets the three OA
    fields from it and OpenAlex is not asked; an empty answer or a refusal
    hands over to OpenAlex, asked second, whose work marks the record green
    exactly when it says the work is open; a body that does not parse, from
    either service, raises. *)
Theorem enrich_oa_with_contact_email (m : PaperMetadata) (d : string)
    (w : World) :
  Py.truthy (contact_email config) = true →
  doi m = Some d → Py.truthy d = true →
  let up := unpaywall_api env (requests w) (unpaywall_request config d) in
  let ox := openalex_work_api env (requests w ++ [unpaywall_request config d])
              (openalex_work_request config d) in
  let run := _enrich_oa env config (Some m) w in
  (∀ data, up = Body (Some data) →
     let oa := unpaywall_oa_info data in
     run.1 = Ok (with_oa m (Some (info_status oa)) (info_url oa)
                         (info_license oa))
     ∧ requests run.2 = requests w ++ [unpaywall_request config d])
  ∧ (∀ text, up = Malformed text →
       run.1 = Raise (ValueError text)
       ∧ requests run.2 = requests w ++ [unpaywall_request config d])
  ∧ (up = Body None ∨ (∃ text, up = Refused text) →
       requests run.2 = requests w ++ [unpaywall_request config d;
                                       openalex_work_request config d]
       ∧ (∀ work, ox = Body (Some work) →
            run.1 = Ok (openalex_verdict m work))
       ∧ (ox = Body None ∨ (∃ text, ox = Refused text) → run.1 = Ok m)
       ∧ (∀ text, ox = Malformed text → run.1 = Raise (ValueError text))).
Proof.
  intros He Hd Ht. cbv zeta.
  unfold _enrich_oa. simpl. rewrite bind_run. simpl.
  rewrite Hd. simpl. rewrite Ht, He. simpl. rewrite bind_run.
  destruct (unpaywall_check_spec d w He) as [Hr Hup]. simpl in Hr, Hup.
  destruct (unpaywall_check env config d w) as [o w1]. simpl in Hr, Hup.
  assert (Hfall : ∀ o1, o = Ok None →
    let run := (openalex_lookup_doi env config d ≫= o1) w1 in
    (∀ a, o1 a = match a with
                 | Some work =>
                     if truthy_bool
                          (is_oa (default {| is_oa := None;
                                             open_access_oa_url := None |}
                                    (ox_open_access work)))
                     then mret (with_oa m (Some GREEN)
                            (open_access_oa_url
                               (default {| is_oa := None;
                                           open_access_oa_url := None |}
                                        (ox_open_access work)))
                            (license m))
                     else mret m
                 | None => mret m
                 end) →
    requests run.2 = requests w ++ [unpaywall_request config d;
                                    openalex_work_request config d]
    ∧ (∀ work, openalex_work_api env
                 (requests w ++ [unpaywall_request config d])
                 (openalex_work_request config d) = Body (Some work) →
         run.1 = Ok (openalex_verdict m work))
    ∧ (openalex_work_api env (requests w ++ [unpaywall_request config d])
         (openalex_work_request config d) = Body None
       ∨ (∃ text, openalex_work_api env
                    (requests w ++ [unpaywall_request config d])
                    (openalex_work_request config d) = Refused text) →
       run.1 = Ok m)
    ∧ (∀ text, openalex_work_api env
                 (requests w ++ [unpaywall_request config d])
                 (openalex_work_request config d) = Malformed text →
         run.1 = Raise (ValueError text))).
  { intros o1 _ run Ho1. subst run. rewrite bind_run.
    destruct (openalex_lookup_doi_spec d w1) as [Hr1 Hox]. simpl in Hr1, Hox.
    rewrite Hr in Hox.
    destruct (openalex_lookup_doi env config d w1) as [o2 w2].
    simpl in Hr1, Hox.
    assert (Hreq : ∀ a, requests (o1 a w2).2
                        = requests w ++ [unpaywall_request config d;
                                         openalex_work_request config d]).
    { intros a. rewrite Ho1.
      replace (requests w ++ [_; _]) with (requests w2)
        by (rewrite Hr1, Hr, <- app_assoc; done).
      destruct a as [work|]; [|done]. by destruct (truthy_bool _). }
    split_and!.
    - destruct o2 as [a|e]; [apply Hreq|].
      simpl. by rewrite Hr1, Hr, <- app_assoc.
    - intros work Hw. rewrite Hw in Hox. subst o2. rewrite Ho1.
      rewrite <- openalex_verdict_default. by destruct (truthy_bool _).
    - intros [Hw|[text Hw]]; rewrite Hw in Hox; subst o2; by rewrite Ho1.
    - intros text Hw. rewrite Hw in Hox. by subst o2. }
  split_and!.
  - intros data Hdata. rewrite Hdata in Hup. subst o. done.
  - intros text Htext. rewrite Htext in Hup. subst o. done.
  - intros Hnone.
    assert (o = Ok None) as ->.
    { destruct Hnone as [H|[text H]]; by rewrite H in Hup. }
    by apply Hfall.
Qed.

(** Enrichment changes the OA fields only: whatever it returns carries the
    title, authors, DOI, arXiv identifier, year, journal, abstract and
    keywords of the record it was given. *)
Theorem enrich_oa_keeps_bibliography (m m' : PaperMetadata) (w w' : World) :
  _enrich_oa env config (Some m) w = (Ok m', w') →
  title m' = title m ∧ authors m' = authors m ∧ doi m' = doi m
  ∧ arxiv_id m' = arxiv_id m ∧ publication_year m' = publication_year m
  ∧ journal m' = journal m ∧ abstract m' = abstract m
  ∧ keywords m' = keywords m.
Proof.
  intros H. apply enrich_oa_cases in H as [->|[[data ->]|[u ->]]]; done.
Qed.

End Enrichment.

Lemma enrich_oa_with_contact_email_witness :
  let m := sample_metadata "Ore deposits" (Some "10.1016/j.x.1") None in
  let run := _enrich_oa (lookup_env None (Some gold_answer) None None
                           (FetchRaised (RequestException "down")))
               mail_config (Some m) initial_world in
  run.1 = Ok (with_oa m (Some GOLD)
                (Some "https://publisher.example.org/a.pdf") (Some "cc-by"))
  ∧ requests run.2 = [unpaywall_request mail_config "10.1016/j.x.1"].
Proof.
  refine (proj1 (enrich_oa_with_contact_email
            (lookup_env None (Some gold_answer) None None
               (FetchRaised (RequestException "down")))
            mail_config
            (sample_metadata "Ore deposits" (Some "10.1016/j.x.1") None)
            "10.1016/j.x.1" initial_world eq_refl eq_refl eq_refl)
          gold_answer eq_refl).
Defined.

Lemma enrich_oa_keeps_bibliography_witness :
  let m := sample_metadata "Ore deposits" (Some "10.1016/j.x.1") None in
  let m' := with_oa m (Some GOLD) (Some "https://publisher.example.org/a.pdf")
              (Some "cc-by") in
  title m' = title m ∧ authors m' = authors m ∧ doi m' = doi m
  ∧ arxiv_id m' = arxiv_id m ∧ publication_year m' = publication_year m
  ∧ journal m' = journal m ∧ abstract m' = abstract m
  ∧ keywords m' = keywords m.
Proof.
  intros m m'.
  eapply (enrich_oa_keeps_bibliography
            (lookup_env None (Some gold_answer) None None
               (FetchRaised (RequestException "down")))
            mail_config m m' initial_world).
  vm_compute. reflexivity.
Defined.

(** ** The results of a search *)

Section SearchResults.

Variable env : Env.
Variable config : Config.

Lemma search_result_shaped m : search_shaped (search_result m).
Proof.
  exists m. unfold search_result, state_of, doi_url. simpl.
  split_and!; [done|done|done| |].
  - destruct (Py.truthy_opt (oa_url m)); auto.
  - destruct (doi m) as [d|] eqn:Hd; simpl; [|by left].
    destruct (Py.truthy d); [|by left]. right. right. by exists d.
Qed.

Lemma arxiv_result_shaped m : search_shaped (arxiv_result m).
Proof.
  exists m. unfold arxiv_result. simpl.
  split_and!; [done|done|done|by left|].
  destruct (arxiv_id m) as [i|] eqn:Hi; simpl; [|by left].
  destruct (Py.truthy i); [|by left]. right. left. by exists i.
Qed.

Lemma derived_shaped c r : derived env config c r → search_shaped r.
Proof.
  destruct c as [[] m]; unfold derived; simpl.
  - intros ->. apply arxiv_result_shaped.
  - intros (m' & _ & ->). apply search_result_shaped.
  - intros (m' & _ & ->). apply search_result_shaped.
Qed.

Lemma slice_to_length {A} (l : list A) n :
  0 ≤ n → Z.of_nat (length (Py.slice_to l n)) ≤ n.
Proof.
  intros Hn. unfold Py.slice_to. destruct (Z.leb_spec 0 n); [|lia].
  rewrite length_take. lia.
Qed.

Lemma search_ad_hoc_shaped q n w w' rs :
  search_ad_hoc env config q n w = (Ok rs, w') →
  (0 ≤ n → Z.of_nat (length rs) ≤ n)
  ∧ Forall search_shaped rs.
Proof.
  unfold search_ad_hoc. intros H. ok_inv H. apply ret_ok_inv in H as [<- <-].
  split; [apply slice_to_length|].
  apply search_merge_run in Hrun as (A & C & O & Hrun).
  apply search_run_refines in Hrun.
  apply Forall_forall. intros r Hr%slice_to_subset.
  destruct (Forall2_elem_of_r _ _ _ _ Hrun Hr) as (c & _ & Hc).
  by eapply derived_shaped.
Qed.

(** A search returns at most [max_results] results when that number is not
    negative, and every result has the shape of a search result: a record,
    no error, no time, never failed. *)
Theorem search_ad_hoc_results_shape (q : string) (n : Z) (w w' : World)
    (rs : list ProcessingResult) :
  search_ad_hoc env config q n w = (Ok rs, w') →
  (0 ≤ n → Z.of_nat (length rs) ≤ n)
  ∧ Forall search_shaped rs.
Proof. apply search_ad_hoc_shaped. Qed.

Lemma search_by_topics_shaped topics n w w' rs :
  search_by_topics env config topics n w = (Ok rs, w') →
  (0 ≤ n → Z.of_nat (length rs) ≤ Z.of_nat (length topics) * n)
  ∧ Forall search_shaped rs.
Proof.
  unfold search_by_topics.
  assert (H : ∀ acc w,
    for_each (λ topic all_results,
                log INFO ("Topic search: " +:+ topic);;
                rs ← search_ad_hoc env config topic n;
                mret (all_results ++ rs)) topics acc w = (Ok rs, w') →
    (0 ≤ n → Z.of_nat (length rs)
             ≤ Z.of_nat (length acc) + Z.of_nat (length topics) * n)
    ∧ (Forall search_shaped acc → Forall search_shaped rs)).
  { induction topics as [|t topics IH]; intros acc w0; simpl.
    - intros [= -> ->]. split; [lia|done].
    - intros H. apply bind_ok_inv in H as (acc1 & w1 & Hbody & H).
      apply bind_ok_inv in Hbody as ([] & w2 & _ & Hbody).
      apply bind_ok_inv in Hbody as (rs1 & w3 & Hs & Hret).
      apply ret_ok_inv in Hret as [<- <-].
      destruct (search_ad_hoc_shaped _ _ _ _ _ Hs) as [Hlen Hsh].
      apply IH in H as [Hlen' Hsh']. split.
      + intros Hn. specialize (Hlen Hn). specialize (Hlen' Hn).
        rewrite length_app in Hlen'. lia.
      + intros Hacc. apply Hsh', Forall_app. done. }
  intros Hrun. apply H in Hrun as [Hlen Hsh]. split; [|by apply Hsh].
  intros Hn. specialize (Hlen Hn). simpl in Hlen. lia.
Qed.

(** The topics are searched one after the other and the results are put
    end to end: with a bound that is not negative there are at most that many
    results for each topic, and every result has the shape of a search
    result.  The command line gives each of its topics
    [max_results // len(topics)] results, so that with a bound that is not
    negative the topics together give at most [max_results]. *)
Theorem search_by_topics_results_shape (topics : list string) (n : Z)
    (w w' : World) (rs : list ProcessingResult) :
  search_by_topics env config topics n w = (Ok rs, w') →
  (0 ≤ n → Z.of_nat (length rs) ≤ Z.of_nat (length topics) * n)
  ∧ Forall search_shaped rs
  ∧ (∀ max_results, 0 ≤ max_results →
       n = max_results `div` Z.of_nat (length topics) →
       Z.of_nat (length rs) ≤ max_results).
Proof.
  intros Hrun. destruct (search_by_topics_shaped _ _ _ _ _ Hrun) as [Hle Hsh].
  split_and!; [done|done|].
  intros max_results Hmax ->.
  destruct topics as [|t topics].
  - simpl in Hrun. injection Hrun as <- _. simpl. lia.
  - etrans; [apply Hle; apply Z.div_pos; simpl length; lia|].
    apply Z.mul_div_le. simpl length. lia.
Qed.

Lemma arxiv_search_refused q p w text :
  arxiv_api env (requests w) (arxiv_request q p) = Refused text →
  ∃ w', arxiv_search env config q p w = (Ok [], w')
    ∧ requests w' = requests w ++ [arxiv_request q p]
    ∧ logs w' = logs w ++ [request_failed (arxiv_request q p) text].
Proof.
  intros Hreply.
  eapply get_refused in Hreply as (w' & Hget & Hl).
  pose proof (get_requests _ _ _ _ _ _ _ _ Hget) as Hr.
  exists w'. split_and!; [|exact Hr|exact Hl].
  unfold arxiv_search. by rewrite bind_run, Hget.
Qed.

Lemma crossref_search_refused q p w text :
  crossref_works_api env (requests w) (crossref_works_request config q p)
  = Refused text →
  ∃ w', crossref_search env config q p w = (Ok [], w')
    ∧ requests w' = requests w ++ [crossref_works_request config q p]
    ∧ logs w' = logs w
                ++ [request_failed (crossref_works_request config q p) text].
Proof.
  intros Hreply.
  eapply get_refused in Hreply as (w' & Hget & Hl).
  pose proof (get_requests _ _ _ _ _ _ _ _ Hget) as Hr.
  exists w'. split_and!; [|exact Hr|exact Hl].
  unfold crossref_search. by rewrite bind_run, Hget.
Qed.

Lemma openalex_search_refused q p w text :
  openalex_works_api env (requests w) (openalex_works_request config q p)
  = Refused text →
  ∃ w', openalex_search env config q p w = (Ok [], w')
    ∧ requests w' = requests w ++ [openalex_works_request config q p]
    ∧ logs w' = logs w
                ++ [request_failed (openalex_works_request config q p) text].
Proof.
  intros Hreply.
  eapply get_refused in Hreply as (w' & Hget & Hl).
  pose proof (get_requests _ _ _ _ _ _ _ _ Hget) as Hr.
  exists w'. split_and!; [|exact Hr|exact Hl].
  unfold openalex_search. by rewrite bind_run, Hget.
Qed.

(** When the three providers all refuse, the search still returns: an empty
    list, after asking each provider once, in the order arXiv, Crossref,
    OpenAlex, each for [max(max_results // 3, 5)] results, and with one
    warning for each refusal. *)
Theorem search_ad_hoc_all_refused (q ta tc to : string) (n : Z) (w : World) :
  let ra := arxiv_request q (per_source n) in
  let rc := crossref_works_request config q (per_source n) in
  let ro := openalex_works_request config q (per_source n) in
  arxiv_api env (requests w) ra = Refused ta →
  crossref_works_api env (requests w ++ [ra]) rc = Refused tc →
  openalex_works_api env (requests w ++ [ra; rc]) ro = Refused to →
  ∃ w', search_ad_hoc env config q n w = (Ok [], w')
    ∧ requests w' = requests w ++ [ra; rc; ro]
    ∧ logs w' = logs w ++ [(INFO, "Ad-hoc search: " +:+ q);
                           request_failed ra ta; request_failed rc tc;
                           request_failed ro to].
Proof.
  intros ra rc ro Ha Hc Ho.
  set (w0 := (log INFO ("Ad-hoc search: " +:+ q) w).2).
  destruct (arxiv_search_refused q (per_source n) w0 ta Ha)
    as (w1 & H1 & Hr1 & Hl1).
  assert (Hc' : crossref_works_api env (requests w1) rc = Refused tc)
    by (by rewrite Hr1).
  destruct (crossref_search_refused q (per_source n) w1 tc Hc')
    as (w2 & H2 & Hr2 & Hl2).
  assert (Ho' : openalex_works_api env (requests w2) ro = Refused to).
  { rewrite Hr2, Hr1. simpl. by rewrite <- app_assoc. }
  destruct (openalex_search_refused q (per_source n) w2 to Ho')
    as (w3 & H3 & Hr3 & Hl3).
  assert (Hrun : search_run env config q n w [] [] [] [] w3).
  { exists w0, w1, ([], ∅), w1, w2, ([], ∅), w2, w3, ([], ∅).
    split_and!; done. }
  apply search_run_ad_hoc in Hrun. exists w3. split_and!.
  - rewrite Hrun. f_equal. f_equal.
    unfold Py.slice_to. by destruct (0 <=? n); rewrite take_nil.
  - rewrite Hr3, Hr2, Hr1. simpl. by rewrite <- !app_assoc.
  - rewrite Hl3, Hl2, Hl1. simpl. by rewrite <- !app_assoc.
Qed.

End SearchResults.

Lemma search_ad_hoc_results_shape_witness :
  ∃ rs w', search_ad_hoc shared_doi_env sample_config "ore" 10 initial_world
           = (Ok rs, w')
    ∧ length rs = 6%nat
    ∧ (0 ≤ 10 → Z.of_nat (length rs) ≤ 10) ∧ Forall search_shaped rs.
Proof.
  eexists _, _. split; [vm_compute; reflexivity|]. split; [reflexivity|].
  eapply (search_ad_hoc_results_shape shared_doi_env sample_config "ore" 10
            initial_world).
  vm_compute. reflexivity.
Defined.

Lemma search_by_topics_results_shape_witness :
  ∃ rs w', search_by_topics shared_doi_env sample_config ["ore"; "gold"] 3
             initial_world = (Ok rs, w')
    ∧ length rs = 6%nat
    ∧ (0 ≤ 3 → Z.of_nat (length rs) ≤ Z.of_nat 2 * 3)
    ∧ Forall search_shaped rs
    ∧ (∀ max_results, 0 ≤ max_results →
         3 = max_results `div` Z.of_nat 2 →
         Z.of_nat (length rs) ≤ max_results).
Proof.
  eexists _, _. split; [vm_compute; reflexivity|]. split; [reflexivity|].
  eapply (search_by_topics_results_shape shared_doi_env sample_config
            ["ore"; "gold"] 3 initial_world).
  vm_compute. reflexivity.
Defined.

Lemma search_ad_hoc_all_refused_witness :
  ∃ w', search_ad_hoc (down_env "timed out") sample_config "ore" 10
          initial_world = (Ok [], w')
    ∧ length (requests w') = 3%nat ∧ length (logs w') = 4%nat.
Proof.
  destruct (search_ad_hoc_all_refused (down_env "timed out") sample_config
              "ore" "timed out" "timed out" "timed out" 10 initial_world
              eq_refl eq_refl eq_refl) as (w' & Hrun & Hr & Hl).
  exists w'. split; [exact Hrun|]. rewrite Hr, Hl. split; reflexivity.
Defined.

(** ** The result of processing an entry *)

Section EntryShape.

#[local] Arguments String.append : simpl nomatch.

Lemma replace_nonempty s old new :
  s ≠ EmptyString → new ≠ EmptyString → Py.replace s old new ≠ EmptyString.
Proof.
  unfold Py.replace. destruct s as [|c s]; [done|]. intros _ Hnew.
  cbn [Py.replace_go].
  destruct (String.prefix old (String c s)); [|done].
  by destruct new.
Qed.

Lemma search_nonempty (m : string → option string) x :
  Re.search m EmptyString = Some x → m EmptyString = Some x.
Proof. simpl. by destruct (m EmptyString). Qed.

(** Trailing characters are stripped only after the last character that is
    kept. *)
Lemma rstrip_by_keeps p a c b :
  p c = false →
  Py.rstrip_by p (a +:+ String c b) = a +:+ String c (Py.rstrip_by p b).
Proof.
  intros Hc. induction a as [|x a IH]; simpl.
  - destruct (Py.rstrip_by p b); [by rewrite Hc|done].
  - rewrite IH. by destruct a.
Qed.

End EntryShape.

Section EntryResults.

Variable env : Env.
Variable config : Config.

Lemma state_of_shaped entry d m :
  entry_shaped entry
    {| url := "https://doi.org/" +:+ d; state := state_of m;
       metadata := Some m; error_message := None; processing_time := 0 |}.
Proof.
  split; [right; by exists d|]. unfold state_of. simpl.
  destruct (Py.truthy_opt (oa_url m)) eqn:Hu; by exists m.
Qed.

Lemma process_doi_shaped entry d start :
  yields (_process_doi env config d start) (entry_shaped entry).
Proof.
  intros w r w' H. unfold _process_doi in H. ok_inv H.
  destruct a as [item|]; ok_inv H; inversion H; subst.
  - destruct (state_of_shaped entry d a) as [Hu Hs]. split; [exact Hu|].
    exact Hs.
  - split; [right; by exists d|]. simpl. split; [done|by eexists].
Qed.

Lemma process_entry_body_shaped entry start :
  yields (process_entry_body env config entry start) (entry_shaped entry).
Proof.
  unfold process_entry_body, _process_url.
  destruct (Py.startswith _ _); [|apply process_doi_shaped].
  destruct (Re.search _ entry) as [i|] eqn:Hi.
  - intros w r w' H. ok_inv H. inversion H; subst.
    split; [by left|]. simpl. eexists. split_and!; [done|done|]. simpl.
    apply truthy_nonempty, replace_nonempty; [|done].
    intros ->. apply search_nonempty in Hi. done.
  - destruct (Re.search Re.doi_pattern entry); [apply process_doi_shaped|].
    intros w r w' H. ok_inv H. inversion H; subst.
    split; [by left|]. simpl. by eexists.
Qed.

Lemma process_entry_run entry w :
  _process_entry env config entry w
  = try_except (process_entry_body env config entry (clock env (ticks w)))
      (λ e,
         log ERROR ("Error processing " +:+ entry +:+ ": " +:+ exn_text e);;
         now ← time_time env;
         mret {| url := entry; state := FAILED; metadata := None;
                 error_message := Some (exn_text e);
                 processing_time := (now - clock env (ticks w))%Q |})
      (time_time env w).2.
Proof. reflexivity. Qed.

Lemma process_entry_shaped entry w :
  ∃ r w', _process_entry env config entry w = (Ok r, w')
    ∧ entry_shaped entry r.
Proof.
  rewrite process_entry_run. unfold try_except.
  destruct (process_entry_body _ _ _ _ _) as [[r0|e] w1] eqn:Hb.
  - exists r0, w1. split; [done|]. eapply process_entry_body_shaped, Hb.
  - rewrite !bind_run. simpl. eexists _, _. split; [reflexivity|].
    split; [by left|]. simpl. split; [done|by eexists].
Qed.

(** Whatever the entry and whatever the services answer, processing an
    entry returns a result of the shape above: failed with an error and no
    record, or completed with a record that has an OA location, or with its
    metadata extracted and a record that has none. *)
Theorem process_entry_result_shape (entry : string) (w : World) :
  ∃ r w', _process_entry env config entry w = (Ok r, w')
    ∧ entry_shaped entry r.
Proof. apply process_entry_shaped. Qed.

Lemma process_entries_shaped entries : ∀ acc w,
  ∃ rs1 w',
    for_each (λ entry results,
                result ← _process_entry env config entry;
                mret (results ++ [result])) entries acc w
    = (Ok (acc ++ rs1), w')
    ∧ Forall2 entry_shaped entries rs1.
Proof.
  induction entries as [|entry entries IH]; intros acc w; simpl.
  - exists [], w. by rewrite app_nil_r.
  - rewrite !bind_run.
    destruct (process_entry_shaped entry w) as (r & w1 & -> & Hsh). simpl.
    destruct (IH (acc ++ [r]) w1) as (rs1 & w' & -> & Hrs1).
    exists (r :: rs1), w'. split; [by rewrite <- app_assoc|].
    by constructor.
Qed.


End EntryResults.

(** ** Entries that need no service, and entries whose lookup fails *)

Section EntryOutcomes.

Variable env : Env.
Variable config : Config.

(** A lookup that decodes its answer, by what the service answers. *)
Lemma get_json_spec {T} (api : list Request → Request → Reply T) u params
    (dflt : T) w :
  let req := {| req_url := u; req_params := params |} in
  let run := (resp ← _get env config api u params;
              match resp with
              | None => mret dflt
              | Some resp => json resp
              end) w in
  requests run.2 = requests w ++ [req]
  ∧ match api (requests w) req with
    | Body v => run.1 = Ok v ∧ logs run.2 = logs w
    | Refused text =>
        run.1 = Ok dflt ∧ logs run.2 = logs w ++ [request_failed req text]
    | Malformed text => run.1 = Raise (ValueError text) ∧ logs run.2 = logs w
    end.
Proof.
  simpl. rewrite bind_run.
  destruct (get_spec env config api u params w) as (w' & r & -> & Hr & _ & _ & H).
  destruct (api (requests w) _); destruct H as [-> Hl]; simpl; done.
Qed.

Lemma time_time_requests w :
  requests (time_time env w).2 = requests w
  ∧ logs (time_time env w).2 = logs w.
Proof. done. Qed.

(** An address that starts with [http] and holds neither an arXiv
    identifier nor a DOI is recorded as it is, and an arXiv address is turned
    into a completed green record with the address of its PDF: in both cases
    no service is asked and nothing is logged. *)
Theorem process_entry_url_offline (entry : string) (w : World) :
  Py.startswith entry "http" = true →
  (∀ i, Re.search (Re.group_after "arxiv.org/abs/" nonspace) entry = Some i →
     ∃ r w', _process_entry env config entry w = (Ok r, w')
       ∧ requests w' = requests w ∧ logs w' = logs w
       ∧ url r = entry ∧ state r = COMPLETED ∧ error_message r = None
       ∧ ∃ m, metadata r = Some m
           ∧ title m = "arXiv:" +:+ i ∧ arxiv_id m = Some i
           ∧ oa_status m = Some GREEN
           ∧ oa_url m = Some (Py.replace entry "/abs/" "/pdf/")
           ∧ doi m = None)
  ∧ (Re.search (Re.group_after "arxiv.org/abs/" nonspace) entry = None →
     Re.search Re.doi_pattern entry = None →
     ∃ r w', _process_entry env config entry w = (Ok r, w')
       ∧ requests w' = requests w ∧ logs w' = logs w
       ∧ url r = entry ∧ state r = METADATA_EXTRACTED
       ∧ error_message r = None
       ∧ metadata r = Some (PaperMetadata_default entry)).
Proof.
  intros Hhttp. split.
  - intros i Hi. rewrite (process_entry_run env config).
    unfold try_except, process_entry_body, _process_url. rewrite Hhttp.
    change (λ c, negb (Py.is_space c)) with nonspace. rewrite Hi.
    rewrite bind_run. simpl. eexists _, _. split; [reflexivity|]. simpl.
    split_and!; try done. eexists. split; [reflexivity|]. done.
  - intros Hi Hd. rewrite (process_entry_run env config).
    unfold try_except, process_entry_body, _process_url. rewrite Hhttp.
    change (λ c, negb (Py.is_space c)) with nonspace. rewrite Hi, Hd.
    rewrite bind_run. simpl. eexists _, _. split; [reflexivity|]. simpl.
    done.
Qed.

(** A DOI entry whose Crossref lookup does not give a usable record always
    gives a failed result and asks no other service: when Crossref refuses or
    has nothing, the error is "DOI not found in Crossref" and the address is
    the [doi.org] address; when the body does not parse, or the record names
    a figure, table or supplement, the exception is caught, logged as an
    error, and its text is the error of the result, whose address is the bare
    entry. *)
Theorem process_entry_doi_failures (entry : string) (w : World) :
  Py.startswith entry "http" = false →
  let req := crossref_work_request config entry in
  let up := crossref_work_api env (requests w) req in
  (up = Body None ∨ (∃ text, up = Refused text) →
   ∃ r w', _process_entry env config entry w = (Ok r, w')
     ∧ requests w' = requests w ++ [req]
     ∧ url r = "https://doi.org/" +:+ entry ∧ state r = FAILED
     ∧ metadata r = None
     ∧ error_message r = Some "DOI not found in Crossref")
  ∧ (∀ text, up = Malformed text →
     ∃ r w', _process_entry env config entry w = (Ok r, w')
       ∧ requests w' = requests w ++ [req]
       ∧ logs w' = logs w ++ [(ERROR, "Error processing " +:+ entry +:+ ": "
                                      +:+ text)]
       ∧ url r = entry ∧ state r = FAILED ∧ metadata r = None
       ∧ error_message r = Some text)
  ∧ (∀ item, up = Body (Some item) → crossref_to_metadata item = None →
     ∃ r w', _process_entry env config entry w = (Ok r, w')
       ∧ requests w' = requests w ++ [req]
       ∧ logs w' = logs w ++ [(ERROR, "Error processing " +:+ entry +:+ ": "
                                      +:+ no_doi_attribute)]
       ∧ url r = entry ∧ state r = FAILED ∧ metadata r = None
       ∧ error_message r = Some no_doi_attribute).
Proof.
  intros Hhttp req up.
  pose proof (get_json_spec (crossref_work_api env)
                ("https://api.crossref.org/works/" +:+ entry)
                (mailto config) None (time_time env w).2) as [Hr Hup].
  fold (crossref_lookup_doi env config entry) in Hr, Hup.
  destruct (time_time_requests w) as [Hrw Hlw]. rewrite Hrw, Hlw in *.
  fold (crossref_work_request config entry) in Hr, Hup. fold req in Hr, Hup.
  fold up in Hup.
  assert (Hbody : process_entry_body env config entry (clock env (ticks w))
                  = _process_doi env config entry (clock env (ticks w))).
  { unfold process_entry_body. by rewrite Hhttp. }
  destruct (crossref_lookup_doi env config entry (time_time env w).2)
    as [o w1] eqn:Hlook. simpl in Hr, Hup.
  split_and!.
  - intros Hnone.
    assert (o = Ok None) as ->.
    { destruct Hnone as [H|[text H]]; rewrite H in Hup; by destruct Hup. }
    rewrite (process_entry_run env config), Hbody. unfold try_except, _process_doi.
    rewrite bind_run, Hlook, bind_run. simpl.
    eexists _, _. split; [reflexivity|]. simpl. done.
  - intros text Htext. rewrite Htext in Hup. destruct Hup as [-> Hl].
    rewrite (process_entry_run env config), Hbody. unfold try_except, _process_doi.
    rewrite bind_run, Hlook, !bind_run. simpl.
    eexists _, _. split; [reflexivity|]. simpl. rewrite Hl. done.
  - intros item Hitem Hnone. rewrite Hitem in Hup. destruct Hup as [-> Hl].
    rewrite (process_entry_run env config), Hbody. unfold try_except, _process_doi.
    rewrite bind_run, Hlook, Hnone. unfold _enrich_oa, attribute.
    rewrite !bind_run. simpl.
    eexists _, _. split; [reflexivity|]. simpl. rewrite Hl. done.
Qed.

End EntryOutcomes.

Lemma process_entry_url_offline_witness :
  ∃ r w', _process_entry (down_env "timed out") sample_config
            "https://arxiv.org/abs/1901.01234" initial_world = (Ok r, w')
    ∧ requests w' = [] ∧ state r = COMPLETED
    ∧ (metadata r ≫= oa_url) = Some "https://arxiv.org/pdf/1901.01234".
Proof.
  destruct (proj1 (process_entry_url_offline (down_env "timed out")
                     sample_config "https://arxiv.org/abs/1901.01234"
                     initial_world eq_refl) "1901.01234" eq_refl)
    as (r & w' & Hrun & Hr & _ & _ & Hs & _ & m & Hm & _ & _ & _ & Hu & _).
  exists r, w'. split_and!; [exact Hrun|exact Hr|exact Hs|].
  rewrite Hm. simpl. exact Hu.
Defined.

Lemma process_entry_doi_failures_witness :
  ∃ r w', _process_entry (down_env "timed out") sample_config
            "10.1016/j.x.1" initial_world = (Ok r, w')
    ∧ url r = "https://doi.org/10.1016/j.x.1" ∧ state r = FAILED
    ∧ error_message r = Some "DOI not found in Crossref".
Proof.
  destruct (proj1 (process_entry_doi_failures (down_env "timed out")
                     sample_config "10.1016/j.x.1" initial_world eq_refl)
              (or_intror (ex_intro _ "timed out" eq_refl)))
    as (r & w' & Hrun & _ & Hu & Hs & _ & He).
  exists r, w'. done.
Defined.

(** ** From the paper list to the processing of its entries *)

Section Dispatch.

#[local] Arguments String.append : simpl nomatch.

Lemma url_pattern_scheme s x :
  Re.url_pattern s = Some x →
  ∃ body, x = "http://" +:+ body ∨ x = "https://" +:+ body.
Proof.
  unfold Re.url_pattern.
  destruct (Re.lit "http" s) as [rest|] eqn:Hlit; [|done].
  assert (Hgo : ∀ scheme rest1,
    match Re.lit "://" rest1 with
    | Some tail =>
        let '(body, _) := Py.span Re.is_url_char tail in
        match body with
        | EmptyString => None
        | String _ _ => Some (scheme +:+ "://" +:+ body)
        end
    | None => None
    end = Some x → ∃ body, x = scheme +:+ "://" +:+ body).
  { intros scheme rest1. destruct (Re.lit "://" rest1) as [tail|]; [|done].
    destruct (Py.span _ tail) as [[|b body] r]; [done|].
    intros [= <-]. by eexists. }
  destruct rest as [|c rest1].
  - intros [body ->]%(Hgo "http"). exists body. by left.
  - destruct (ascii_dec c "s") as [->|Hc].
    + intros [body ->]%(Hgo "https"). exists body. by right.
    + intros H.
      assert (H' : match Re.lit "://" (String c rest1) with
                   | Some tail =>
                       let '(body, _) := Py.span Re.is_url_char tail in
                       match body with
                       | EmptyString => None
                       | String _ _ => Some ("http" +:+ "://" +:+ body)
                       end
                   | None => None
                   end = Some x)
        by (by destruct c as [[] [] [] [] [] [] [] []]).
      apply (Hgo "http") in H' as [body ->]. exists body. by left.
Qed.

Lemma doi_pattern_head s x :
  Re.doi_pattern s = Some x →
  ∃ digits body, x = ("10." +:+ digits) +:+ String "/" body.
Proof.
  unfold Re.doi_pattern.
  destruct (Re.lit "10." s) as [rest|]; [|done].
  destruct (Py.span Py.is_digit rest) as [digits rest'].
  destruct (_ && _); [|done]. destruct rest' as [|c tail]; [done|].
  destruct (ascii_dec c "/") as [->|Hc];
    [|by destruct c as [[] [] [] [] [] [] [] []]].
  destruct (Py.span _ tail) as [[|b body] r]; [done|].
  intros [= <-]. exists digits, (String b body). reflexivity.
Qed.

Variable env : Env.
Variable config : Config.

(** Every entry read from a paper list goes down the path meant for it: an
    entry is an address that starts with [http], and is processed as an
    address, or it is a bare DOI that starts with [10.], and is looked up as
    a DOI. *)
Theorem paper_list_entries_dispatch (text e : string) (start : Q) :
  e ∈ parse_text text →
  (Py.startswith e "http" = true
   ∧ process_entry_body env config e start = _process_url env config e start)
  ∨ (Py.startswith e "10." = true ∧ Py.startswith e "http" = false
     ∧ process_entry_body env config e start
       = _process_doi env config e start).
Proof.
  unfold parse_text. rewrite fromkeys_first_seen, elem_of_first_seen.
  intros [(s & x & Hx & ->)|(s & x & Hx & -> & _)]%extract_entries_inv.
  - right. pose proof (doi_entry_not_http s x Hx) as Hn.
    unfold process_entry_body. rewrite Hn. split_and!; [|done|done].
    apply doi_pattern_head in Hx as (digits & body & ->).
    unfold Py.rstrip. rewrite rstrip_by_keeps by (vm_compute; reflexivity).
      unfold Py.startswith. simpl. first [apply prefix_nil|reflexivity].
  - left.
    assert (Hh : Py.startswith (Py.rstrip ".,;)" x) "http" = true).
    { apply url_pattern_scheme in Hx as [body [->| ->]]; unfold Py.rstrip.
      - change ("http://" +:+ body) with ("http:/" +:+ String "/" body).
        rewrite rstrip_by_keeps by (vm_compute; reflexivity).
      unfold Py.startswith. simpl. first [apply prefix_nil|reflexivity].
      - change ("https://" +:+ body) with ("https:/" +:+ String "/" body).
        rewrite rstrip_by_keeps by (vm_compute; reflexivity).
      unfold Py.startswith. simpl. first [apply prefix_nil|reflexivity]. }
    unfold process_entry_body. by rewrite Hh.
Qed.

End Dispatch.

Lemma paper_list_entries_dispatch_witness :
  Py.startswith "10.1016/j.oregeorev.2018.12.018" "10." = true
  ∧ process_entry_body (down_env "timed out") sample_config
      "10.1016/j.oregeorev.2018.12.018" 0
    = _process_doi (down_env "timed out") sample_config
        "10.1016/j.oregeorev.2018.12.018" 0.
Proof.
  destruct (paper_list_entries_dispatch (down_env "timed out") sample_config
              sample_text "10.1016/j.oregeorev.2018.12.018" 0)
    as [[Hh _]|(H10 & _ & Hb)].
  - assert (parse_text sample_text
            = ["10.1016/j.oregeorev.2018.12.018";
               "https://arxiv.org/abs/1901.01234"]) as ->
      by (vm_compute; reflexivity).
    apply list_elem_of_here.
  - discriminate Hh.
  - exact (conj H10 Hb).
Defined.

(** ** What a download writes *)

Section DownloadWrites.

Variable env : Env.
Variable config : Config.

#[local] Arguments String.append : simpl nomatch.

Lemma write_loop_spec f l : ∀ w c0,
  files w !! f = Some c0 →
  ∃ w', for_each (λ chunk (_ : unit),
                    w ← get_world;
                    set_files (<[f := default EmptyString (files w !! f)
                                       +:+ chunk]> (files w)))
                 l () w = (Ok (), w')
    ∧ files w' = <[f := c0 +:+ concat_chunks l]> (files w)
    ∧ requests w' = requests w ∧ logs w' = logs w.
Proof.
  induction l as [|chunk l IH]; intros w c0 Hc0; simpl.
  - exists w. rewrite string_app_nil_r, insert_id by done. done.
  - rewrite !bind_run. simpl. rewrite Hc0. simpl.
    match goal with |- context [for_each _ l () ?w1] =>
      destruct (IH w1 (c0 +:+ chunk)) as (w' & Hrun & Hf & Hr & Hl)
    end.
    { simpl. by rewrite lookup_insert_eq. }
    exists w'. split; [exact Hrun|]. rewrite Hf, Hr, Hl. simpl.
    by rewrite insert_insert_eq, string_app_assoc.
Qed.

(** A body is written from the start: the file holds the chunks that
    arrived, and the write fails exactly when the stream does. *)
Lemma write_chunks_spec f resp w :
  ∃ w', write_chunks f resp w
        = (match stream_error resp with
           | Some e => Raise e
           | None => Ok ()
           end, w')
    ∧ files w' = <[f := concat_chunks (chunks resp)]> (files w)
    ∧ requests w' = requests w ∧ logs w' = logs w.
Proof.
  destruct (write_loop_spec f (chunks resp)
              (set_files (<[f := EmptyString]> (files w)) w).2 EmptyString)
    as (w' & Hrun & Hf & Hr & Hl).
  { simpl. by rewrite lookup_insert_eq. }
  simpl in Hrun, Hf, Hr, Hl. rewrite insert_insert_eq in Hf.
  exists w'. split; [|done].
  unfold write_chunks. rewrite bind_run. simpl. rewrite bind_run. simpl.
  rewrite bind_run, Hrun. by destruct (stream_error resp).
Qed.

Lemma download_step_fetch r m count w :
  metadata r = Some m → Py.truthy_opt (oa_url m) = true →
  files w !! safe_filename m = None →
  download_step env config r count w
  = try_except
      (resp ← session_get env (default EmptyString (oa_url m));
       let ctype := default EmptyString (content_type resp) in
       if accepted (default EmptyString (oa_url m)) resp
       then
         write_chunks (safe_filename m) resp;;
         log INFO ("Downloaded: " +:+ output_dir config +:+ "/"
                   +:+ safe_filename m);;
         mret (count + 1)
       else
         log WARNING ("Not a PDF response for "
                      +:+ default EmptyString (oa_url m)
                      +:+ " (content-type: " +:+ ctype +:+ ")");;
         mret count)
      (λ e,
         log WARNING ("PDF download failed for "
                      +:+ default EmptyString (oa_url m) +:+ ": "
                      +:+ exn_text e);;
         mret count) w.
Proof.
  intros Hm Hu Hfile. unfold download_step. rewrite Hm, Hu. simpl.
  rewrite bind_run. simpl.
  rewrite bool_decide_eq_false_2 by (rewrite Hfile; by intros [? ?]).
  done.
Qed.

Lemma download_step_accepted (r : ProcessingResult)
    (m : PaperMetadata) (resp : PdfResponse) (count : Z) (w : World) :
  metadata r = Some m → Py.truthy_opt (oa_url m) = true →
  files w !! safe_filename m = None →
  pdf_host env (requests w) (fetch_request m) = Fetched resp →
  accepted (default EmptyString (oa_url m)) resp = true →
  ∃ w', download_step env config r count w
        = (Ok (match stream_error resp with
               | Some _ => count
               | None => count + 1
               end), w')
    ∧ files w' = <[safe_filename m := concat_chunks (chunks resp)]> (files w)
    ∧ requests w' = requests w ++ [fetch_request m]
    ∧ logs w' = logs w ++
        [match stream_error resp with
         | None => (INFO, "Downloaded: " +:+ output_dir config +:+ "/"
                          +:+ safe_filename m)
         | Some e => (WARNING, "PDF download failed for "
                               +:+ default EmptyString (oa_url m) +:+ ": "
                               +:+ exn_text e)
         end].
Proof.
  intros Hm Hu Hfile Hreply Hacc.
  rewrite (download_step_fetch r m count w Hm Hu Hfile).
  unfold try_except, session_get. rewrite !bind_run. simpl.
  unfold fetch_request in Hreply. rewrite Hreply. simpl. rewrite Hacc.
  rewrite bind_run.
  match goal with |- context [write_chunks ?f resp ?w1] =>
    destruct (write_chunks_spec f resp w1) as (w2 & -> & Hf & Hr & Hl)
  end.
  simpl in Hf, Hr, Hl.
  destruct (stream_error resp) as [e|];
    (eexists; split; [reflexivity|]; simpl; rewrite Hf, Hr, Hl; done).
Qed.


(** A fetch that raises, for a timeout or a refused connection, is logged
    as a warning: nothing is written, the count stays, and the loop goes on. *)
Theorem download_survives_fetch_error (r : ProcessingResult)
    (m : PaperMetadata) (e : exn) (count : Z) (w : World) :
  metadata r = Some m → Py.truthy_opt (oa_url m) = true →
  files w !! safe_filename m = None →
  pdf_host env (requests w) (fetch_request m) = FetchRaised e →
  ∃ w', download_step env config r count w = (Ok count, w')
    ∧ files w' = files w
    ∧ requests w' = requests w ++ [fetch_request m]
    ∧ logs w' = logs w ++ [(WARNING, "PDF download failed for "
                                     +:+ default EmptyString (oa_url m)
                                     +:+ ": " +:+ exn_text e)]
    ∧ ∀ rest, for_each (download_step env config) (r :: rest) count w
              = for_each (download_step env config) rest count w'.
Proof.
  intros Hm Hu Hfile Hreply.
  assert (Hstep : ∃ w', download_step env config r count w = (Ok count, w')
    ∧ files w' = files w
    ∧ requests w' = requests w ++ [fetch_request m]
    ∧ logs w' = logs w ++ [(WARNING, "PDF download failed for "
                                     +:+ default EmptyString (oa_url m)
                                     +:+ ": " +:+ exn_text e)]).
  { rewrite (download_step_fetch r m count w Hm Hu Hfile).
    unfold try_except, session_get. rewrite !bind_run. simpl.
    unfold fetch_request in Hreply. rewrite Hreply. simpl.
    eexists. split; [reflexivity|]. done. }
  destruct Hstep as (w' & Hstep & Hf & Hr & Hl). exists w'.
  split_and!; [done..|].
  intros rest. simpl. by rewrite bind_run, Hstep.
Qed.

(** A file left by a broken stream is taken for a finished download: the
    next pass over the same result counts it and asks for nothing. *)
Theorem download_counts_partial_file (r : ProcessingResult)
    (m : PaperMetadata) (resp : PdfResponse) (e : exn) (w : World) :
  metadata r = Some m → Py.truthy_opt (oa_url m) = true →
  files w !! safe_filename m = None →
  pdf_host env (requests w) (fetch_request m) = Fetched resp →
  accepted (default EmptyString (oa_url m)) resp = true →
  stream_error resp = Some e →
  ∃ w', download_pdfs env config [r] w = (Ok 0, w')
    ∧ files w' !! safe_filename m = Some (concat_chunks (chunks resp))
    ∧ download_pdfs env config [r] w' = (Ok 1, w').
Proof.
  intros Hm Hu Hfile Hreply Hacc He.
  destruct (download_step_accepted r m resp 0 w Hm Hu Hfile Hreply Hacc)
    as (w' & Hstep & Hf & _).
  rewrite He in Hstep. exists w'.
  assert (Hnow : files w' !! safe_filename m
                 = Some (concat_chunks (chunks resp)))
    by (by rewrite Hf, lookup_insert_eq).
  split_and!; [|done|].
  - unfold download_pdfs. simpl. by rewrite bind_run, Hstep.
  - unfold download_pdfs, download_step. simpl. rewrite bind_run, Hm, Hu.
    simpl. rewrite bind_run. simpl.
    by rewrite bool_decide_eq_true_2 by (by rewrite Hnow).
Qed.

End DownloadWrites.

(** ** The output directory across a download *)

Section FileNames.

#[local] Arguments String.append : simpl nomatch.

Lemma all_chars_filter p s : all_chars p (Py.filter p s) = true.
Proof.
  induction s as [|c s IH]; simpl; [done|].
  destruct (p c) eqn:Hc; simpl; [by rewrite Hc|done].
Qed.

Lemma all_chars_take p n s :
  all_chars p s = true → all_chars p (Py.take n s) = true.
Proof.
  revert n. induction s as [|c s IH]; intros [|n]; simpl; try done.
  intros [Hc Hs]%andb_true_iff. by rewrite Hc, IH.
Qed.

Lemma length_take_le n s : (String.length (Py.take n s) ≤ n)%nat.
Proof.
  revert n. induction s as [|c s IH]; intros [|n]; simpl; try lia.
  specialize (IH n). lia.
Qed.

Lemma all_chars_strip p s :
  all_chars p s = true → all_chars p (Py.strip s) = true.
Proof.
  intros H. unfold Py.strip.
  destruct (drop_while_suffix Py.is_space s) as [a Ha].
  rewrite Ha, all_chars_app in H. apply andb_true_iff in H as [_ H].
  destruct (rstrip_by_prefix Py.is_space (Py.drop_while Py.is_space s))
    as [b Hb].
  rewrite Hb, all_chars_app in H. by apply andb_true_iff in H as [H _].
Qed.

Lemma length_strip_le s : (String.length (Py.strip s) ≤ String.length s)%nat.
Proof.
  unfold Py.strip.
  destruct (drop_while_suffix Py.is_space s) as [a Ha].
  destruct (rstrip_by_prefix Py.is_space (Py.drop_while Py.is_space s))
    as [b Hb].
  rewrite Ha at 2. rewrite Hb at 2. rewrite !string_length_app. lia.
Qed.

Lemma safe_char_no_separator c :
  is_safe_char c = true →
  negb (Ascii.eqb c "/") = true ∧ negb (Ascii.eqb c ".") = true.
Proof.
  intros H. split; apply negb_true_iff, Ascii.eqb_neq; by intros ->.
Qed.

(** The name of the file of a record: a stem of at most eighty characters,
    all of them letters, digits, underscores, white space or hyphens, with
    no white space at either end, followed by [.pdf].  The name holds no
    slash and the stem no dot, so the file is always directly in the output
    directory. *)
Theorem safe_filename_shape (m : PaperMetadata) :
  ∃ stem, safe_filename m = stem +:+ ".pdf"
    ∧ all_chars is_safe_char stem = true
    ∧ (String.length stem ≤ 80)%nat
    ∧ Py.strip stem = stem
    ∧ Py.contains "/" (safe_filename m) = false
    ∧ Py.contains "." stem = false.
Proof.
  unfold safe_filename. fold is_safe_char.
  set (t := if Py.truthy (title m) then title m else "paper").
  set (stem := Py.strip (Py.take 80 (Py.filter is_safe_char t))).
  assert (Hs : all_chars is_safe_char stem = true)
    by apply all_chars_strip, all_chars_take, all_chars_filter.
  exists stem. split_and!.
  - done.
  - done.
  - etrans; [apply length_strip_le|apply length_take_le].
  - apply strip_idem.
  - apply contains_char_false. rewrite all_chars_app. apply andb_true_iff.
    split; [|done].
    eapply all_chars_impl; [|exact Hs]. intros c Hc.
    by apply safe_char_no_separator.
  - apply contains_char_false.
    eapply all_chars_impl; [|exact Hs]. intros c Hc.
    by apply safe_char_no_separator.
Qed.

End FileNames.

Section DownloadFrame.

Variable env : Env.
Variable config : Config.

Lemma downloaded_mono fs fs' r :
  fs ⊆ fs' → downloaded fs r = true → downloaded fs' r = true.
Proof.
  unfold downloaded. intros Hsub. destruct (metadata r) as [m|]; [|done].
  intros [Hu Hf%bool_decide_eq_true]%andb_true_iff.
  rewrite Hu. simpl. apply bool_decide_eq_true.
  destruct Hf as [c Hc]. exists c. by eapply lookup_weaken.
Qed.

(** One iteration: files are only added, under the name of the record; the
    count goes up by at most one, and only when the file is there. *)
Lemma download_step_frame r count w :
  ∃ n w', download_step env config r count w = (Ok n, w')
    ∧ files w ⊆ files w'
    ∧ (n = count ∨ n = count + 1 ∧ downloaded (files w') r = true)
    ∧ (∀ p, is_Some (files w' !! p) →
         is_Some (files w !! p)
         ∨ ∃ m, metadata r = Some m ∧ Py.truthy_opt (oa_url m) = true
                ∧ p = safe_filename m).
Proof.
  destruct (metadata r) as [m|] eqn:Hm;
    [|unfold download_step; rewrite Hm; exists count, w; auto].
  destruct (Py.truthy_opt (oa_url m)) eqn:Hu;
    [|unfold download_step; rewrite Hm, Hu; exists count, w; auto].
  destruct (files w !! safe_filename m) as [c|] eqn:Hfile.
  { unfold download_step. rewrite Hm, Hu. simpl. rewrite bind_run. simpl.
    rewrite bool_decide_eq_true_2 by (by rewrite Hfile).
    exists (count + 1), w. split_and!; [done|done| |auto].
    right. split; [done|]. unfold downloaded. rewrite Hm, Hu. simpl.
    apply bool_decide_eq_true. by rewrite Hfile. }
  destruct (pdf_host env (requests w) (fetch_request m)) as [e|resp] eqn:Hreply.
  { rewrite (download_step_fetch env config r m count w Hm Hu Hfile).
    unfold try_except, session_get. rewrite !bind_run. simpl.
    unfold fetch_request in Hreply. rewrite Hreply. simpl.
    eexists _, _. split; [reflexivity|]. simpl. auto. }
  destruct (accepted (default EmptyString (oa_url m)) resp) eqn:Hacc.
  - destruct (download_step_accepted env config r m resp count w
                Hm Hu Hfile Hreply Hacc) as (w' & Hstep & Hf & _).
    eexists _, w'. split; [exact Hstep|]. rewrite Hf. split_and!.
    + by apply insert_subseteq.
    + destruct (stream_error resp); [by left|]. right. split; [done|].
      unfold downloaded. rewrite Hm, Hu. simpl.
      apply bool_decide_eq_true. by rewrite lookup_insert_eq.
    + intros p Hp. destruct (decide (p = safe_filename m)) as [->|Hne].
      * right. by exists m.
      * left. by rewrite lookup_insert_ne in Hp.
  - rewrite (download_step_fetch env config r m count w Hm Hu Hfile).
    unfold try_except, session_get. rewrite !bind_run. simpl.
    unfold fetch_request in Hreply. rewrite Hreply. simpl. rewrite Hacc.
    eexists _, _. split; [reflexivity|]. simpl. auto.
Qed.

Lemma download_loop_frame results : ∀ count w,
  ∃ n w', for_each (download_step env config) results count w = (Ok n, w')
    ∧ files w ⊆ files w'
    ∧ count ≤ n
      ≤ count + Z.of_nat (length (List.filter (downloaded (files w')) results))
    ∧ (∀ p, is_Some (files w' !! p) →
         is_Some (files w !! p)
         ∨ ∃ r m, r ∈ results ∧ metadata r = Some m
                  ∧ Py.truthy_opt (oa_url m) = true ∧ p = safe_filename m).
Proof.
  induction results as [|r results IH]; intros count w; simpl.
  - exists count, w. split_and!; [done|done|lia|lia|auto].
  - rewrite bind_run.
    destruct (download_step_frame r count w) as (n1 & w1 & -> & Hs1 & Hn1 & Hp1).
    destruct (IH n1 w1) as (n & w' & Hrun & Hs & Hn & Hp).
    exists n, w'. split; [exact Hrun|]. split_and!.
    + by etrans.
    + destruct Hn1 as [->|[-> _]]; lia.
    + destruct Hn1 as [->|[-> Hd]].
      * destruct (downloaded (files w') r); simpl; lia.
      * rewrite (downloaded_mono _ _ _ Hs Hd). simpl. lia.
    + intros p Hw'. destruct (Hp p Hw') as [Hw1|(r' & m & Hr' & Hm)].
      * destruct (Hp1 p Hw1) as [?|(m & Hm)]; [by left|].
        right. exists r, m. split; [apply list_elem_of_here|done].
      * right. exists r', m. split; [by apply list_elem_of_further|done].
Qed.


(** Two records whose titles give the same file name share the file: once
    the first is downloaded the second is counted as downloaded as well, and
    its own location is never asked for. *)
Theorem download_same_name_fetches_once (r1 r2 : ProcessingResult)
    (m1 m2 : PaperMetadata) (resp : PdfResponse) (w : World) :
  metadata r1 = Some m1 → Py.truthy_opt (oa_url m1) = true →
  metadata r2 = Some m2 → Py.truthy_opt (oa_url m2) = true →
  safe_filename m2 = safe_filename m1 →
  files w !! safe_filename m1 = None →
  pdf_host env (requests w) (fetch_request m1) = Fetched resp →
  accepted (default EmptyString (oa_url m1)) resp = true →
  stream_error resp = None →
  ∃ w', download_pdfs env config [r1; r2] w = (Ok 2, w')
    ∧ requests w' = requests w ++ [fetch_request m1]
    ∧ files w' = <[safe_filename m1 := concat_chunks (chunks resp)]> (files w).
Proof.
  intros Hm1 Hu1 Hm2 Hu2 Hname Hfile Hreply Hacc Hs.
  destruct (download_step_accepted env config r1 m1 resp 0 w
              Hm1 Hu1 Hfile Hreply Hacc) as (w' & Hstep & Hf & Hr & _).
  rewrite Hs in Hstep. exists w'. split; [|done].
  unfold download_pdfs. simpl. rewrite bind_run, Hstep, bind_run.
  unfold download_step. rewrite Hm2, Hu2, Hname. simpl. rewrite bind_run.
  simpl.
  rewrite bool_decide_eq_true_2 by (by rewrite Hf, lookup_insert_eq).
  done.
Qed.

End DownloadFrame.


Lemma download_survives_fetch_error_witness :
  let m := sample_metadata "Ore deposits" None (Some "https://x.org/a.pdf") in
  ∃ w', download_step (down_env "timed out") sample_config (sample_result m)
          0 initial_world = (Ok 0, w')
    ∧ files w' = files initial_world.
Proof.
  destruct (download_survives_fetch_error
              (down_env "timed out") sample_config
              (sample_result (sample_metadata "Ore deposits" None
                                (Some "https://x.org/a.pdf")))
              (sample_metadata "Ore deposits" None (Some "https://x.org/a.pdf"))
              (RequestException "timed out") 0 initial_world
              eq_refl eq_refl eq_refl eq_refl)
    as (w' & Hstep & Hf & _).
  exists w'. split; [exact Hstep|exact Hf].
Defined.

Lemma download_counts_partial_file_witness :
  let m := sample_metadata "Ore deposits" None (Some "https://x.org/a.pdf") in
  let env := sample_env [] [] [] (Fetched broken_response) in
  ∃ w', download_pdfs env sample_config [sample_result m] initial_world
        = (Ok 0, w')
    ∧ files w' !! "Ore deposits.pdf" = Some "%PDF-1.4 "
    ∧ download_pdfs env sample_config [sample_result m] w' = (Ok 1, w').
Proof.
  exact (download_counts_partial_file
           (sample_env [] [] [] (Fetched broken_response)) sample_config
           (sample_result (sample_metadata "Ore deposits" None
                             (Some "https://x.org/a.pdf")))
           (sample_metadata "Ore deposits" None (Some "https://x.org/a.pdf"))
           broken_response (RequestException "connection reset")
           initial_world eq_refl eq_refl eq_refl eq_refl eq_refl eq_refl).
Defined.

Lemma download_same_name_fetches_once_witness :
  let m1 := sample_metadata "Ore: deposits" None (Some "https://x.org/a.pdf") in
  let m2 := sample_metadata "Ore deposits" None (Some "https://y.org/b.pdf") in
  let env := sample_env [] [] [] (Fetched pdf_response) in
  ∃ w', download_pdfs env sample_config [sample_result m1; sample_result m2]
          initial_world = (Ok 2, w')
    ∧ requests w' = [fetch_request m1].
Proof.
  destruct (download_same_name_fetches_once
              (sample_env [] [] [] (Fetched pdf_response)) sample_config
              (sample_result (sample_metadata "Ore: deposits" None
                                (Some "https://x.org/a.pdf")))
              (sample_result (sample_metadata "Ore deposits" None
                                (Some "https://y.org/b.pdf")))
              (sample_metadata "Ore: deposits" None (Some "https://x.org/a.pdf"))
              (sample_metadata "Ore deposits" None (Some "https://y.org/b.pdf"))
              pdf_response initial_world
              eq_refl eq_refl eq_refl eq_refl eq_refl eq_refl eq_refl eq_refl
              eq_refl)
    as (w' & Hrun & Hr & _).
  exists w'. split; [exact Hrun|exact Hr].
Defined.

(** ** The figures of the report *)

Section Tally.

Lemma get_count_bump_eq k d : get_count k (bump k d) = get_count k d + 1.
Proof.
  induction d as [|[k' v] d IH]; simpl.
  - by rewrite String.eqb_refl.
  - destruct (String.eqb_spec k k') as [->|Hne]; simpl.
    + by rewrite String.eqb_refl.
    + by destruct (String.eqb_spec k k').
Qed.

Lemma get_count_bump_ne k k' d :
  k' ≠ k → get_count k' (bump k d) = get_count k' d.
Proof.
  intros Hne. induction d as [|[k0 v] d IH]; simpl.
  - by destruct (String.eqb_spec k' k).
  - destruct (String.eqb_spec k k0) as [->|Hk]; simpl.
    + by destruct (String.eqb_spec k' k0).
    + by rewrite IH.
Qed.

Lemma bump_keys k d :
  (bump k d).*1 = if bool_decide (k ∈ d.*1) then d.*1 else d.*1 ++ [k].
Proof.
  induction d as [|[k' v] d IH]; csimpl; [done|].
  destruct (String.eqb_spec k k') as [->|Hne]; csimpl.
  - by rewrite bool_decide_eq_true_2 by apply list_elem_of_here.
  - rewrite IH. case_bool_decide as Hin.
    + by rewrite bool_decide_eq_true_2 by (by apply list_elem_of_further).
    + rewrite bool_decide_eq_false_2; [done|].
      rewrite elem_of_cons. tauto.
Qed.

Lemma bump_NoDup k d : NoDup d.*1 → NoDup (bump k d).*1.
Proof.
  intros Hd. rewrite bump_keys. case_bool_decide; [done|].
  apply NoDup_app. split_and!; [done| |apply NoDup_singleton].
  intros x Hx ->%list_elem_of_singleton. done.
Qed.

Lemma bump_positive k d :
  Forall (λ kv, 1 ≤ kv.2) d → Forall (λ kv, 1 ≤ kv.2) (bump k d).
Proof.
  induction d as [|[k' v] d IH]; simpl.
  - intros _. by repeat constructor.
  - intros [Hv Hd]%Forall_cons. destruct (String.eqb k k').
    + constructor; [simpl in *; lia|done].
    + constructor; [done|by apply IH].
Qed.

(** In a dictionary with distinct keys and positive counts, the entries are
    the non-zero lookups. *)
Lemma elem_of_get_count k n d :
  NoDup d.*1 → Forall (λ kv, 1 ≤ kv.2) d →
  (k, n) ∈ d ↔ get_count k d = n ∧ 1 ≤ n.
Proof.
  induction d as [|[k' v] d IH]; simpl.
  - intros _ _. rewrite elem_of_nil. split; [done|lia].
  - intros [Hk Hd]%NoDup_cons [Hv Hf]%Forall_cons. simpl in Hv.
    rewrite elem_of_cons, (IH Hd Hf).
    destruct (String.eqb_spec k k') as [->|Hne].
    + split.
      * intros [[= ->]|[Hg Hn]]; [done|].
        assert (get_count k' d = 0); [|lia].
        clear -Hk. induction d as [|[k0 v0] d IH]; simpl; [done|].
        destruct (String.eqb_spec k' k0) as [->|?].
        -- destruct Hk. apply list_elem_of_here.
        -- apply IH. intros ?. apply Hk. by apply list_elem_of_further.
      * intros [-> _]. by left.
    + split; [intros [[= ? _]|?]; [done|done]|by right].
Qed.

Variable key : ProcessingResult → option string.
Variable f : list (string * Z) → ProcessingResult → list (string * Z).
Hypothesis f_bumps : ∀ d r,
  f d r = match key r with Some k => bump k d | None => d end.

Lemma tally_cons k r R :
  tally key k (r :: R)
  = (if bool_decide (key r = Some k) then 1 else 0) + tally key k R.
Proof. unfold tally. simpl. case_bool_decide; simpl length; lia. Qed.

Lemma fold_counts R : ∀ d,
  NoDup d.*1 → Forall (λ kv, 1 ≤ kv.2) d →
  NoDup (fold_left f R d).*1
  ∧ Forall (λ kv, 1 ≤ kv.2) (fold_left f R d)
  ∧ ∀ k, get_count k (fold_left f R d) = get_count k d + tally key k R.
Proof.
  induction R as [|r R IH]; intros d Hd Hp; simpl.
  - split_and!; [done|done|]. intros k. unfold tally. simpl. lia.
  - rewrite f_bumps.
    destruct (key r) as [k0|] eqn:Hk.
    + destruct (IH (bump k0 d)) as (H1 & H2 & H3);
        [by apply bump_NoDup|by apply bump_positive|].
      split_and!; [done|done|]. intros k. rewrite H3, tally_cons, Hk.
      case_bool_decide as Heq.
      * injection Heq as ->. rewrite get_count_bump_eq. lia.
      * rewrite get_count_bump_ne by congruence. lia.
    + destruct (IH d Hd Hp) as (H1 & H2 & H3).
      split_and!; [done|done|]. intros k. rewrite H3, tally_cons, Hk.
      rewrite bool_decide_eq_false_2 by done. lia.
Qed.

(** The entries of a dictionary of counts: the keys are distinct, and [k]
    is listed with [n] exactly when [n] results have the key [k] and there is
    at least one. *)
Lemma fold_counts_entries R k n :
  NoDup (fold_left f R []).*1
  ∧ ((k, n) ∈ fold_left f R [] ↔ n = tally key k R ∧ 1 ≤ n).
Proof.
  destruct (fold_counts R []) as (H1 & H2 & H3);
    [constructor|constructor|].
  split; [done|]. rewrite (elem_of_get_count k n _ H1 H2), H3. simpl.
  intuition lia.
Qed.

End Tally.

Section Sorting.

Lemma insert_by_key_perm x l : insert_by_key x l ≡ₚ x :: l.
Proof.
  induction l as [|y l IH]; simpl; [done|].
  destruct (String.ltb _ _); [done|]. rewrite IH. apply Permutation_swap.
Qed.

Lemma fold_insert_key_perm d : ∀ acc,
  fold_left (λ acc x, insert_by_key x acc) d acc ≡ₚ d ++ acc.
Proof.
  induction d as [|x d IH]; intros acc; simpl; [done|].
  rewrite IH, insert_by_key_perm. by rewrite Permutation_middle.
Qed.

Lemma sorted_items_perm d : sorted_items d ≡ₚ d.
Proof.
  unfold sorted_items. rewrite fold_insert_key_perm. by rewrite app_nil_r.
Qed.

Lemma ltb_total a b : a ≠ b → String.ltb a b = false → String.ltb b a = true.
Proof.
  unfold String.ltb. rewrite (String.compare_antisym b a).
  destruct (String.compare a b) eqn:Hc; try done.
  apply String.compare_eq_iff in Hc. done.
Qed.

Lemma insert_by_key_sorted x l :
  Sorted (λ a b, String.ltb a.1 b.1 = true) l → x.1 ∉ l.*1 →
  Sorted (λ a b, String.ltb a.1 b.1 = true) (insert_by_key x l)
  ∧ ∀ a, HdRel (λ a b, String.ltb a.1 b.1 = true) a l →
         String.ltb a.1 x.1 = true →
         HdRel (λ a b, String.ltb a.1 b.1 = true) a (insert_by_key x l).
Proof.
  induction l as [|y l IH]; simpl; intros Hs Hx.
  - split; [by repeat constructor|]. intros a _ Ha. by constructor.
  - apply Sorted_inv in Hs as [Hs Hy].
    rewrite not_elem_of_cons in Hx. destruct Hx as [Hxy Hx].
    destruct (IH Hs Hx) as [IH1 IH2].
    destruct (String.ltb x.1 y.1) eqn:Hlt.
    + split.
      * constructor; [by constructor|by constructor].
      * intros a _ Ha. by constructor.
    + split.
      * constructor; [done|]. apply IH2; [done|]. by apply ltb_total.
      * intros a Ha _. apply HdRel_inv in Ha. by constructor.
Qed.

Lemma fold_insert_key_sorted d : ∀ acc,
  Sorted (λ a b, String.ltb a.1 b.1 = true) acc → NoDup (d ++ acc).*1 →
  Sorted (λ a b, String.ltb a.1 b.1 = true)
         (fold_left (λ acc x, insert_by_key x acc) d acc).
Proof.
  induction d as [|x d IH]; intros acc Hs Hnd; simpl; [done|].
  simpl in Hnd. apply NoDup_cons in Hnd as [Hx Hnd].
  rewrite fmap_app in Hx, Hnd. apply IH.
  - apply insert_by_key_sorted; [done|]. rewrite elem_of_app in Hx. tauto.
  - rewrite fmap_app, insert_by_key_perm. csimpl.
    rewrite <- Permutation_middle. by apply NoDup_cons_2.
Qed.

Lemma sorted_items_sorted d :
  NoDup d.*1 → Sorted (λ a b, String.ltb a.1 b.1 = true) (sorted_items d).
Proof.
  intros Hd. apply fold_insert_key_sorted; [constructor|].
  by rewrite app_nil_r.
Qed.

Lemma insert_by_count_perm x l : insert_by_count x l ≡ₚ x :: l.
Proof.
  induction l as [|y l IH]; simpl; [done|].
  destruct (_ <? _); [done|]. rewrite IH. apply Permutation_swap.
Qed.

Lemma fold_insert_count_perm d : ∀ acc,
  fold_left (λ acc x, insert_by_count x acc) d acc ≡ₚ d ++ acc.
Proof.
  induction d as [|x d IH]; intros acc; simpl; [done|].
  rewrite IH, insert_by_count_perm. by rewrite Permutation_middle.
Qed.

Lemma sorted_by_count_perm d : sorted_by_count d ≡ₚ d.
Proof.
  unfold sorted_by_count. rewrite fold_insert_count_perm.
  by rewrite app_nil_r.
Qed.

Lemma insert_by_count_sorted x l :
  StronglySorted (λ a b, b.2 ≤ a.2) l →
  StronglySorted (λ a b, b.2 ≤ a.2) (insert_by_count x l).
Proof.
  induction l as [|y l IH]; simpl; intros Hs.
  - by repeat constructor.
  - apply StronglySorted_inv in Hs as [Hs Hy].
    destruct (Z.ltb_spec y.2 x.2) as [Hlt|Hge].
    + constructor; [by constructor|]. constructor; [lia|].
      eapply List.Forall_impl; [|exact Hy]. simpl. intros. lia.
    + constructor; [by apply IH|].
      rewrite insert_by_count_perm. by constructor.
Qed.

Lemma sorted_by_count_sorted d :
  StronglySorted (λ a b, b.2 ≤ a.2) (sorted_by_count d).
Proof.
  unfold sorted_by_count.
  assert (H : ∀ acc, StronglySorted (λ a b : string * Z, b.2 ≤ a.2) acc →
    StronglySorted (λ a b, b.2 ≤ a.2)
      (fold_left (λ acc x, insert_by_count x acc) d acc)).
  { induction d as [|x d IH]; intros acc Hs; simpl; [done|].
    by apply IH, insert_by_count_sorted. }
  apply H. constructor.
Qed.

Lemma filter_all_false {A} (f : A → bool) l :
  Forall (λ z, f z = false) l → List.filter f l = [].
Proof.
  induction 1 as [|z l Hz _ IH]; simpl; [done|]. by rewrite Hz.
Qed.

(** Entries with equal counts keep the order of the dictionary. *)
Lemma insert_by_count_stable c x l :
  StronglySorted (λ a b : string * Z, b.2 ≤ a.2) l →
  List.filter (λ kv : string * Z, kv.2 =? c) (insert_by_count x l)
  = List.filter (λ kv, kv.2 =? c) l ++ List.filter (λ kv, kv.2 =? c) [x].
Proof.
  induction l as [|y l IH]; simpl; intros Hs; [done|].
  apply StronglySorted_inv in Hs as [Hs Hy].
  destruct (Z.ltb_spec y.2 x.2) as [Hlt|Hge].
  - simpl. destruct (Z.eqb_spec x.2 c) as [Hc|Hc].
    + destruct (Z.eqb_spec y.2 c); [lia|].
      rewrite (filter_all_false _ l); [done|].
      eapply Forall_impl; [exact Hy|]. simpl. intros z Hz.
      apply Z.eqb_neq. lia.
    + by rewrite app_nil_r.
  - simpl. rewrite (IH Hs). simpl. by destruct (y.2 =? c).
Qed.

Lemma sorted_by_count_stable c d :
  List.filter (λ kv : string * Z, kv.2 =? c) (sorted_by_count d)
  = List.filter (λ kv, kv.2 =? c) d.
Proof.
  unfold sorted_by_count.
  assert (H : ∀ acc, StronglySorted (λ a b : string * Z, b.2 ≤ a.2) acc →
    List.filter (λ kv : string * Z, kv.2 =? c)
      (fold_left (λ acc x, insert_by_count x acc) d acc)
    = List.filter (λ kv, kv.2 =? c) acc ++ List.filter (λ kv, kv.2 =? c) d).
  { induction d as [|x d IH]; intros acc Hs; simpl.
    - by rewrite app_nil_r.
    - rewrite IH by (by apply insert_by_count_sorted).
      rewrite insert_by_count_stable by done. simpl.
      destruct (x.2 =? c); simpl; [by rewrite <- app_assoc|].
      by rewrite app_nil_r. }
  by rewrite H by constructor.
Qed.

End Sorting.

(** ** The tables of the report *)

Section Tables.

Lemma oa_counts_fold d r :
  match metadata r ≫= oa_status with
  | Some c => bump (OAColor_value c) d
  | None => d
  end = match oa_key r with Some k => bump k d | None => d end.
Proof. unfold oa_key. by destruct (metadata r ≫= oa_status). Qed.

Lemma journal_counts_fold d r :
  match metadata r ≫= journal with
  | Some j => if Py.truthy j then bump j d else d
  | None => d
  end = match journal_key r with Some k => bump k d | None => d end.
Proof.
  unfold journal_key. destruct (metadata r ≫= journal) as [j|]; [|done].
  by destruct (Py.truthy j).
Qed.


Lemma StronglySorted_app_parts {A} (R : A → A → Prop) l1 l2 :
  StronglySorted R (l1 ++ l2) →
  StronglySorted R l1 ∧ StronglySorted R l2
  ∧ ∀ a, a ∈ l1 → ∀ b, b ∈ l2 → R a b.
Proof.
  induction l1 as [|x l1 IH]; simpl; intros Hs.
  - split_and!; [constructor|done|]. intros a Ha. by apply elem_of_nil in Ha.
  - apply StronglySorted_inv in Hs as [Hs Hx].
    destruct (IH Hs) as (H1 & H2 & H12). apply Forall_app in Hx as [Hx1 Hx2].
    split_and!; [by constructor|done|].
    intros a [->|Ha]%elem_of_cons b Hb; [|by apply H12].
    rewrite Forall_forall in Hx2. by apply Hx2.
Qed.


Lemma count_states_le R :
  count_state COMPLETED R + count_state FAILED R ≤ Z.of_nat (length R)
  ∧ 0 ≤ count_state COMPLETED R ∧ 0 ≤ count_state FAILED R.
Proof.
  unfold count_state. induction R as [|r R IH]; simpl; [lia|].
  destruct (state r); simpl; simpl in IH; lia.
Qed.

Lemma format_0f_round x : format_0f x = Py.str_of_Z (round_0f x).
Proof. reflexivity. Qed.

Lemma round_0f_bounds x :
  (0 <= x)%Q → (x <= 100)%Q → 0 ≤ round_0f x ≤ 100.
Proof.
  intros H0 H100. unfold round_0f.
  assert (Hn0 : 0 ≤ Qfloor x).
  { change 0 with (Qfloor 0). by apply Qfloor_resp_le. }
  assert (Hn100 : Qfloor x ≤ 100).
  { change 100 with (Qfloor 100). by apply Qfloor_resp_le. }
  assert (Hfrac : Qfloor x = 100 →
                  Qcompare (x - inject_Z (Qfloor x)) (1 # 2) = Lt).
  { intros Hn. rewrite Hn. apply Qlt_alt.
    apply Qle_lt_trans with (y := (100 - inject_Z 100)%Q); [|done].
    apply Qplus_le_l. done. }
  destruct (Qcompare _ _) eqn:Hc.
  - destruct (Z.even _); [lia|].
    destruct (decide (Qfloor x = 100)) as [Hn|?]; [|lia].
    by specialize (Hfrac Hn).
  - lia.
  - destruct (decide (Qfloor x = 100)) as [Hn|?]; [|lia].
    by specialize (Hfrac Hn).
Qed.


End Tables.


(** ** The CORE search *)

Section Core.

Variable env : Env.
Variable config : Config.

(** The CORE search is gated by the API key: without a key nothing is asked,
    a warning is logged and the result is empty.  With a key exactly one
    request is made, for at most a hundred results; a refusal gives the empty
    list and a warning, a body that does not parse raises, and otherwise
    there is one record for each item, green exactly when it has a download
    address. *)
Theorem core_search_gated_by_key (q : string) (n : Z) (w : World) :
  let run := core_search env config q n w in
  (Py.truthy_opt (core_api_key config) = false →
   run.1 = Ok [] ∧ requests run.2 = requests w ∧ ticks run.2 = ticks w
   ∧ logs run.2 = logs w ++ [(WARNING,
       "core_api_key not set in config, skipping CORE search")])
  ∧ (Py.truthy_opt (core_api_key config) = true →
     requests run.2 = requests w ++ [core_request q n]
     ∧ match core_api env (requests w) (core_request q n) with
       | Refused text =>
           run.1 = Ok []
           ∧ logs run.2 = logs w ++ [(WARNING, "CORE search failed: "
                                               +:+ text)]
       | Malformed text => run.1 = Raise (ValueError text)
       | Body items =>
           run.1 = Ok (map core_item_to_metadata items)
           ∧ Forall (λ m, oa_status m = Some GREEN
                          ↔ Py.truthy_opt (oa_url m) = true)
                    (map core_item_to_metadata items)
       end).
Proof.
  cbv zeta. unfold core_search. split.
  - intros ->. simpl. done.
  - intros ->. simpl. fold (core_query q). fold (core_request q n).
    rewrite !bind_run.
    destruct (throttle_spec env config w) as (w1 & -> & Hr & Hl & _).
    unfold mbind, M_bind, get_world, record_request. simpl. rewrite Hr.
    destruct (core_api env (requests w) (core_request q n)) as [text|text|items];
      simpl; rewrite ?Hr, ?Hl; split_and!; try done.
    apply Forall_forall. intros m (item & -> & _)%list_elem_of_fmap.
    unfold core_item_to_metadata. simpl.
    destruct (Py.truthy_opt _); split; congruence.
Qed.

End Core.

Lemma core_search_gated_by_key_witness :
  let run := core_search (down_env "timed out") sample_config "ore deposit"
               20 initial_world in
  run.1 = Ok [] ∧ requests run.2 = [] ∧ ticks run.2 = 0%nat.
Proof.
  destruct (proj1 (core_search_gated_by_key (down_env "timed out")
                     sample_config "ore deposit" 20 initial_world) eq_refl)
    as (H1 & H2 & H3 & _).
  exact (conj H1 (conj H2 H3)).
Defined.

(** ** Cleaning the answer of a language model *)

Section Clean.

#[local] Arguments String.append : simpl nomatch.

Lemma prefix_mono n t b :
  String.prefix n t = true → String.prefix n (t +:+ b) = true.
Proof.
  intros H%prefix_inv. rewrite H, string_app_assoc. apply prefix_app.
Qed.

Lemma contains_prefix n t :
  String.prefix n t = true → Py.contains n t = true.
Proof. destruct t; simpl; by intros ->. Qed.

Lemma contains_cons n c t :
  Py.contains n t = true → Py.contains n (String c t) = true.
Proof. simpl. intros ->. by rewrite orb_true_r. Qed.

Lemma contains_app_l n a t :
  Py.contains n t = true → Py.contains n (a +:+ t) = true.
Proof.
  intros H. induction a as [|c a IH]; simpl; [done|].
  change (String c a +:+ t) with (String c (a +:+ t)).
  by rewrite IH, orb_true_r.
Qed.

Lemma contains_app_r n t b :
  Py.contains n t = true → Py.contains n (t +:+ b) = true.
Proof.
  induction t as [|c t IH].
  - cbn [Py.contains]. rewrite orb_false_r. intros H.
    apply contains_prefix. by apply (prefix_mono n EmptyString b).
  - cbn [Py.contains]. intros [H|H]%orb_true_iff.
    + apply contains_prefix. by apply prefix_mono.
    + change (String c t +:+ b) with (String c (t +:+ b)).
      apply contains_cons. by apply IH.
Qed.

Lemma contains_strip n s :
  Py.contains n s = false → Py.contains n (Py.strip s) = false.
Proof.
  intros H. destruct (Py.contains n (Py.strip s)) eqn:Hc; [|done].
  rewrite <- H. symmetry. unfold Py.strip in Hc.
  destruct (drop_while_suffix Py.is_space s) as [a Ha].
  destruct (rstrip_by_prefix Py.is_space (Py.drop_while Py.is_space s))
    as [b Hb].
  rewrite Ha. apply contains_app_l. rewrite Hb. by apply contains_app_r.
Qed.

Lemma split1_none sep s : split1 sep s = None → Py.contains sep s = false.
Proof.
  induction s as [|c s IH]; cbn [split1 Py.contains].
  - by destruct (String.prefix sep "").
  - destruct (String.prefix sep (String c s)); [done|].
    destruct (split1 sep s) as [[a b]|]; [done|]. intros _. by rewrite IH.
Qed.

Lemma split1_some sep s a b :
  sep ≠ EmptyString → split1 sep s = Some (a, b) →
  s = a +:+ sep +:+ b ∧ Py.contains sep a = false.
Proof.
  intros Hsep. revert a. induction s as [|c s IH]; intros a; cbn [split1].
  - destruct (String.prefix sep "") eqn:Hp; [|done].
    apply prefix_inv in Hp. by destruct sep.
  - destruct (String.prefix sep (String c s)) eqn:Hp.
    + intros [= <- <-]. split; [by apply prefix_inv in Hp|].
      simpl. by destruct sep.
    + destruct (split1 sep s) as [[a' b']|]; [|done]. intros [= <- <-].
      destruct (IH a' eq_refl) as [-> Ha]. split; [done|].
      cbn [Py.contains]. rewrite Ha, orb_false_r.
      destruct (String.prefix sep (String c a')) eqn:Hp'; [|done].
      apply (prefix_mono _ _ (sep +:+ b')) in Hp'.
      change (String c a' +:+ sep +:+ b') with (String c (a' +:+ sep +:+ b'))
        in Hp'.
      congruence.
Qed.

(** The part before the first fence holds no fence. *)
Lemma split_once_head sep s :
  sep ≠ EmptyString →
  ∃ a, split_once sep s !! 0%nat = Some a ∧ Py.contains sep a = false.
Proof.
  intros Hsep. unfold split_once.
  destruct (split1 sep s) as [[a b]|] eqn:Hs.
  - exists a. split; [done|]. by eapply split1_some.
  - exists s. split; [done|]. by apply split1_none.
Qed.

Lemma split_once_tail sep s :
  Py.contains sep s = true → ∃ b, split_once sep s !! 1%nat = Some b.
Proof.
  intros Hc. unfold split_once.
  destruct (split1 sep s) as [[a b]|] eqn:Hs; [by exists b|].
  apply split1_none in Hs. congruence.
Qed.

Lemma contains_json_fence s :
  Py.contains json_fence s = true → Py.contains fence s = true.
Proof.
  induction s as [|c s IH]; cbn [Py.contains].
  - done.
  - intros [H|H]%orb_true_iff.
    + apply prefix_inv in H. rewrite H. done.
    + by rewrite (IH H), orb_true_r.
Qed.

Lemma split1_prefix sep r :
  sep ≠ EmptyString → split1 sep (sep +:+ r) = Some (EmptyString, r).
Proof.
  destruct sep as [|c sep]; [done|]. intros _.
  change (String c sep +:+ r) with (String c (sep +:+ r)). cbn [split1].
  change (String c (sep +:+ r)) with (String c sep +:+ r).
  by rewrite prefix_app, drop_app.
Qed.

Lemma split1_at_fence body post :
  all_chars not_backtick body = true →
  split1 fence (body +:+ fence +:+ post) = Some (body, post).
Proof.
  induction body as [|c body IH].
  - intros _. by apply (split1_prefix fence post).
  - cbn [all_chars]. intros [Hc Hb]%andb_true_iff.
    change (String c body +:+ fence +:+ post)
      with (String c (body +:+ fence +:+ post)).
    cbn [split1]. rewrite (IH Hb).
    destruct (String.prefix fence _) eqn:Hp; [|done].
    apply prefix_inv in Hp. injection Hp as -> _. done.
Qed.

(** Cleaning always returns, and what it returns is stripped and holds no
    code fence, so cleaning it again changes nothing; an answer without a
    fence is only stripped; and an answer that opens with the JSON fence
    gives the stripped text up to the closing fence. *)
Theorem clean_json_response_spec (text : string) :
  ∃ out, _clean_json_response text = Some out
    ∧ Py.strip out = out
    ∧ Py.contains fence out = false
    ∧ _clean_json_response out = Some out
    ∧ (Py.contains fence (Py.strip text) = false → out = Py.strip text)
    ∧ (∀ body post,
         Py.strip text = json_fence +:+ body +:+ fence +:+ post →
         all_chars not_backtick body = true → out = Py.strip body).
Proof.
  assert (Hf : fence ≠ EmptyString) by done.
  assert (Hbody : ∃ t,
    (if Py.contains json_fence (Py.strip text) then
       rest ← split_once json_fence (Py.strip text) !! 1%nat;
       split_once fence rest !! 0%nat
     else if Py.contains fence (Py.strip text) then
       rest ← split_once fence (Py.strip text) !! 1%nat;
       split_once fence rest !! 0%nat
     else Some (Py.strip text)) = Some t
    ∧ Py.contains fence t = false
    ∧ (Py.contains fence (Py.strip text) = false → t = Py.strip text)
    ∧ (∀ body post,
         Py.strip text = json_fence +:+ body +:+ fence +:+ post →
         all_chars not_backtick body = true → t = body)).
  { destruct (Py.contains json_fence (Py.strip text)) eqn:Hj.
    - destruct (split_once_tail _ _ Hj) as [rest Hrest].
      destruct (split_once_head fence rest Hf) as (a & Ha & Hna).
      exists a. split_and!; [by rewrite Hrest|done| |].
      + intros Hn. apply contains_json_fence in Hj. congruence.
      + intros body post Ht Hb. rewrite Ht in Hrest.
        unfold split_once in Hrest.
        assert (Hs : split1 json_fence
                       (json_fence +:+ body +:+ fence +:+ post)
                     = Some (EmptyString, body +:+ fence +:+ post))
          by (by apply split1_prefix).
        rewrite Hs in Hrest.
        assert (rest = body +:+ fence +:+ post) as ->
          by (by injection Hrest).
        unfold split_once in Ha. rewrite (split1_at_fence body post Hb) in Ha.
        by injection Ha as <-.
    - destruct (Py.contains fence (Py.strip text)) eqn:Hc.
      + destruct (split_once_tail _ _ Hc) as [rest Hrest].
        destruct (split_once_head fence rest Hf) as (a & Ha & Hna).
        exists a. split_and!; [by rewrite Hrest|done|done|].
        intros body post Ht Hb. rewrite Ht in Hj.
        rewrite (contains_prefix json_fence) in Hj; [done|].
        apply prefix_app.
      + exists (Py.strip text). split_and!; [done|done|done|].
        intros body post Ht Hb. rewrite Ht in Hj.
        rewrite (contains_prefix json_fence) in Hj; [done|].
        apply prefix_app. }
  destruct Hbody as (t & Ht & Hnt & Hplain & Hfenced).
  exists (Py.strip t).
  assert (Hout : Py.contains fence (Py.strip t) = false)
    by (by apply contains_strip).
  unfold _clean_json_response. cbv zeta. rewrite Ht. simpl.
  split_and!.
  - done.
  - apply strip_idem.
  - done.
  - rewrite !strip_idem, Hout.
    destruct (Py.contains json_fence (Py.strip t)) eqn:Hj.
    + apply contains_json_fence in Hj. congruence.
    + simpl. by rewrite strip_idem.
  - intros Hn. rewrite (Hplain Hn). apply strip_idem.
  - intros body post Hs Hb. by rewrite (Hfenced body post Hs Hb).
Qed.

End Clean.
